(** * SPDY/3 response stream and SYN_STREAM codec

    A shallow embedding of [spdy3/response_stream.go] (the server-side
    response stream: [ResponseStream] with its [http.ResponseWriter]
    methods, [ReceiveFrame], [Run], [Close]) and of the SYN_STREAM frame
    codec ([SynStreamFrame.ReadFrom] / [WriteTo]), followed by the
    properties the specification states about them.

    Conventions of the embedding.
    - Go's fixed-width unsigned integers are [Z] values; conversions that
      truncate ([byte(x)]) are written out with [mod].  Octets on the wire
      are [Byte.byte].
    - A Go pointer, map, channel or interface that the code compares with
      [nil] or assigns [nil] is an [option].
    - [http.Header] is a finite map from header names to lists of values.
    - Methods with side effects are functions on a [World]: the stream's
      fields together with the connection's outbound frame queue and stop
      signal.  A call either returns, panics, or blocks for ever.
    - [sync.Mutex] operations and [log.Println] calls have no effect on
      the modelled state; every method is modelled as running alone. *)

From Stdlib Require Import ZArith List Bool Lia.
From Stdlib Require Import Strings.Byte.
From stdpp Require Import base option list strings gmap fin_maps pretty.

Import ListNotations.
Local Open Scope Z_scope.

(** ** Octets *)

Definition byte_to_Z (b : byte) : Z := Z.of_N (Byte.to_N b).

(** Go's conversion [byte(x)] of an integer: the low eight bits. *)
Definition byte_of_Z (z : Z) : byte :=
  match Byte.of_N (Z.to_N (z mod 256)) with
  | Some b => b
  | None => x00
  end.

(** [len(x)] as a Go [int]. *)
Definition len {A : Type} (l : list A) : Z := Z.of_nat (length l).

(** ** Package [net/http], as far as the stream uses it *)

Module http.

(** [http.Header] is [map[string][]string].  Header names are taken as
    already canonical: the names the stream writes itself, [":status"]
    and [":version"], are left as they are by Go's canonicalisation. *)
Abbreviation Header := (gmap string (list string)).

(** [h.Set(name, value)], [h.Add(name, value)], [h.Del(name)]. *)
Definition Header_Set (name value : string) (h : Header) : Header :=
  <[name := [value]]> h.
Definition Header_Add (name value : string) (h : Header) : Header :=
  <[name := default [] (h !! name) ++ [value]]> h.
Definition Header_Del (name : string) (h : Header) : Header :=
  delete name h.

Definition StatusOK : Z := 200.

(** An [http.Handler] value: the default multiplexer or a handler
    supplied by the server's user.  What a handler does when served is
    given separately, see [spdy3.Call]. *)
Inductive Handler : Type :=
| DefaultServeMux
| UserHandler (id : nat).

(** The request body of an [http.Request]: a reader over the stream's
    request-body buffer ([common.ReadCloser]) or one of another kind. *)
Inductive Body_ : Type :=
| ReadCloser_requestBody
| OtherBody.

Record Request : Type := mkRequest {
  Body : option Body_
}.

End http.

(** [strconv.Itoa]. *)
Definition Itoa (i : Z) : string := pretty i.

(** Go [error] values produced by the modelled code. *)
Inductive error : Type :=
| errorString (msg : string)                  (* errors.New(msg) *)
| UnknownFrameError (name : string)           (* "Received unknown frame of type %T." *)
| FlowControlError                            (* flowControl.UpdateWindow overflow *)
| IncorrectFrame (got expected version : Z)
| UnsupportedVersion (version : Z)
| InvalidField (field : string) (got expected : Z)
| IncorrectDataLength (got expected : Z)
| FrameTooLarge
| StreamIdTooLarge
| StreamIdIsZero
| ErrUnexpectedEOF.

(** ** Package [common] *)

Module common.

(** Modelled from the spec: the constant [common.MAX_FRAME_SIZE], whose
    declaration is not part of the source file; the specification gives
    "MAX_FRAME_SIZE = 2^24 - 1 bytes payload". *)
Definition MAX_FRAME_SIZE : Z := 2 ^ 24 - 1.

(** Modelled from the spec: the constant [common.MAX_DATA_SIZE], whose
    declaration is not part of the source file; "the engine uses 4 KiB
    by convention". *)
Definition MAX_DATA_SIZE : Z := 4096.

(** Modelled from the spec: the type [common.Flags] and its constants,
    not in the source file; the "flags byte" of a frame, with "valid
    flags: FIN=0x01, UNIDIRECTIONAL=0x02". *)
Definition Flags := byte.
Definition FLAG_FIN : Flags := x01.
Definition FLAG_UNIDIRECTIONAL : Flags := x02.
Definition FLAG_NONE : Flags := x00.

(** Modelled from the spec: [Flags.FIN] and [Flags.UNIDIRECTIONAL], not
    in the source file; "valid flags: FIN=0x01, UNIDIRECTIONAL=0x02". *)
Definition FIN (f : Flags) : bool := Z.testbit (byte_to_Z f) 0.
Definition UNIDIRECTIONAL (f : Flags) : bool := Z.testbit (byte_to_Z f) 1.

(** Modelled from the spec: the type [common.StreamID], not in the
    source file: "unsigned 31-bit", carried in 32 bits "(31-bit, high
    bit reserved)"; the source converts a [uint32] to it. *)
Definition StreamID := Z.
Definition uint32 (z : Z) : Prop := 0 <= z < 2 ^ 32.

(** Modelled from the spec: the methods of [common.StreamID], not in the
    source file.  "Valid iff the high bit is clear.  Zero is reserved."
    [B1] .. [B4] are the four octets of the identifier, most significant
    first, as the wire layout "stream-ID at 8-11" requires. *)
Definition Valid (s : StreamID) : bool := negb (Z.testbit s 31).
Definition Zero (s : StreamID) : bool := s =? 0.
Definition B1 (s : StreamID) : byte := byte_of_Z (Z.shiftr s 24).
Definition B2 (s : StreamID) : byte := byte_of_Z (Z.shiftr s 16).
Definition B3 (s : StreamID) : byte := byte_of_Z (Z.shiftr s 8).
Definition B4 (s : StreamID) : byte := byte_of_Z s.

(** Modelled from the spec: the type [common.Priority], not in the
    source file; the source converts an octet to it. *)
Definition Priority := byte.

(** Modelled from the spec: [Priority.Byte(3)], not in the source file;
    "priority in high 3 bits of byte 16". *)
Definition Priority_Byte3 (p : Priority) : byte :=
  byte_of_Z (Z.shiftl (Z.land (byte_to_Z p) 7) 5).

(** Modelled from the spec: [common.BytesToUint24] and
    [common.BytesToUint32], not in the source file; big-endian decoding
    of the "length field (24-bit) at 5-7" and of the 32-bit identifiers. *)
Definition BytesToUint24 (b : list byte) : Z :=
  match b with
  | [b0; b1; b2] =>
      Z.shiftl (byte_to_Z b0) 16 + Z.shiftl (byte_to_Z b1) 8 + byte_to_Z b2
  | _ => 0
  end.

Definition BytesToUint16 (b : list byte) : Z :=
  match b with
  | [b0; b1] => Z.shiftl (byte_to_Z b0) 8 + byte_to_Z b1
  | _ => 0
  end.

Definition BytesToUint32 (b : list byte) : Z :=
  match b with
  | [b0; b1; b2; b3] =>
      Z.shiftl (byte_to_Z b0) 24 + Z.shiftl (byte_to_Z b1) 16
      + Z.shiftl (byte_to_Z b2) 8 + byte_to_Z b3
  | _ => 0
  end.

(** Readers of the standard library: an [io.Reader] is the list of
    octets it has yet to deliver. *)
Definition Reader := list byte.

(** [io.Writer] is an interface: a writer is a value of any type [W]
    that has the operation below.  [common.WriteExactly] is not in the
    source file; what it does with a writer is taken as a parameter,
    the writer's [write_all]: it writes all of the data, or it returns
    the writer's error and leaves the writer as the failed write has
    left it. *)
Class io_Writer (W : Type) : Type :=
  write_all : W -> list byte -> W * option error.

(** The in-memory writer ([bytes.Buffer]): the list of octets written
    to it so far.  It accepts every write. *)
Abbreviation Writer := (list byte).

#[global] Instance buffer_Writer : io_Writer Writer :=
  fun w data => (w ++ data, None).

(** A writer that takes [room] more octets and fails after them with
    [io.ErrShortWrite] (a full device, a connection that closes). *)
Record Bounded : Type := mkBounded {
  accepted : list byte;
  room : Z
}.

#[global] Instance bounded_Writer : io_Writer Bounded :=
  fun w data =>
    if len data <=? room w
    then (mkBounded (accepted w ++ data) (room w - len data), None)
    else (mkBounded (accepted w ++ take (Z.to_nat (room w)) data) 0,
          Some (errorString "short write")).

(** Modelled from the spec: [common.ReadExactly(reader, n)], not in the
    source file: the next [n] octets, or an error when the reader ends
    before. *)
Definition ReadExactly (r : Reader) (n : Z) : error + (list byte * Reader) :=
  if len r <? n then inl ErrUnexpectedEOF
  else inr (take (Z.to_nat n) r, drop (Z.to_nat n) r).

(** [common.WriteExactly(writer, data)], see [io_Writer]. *)
Definition WriteExactly {W : Type} `{io_Writer W} (w : W) (data : list byte)
    : W * option error :=
  write_all w data.

(** Modelled from the spec: [common.StreamState], not in the source
    file.  "OPEN - both sides open, HALF_CLOSED_LOCAL - local has sent
    FIN, HALF_CLOSED_REMOTE - remote has sent FIN, CLOSED - terminal." *)
Inductive StreamState : Type :=
| OPEN | HALF_CLOSED_LOCAL | HALF_CLOSED_REMOTE | CLOSED.

Definition OpenHere (s : StreamState) : bool :=
  match s with OPEN | HALF_CLOSED_REMOTE => true | _ => false end.
Definition OpenThere (s : StreamState) : bool :=
  match s with OPEN | HALF_CLOSED_LOCAL => true | _ => false end.
Definition ClosedHere (s : StreamState) : bool :=
  match s with HALF_CLOSED_LOCAL | CLOSED => true | _ => false end.
Definition ClosedThere (s : StreamState) : bool :=
  match s with HALF_CLOSED_REMOTE | CLOSED => true | _ => false end.
Definition Closed (s : StreamState) : bool :=
  match s with CLOSED => true | _ => false end.

(** Modelled from the spec: the transitions of [common.StreamState].
    "CloseHere moves OPEN to HALF_CLOSED_LOCAL and HALF_CLOSED_REMOTE to
    CLOSED.  CloseThere moves OPEN to HALF_CLOSED_REMOTE and
    HALF_CLOSED_LOCAL to CLOSED.  Close forces CLOSED." *)
Definition CloseHere (s : StreamState) : StreamState :=
  match s with
  | OPEN => HALF_CLOSED_LOCAL
  | HALF_CLOSED_REMOTE => CLOSED
  | s => s
  end.
Definition CloseThere (s : StreamState) : StreamState :=
  match s with
  | OPEN => HALF_CLOSED_REMOTE
  | HALF_CLOSED_LOCAL => CLOSED
  | s => s
  end.
Definition Close (_ : StreamState) : StreamState := CLOSED.

(** Modelled from the spec: the RST_STREAM status codes of package
    [common], not in the source file: "PROTOCOL_ERROR, INVALID_STREAM,
    FLOW_CONTROL_ERROR". *)
Inductive StatusCode : Type :=
| RST_STREAM_PROTOCOL_ERROR
| RST_STREAM_INVALID_STREAM
| RST_STREAM_FLOW_CONTROL_ERROR.

(** Modelled from the spec: [common.UpdateHeader(older, newer)], not in
    the source file: "merge frame header map into pending headers".
    A name of [newer] that [older] does not have comes with its values.
    For a name that both maps have the specification does not say
    whether the values of [newer] are added to those of [older] or take
    their place; they are added here, as [http.Header.Add] does, and no
    property below speaks of such a name. *)
Definition AddAll (name : string) (values : list string) (h : http.Header)
    : http.Header :=
  foldl (fun acc value => http.Header_Add name value acc) h values.
Definition UpdateHeader (older newer : http.Header) : http.Header :=
  map_fold AddAll older newer.

End common.

(** ** Package [frames] *)

Module frames.
Import common.

Definition SYN_STREAM_type : Z := 1.

(** Modelled from the spec: [controlFrameCommonProcessing], not in the
    source file.  "control bit + version(3) = 0x8003 at bytes 0-1;
    type = 1 at bytes 2-3; flags byte at 4 (valid flags: FIN=0x01,
    UNIDIRECTIONAL=0x02)".  [data] is the first five octets of the
    frame, [flags] the mask of the flags the frame type allows. *)
Definition controlFrameCommonProcessing
    (data : list byte) (frameType : Z) (flags : byte) : option error :=
  match data with
  | [d0; d1; d2; d3; d4] =>
      if negb (byte_to_Z d0 =? 128) then Some (IncorrectFrame 0 frameType 3)
      else if negb (byte_to_Z d1 =? 3) then Some (UnsupportedVersion (byte_to_Z d1))
      else if negb (BytesToUint16 [d2; d3] =? frameType)
           then Some (IncorrectFrame (BytesToUint16 [d2; d3]) frameType 3)
      else if negb (Z.land (byte_to_Z d4) (Z.lnot (byte_to_Z flags)) =? 0)
           then Some (InvalidField "flags" (byte_to_Z d4) (byte_to_Z flags))
      else None
  | _ => Some ErrUnexpectedEOF
  end.

Record SynStreamFrame : Type := mkSynStreamFrame {
  Flags : common.Flags;
  StreamID : common.StreamID;
  AssocStreamID : common.StreamID;
  Priority : common.Priority;
  Slot : byte;
  Header : option http.Header;
  rawHeader : option (list byte)
}.

(** The result of [ReadFrom]: the frame as the call leaves it, the
    reader, the count returned and the error returned. *)
Record ReadResult : Type := mkReadResult {
  rd_frame : SynStreamFrame;
  rd_reader : Reader;
  rd_n : Z;
  rd_err : option error
}.

(** [func (frame *SynStreamFrame) ReadFrom(reader io.Reader) (int64, error)] *)
Definition ReadFrom (frame : SynStreamFrame) (reader : Reader) : ReadResult :=
  match ReadExactly reader 18 with
  | inl err => mkReadResult frame reader 0 (Some err)
  | inr (data, reader1) =>
    match controlFrameCommonProcessing (take 5 data) SYN_STREAM_type
            (byte_of_Z (Z.lor (byte_to_Z FLAG_FIN) (byte_to_Z FLAG_UNIDIRECTIONAL))) with
    | Some err => mkReadResult frame reader1 18 (Some err)
    | None =>
      (* Get and check length. *)
      let length := BytesToUint24 (take 3 (drop 5 data)) in
      if length <? 10 then
        mkReadResult frame reader1 18 (Some (IncorrectDataLength length 10))
      else if length >? MAX_FRAME_SIZE - 18 then
        mkReadResult frame reader1 18 (Some FrameTooLarge)
      else
        (* Read in data. *)
        match ReadExactly reader1 (length - 10) with
        | inl err => mkReadResult frame reader1 18 (Some err)
        | inr (header, reader2) =>
          let frame' :=
            {| Flags := nth 4 data x00;
               StreamID := BytesToUint32 (take 4 (drop 8 data));
               AssocStreamID := BytesToUint32 (take 4 (drop 12 data));
               Priority := byte_of_Z (Z.shiftr (byte_to_Z (nth 16 data x00)) 5);
               Slot := nth 17 data x00;
               Header := Header frame;
               rawHeader := Some header |} in
          if negb (Valid (StreamID frame')) then
            mkReadResult frame' reader2 18 (Some StreamIdTooLarge)
          else if Zero (StreamID frame') then
            mkReadResult frame' reader2 18 (Some StreamIdIsZero)
          else if negb (Valid (AssocStreamID frame')) then
            mkReadResult frame' reader2 18 (Some StreamIdTooLarge)
          else
            mkReadResult frame' reader2 (length + 8) None
        end
    end
  end.

(** [func (frame *SynStreamFrame) WriteTo(writer io.Writer) (int64, error)] *)
Definition WriteTo {W : Type} `{io_Writer W} (frame : SynStreamFrame) (writer : W)
    : W * Z * option error :=
  match rawHeader frame with
  | None => (writer, 0, Some (errorString "Error: Headers not written."))
  | Some header =>
    if negb (Valid (StreamID frame)) then (writer, 0, Some StreamIdTooLarge)
    else if Zero (StreamID frame) then (writer, 0, Some StreamIdIsZero)
    else if negb (Valid (AssocStreamID frame)) then (writer, 0, Some StreamIdTooLarge)
    else
      let length := 10 + len header in
      let out :=
        [ byte_of_Z 128;                      (* Control bit and Version *)
          byte_of_Z 3;                        (* Version *)
          byte_of_Z 0;                        (* Type *)
          byte_of_Z 1;                        (* Type *)
          Flags frame;                        (* Flags *)
          byte_of_Z (Z.shiftr length 16);     (* Length *)
          byte_of_Z (Z.shiftr length 8);      (* Length *)
          byte_of_Z length;                   (* Length *)
          B1 (StreamID frame);                (* Stream ID *)
          B2 (StreamID frame);
          B3 (StreamID frame);
          B4 (StreamID frame);
          B1 (AssocStreamID frame);           (* Associated Stream ID *)
          B2 (AssocStreamID frame);
          B3 (AssocStreamID frame);
          B4 (AssocStreamID frame);
          Priority_Byte3 (Priority frame);    (* Priority and unused *)
          Slot frame ] in                     (* Slot *)
      match WriteExactly writer out with
      | (writer1, Some err) => (writer1, 0, Some err)
      | (writer1, None) =>
        match WriteExactly writer1 header with
        | (writer2, Some err) => (writer2, 18, Some err)
        | (writer2, None) => (writer2, len header + 18, None)
        end
      end
  end.

(** The frames a stream receives and sends ([common.Frame] values of
    the types [*frames.SYN_REPLY], [*frames.HEADERS], [*frames.DATA],
    [*frames.WINDOW_UPDATE], [*frames.RST_STREAM]; every other frame
    type is [OtherFrame], with its type name). *)
Inductive Frame : Type :=
| SYN_REPLY (flags : common.Flags) (id : common.StreamID) (header : http.Header)
| HEADERS (flags : common.Flags) (id : common.StreamID) (header : http.Header)
| DATA (id : common.StreamID) (flags : common.Flags) (data : list byte)
| WINDOW_UPDATE (id : common.StreamID) (DeltaWindowSize : Z)
| RST_STREAM (id : common.StreamID) (status : common.StatusCode)
| OtherFrame (name : string).

(** The flags octet of a frame (WINDOW_UPDATE and RST_STREAM carry no
    flags). *)
Definition frame_flags (f : Frame) : common.Flags :=
  match f with
  | SYN_REPLY flags _ _ | HEADERS flags _ _ | DATA _ flags _ => flags
  | _ => FLAG_NONE
  end.

End frames.

(** ** Package [spdy3] *)

Module spdy3.
Import common.

(** *** Flow control *)

(** Modelled from the spec: the type [flowControl] and its methods
    ([Write], [Receive], [UpdateWindow], [Flush], [Paused], [Close]),
    which are not in the source file.  "Attributes: send_window (signed
    32-bit), recv_window (signed 32-bit, initial same), paused flag,
    pending buffer of bytes awaiting credit."  Every method yields the
    controller after the call and the frames it submits to the output
    sink, in order. *)
Record flowControl : Type := mkFlow {
  fc_streamID : StreamID;
  initial_window : Z;
  send_window : Z;
  recv_window : Z;
  paused : bool;
  pending : list byte;
  fc_closed : bool
}.

(** Modelled from the spec: how the flow controller frames a payload.
    "No single outbound DATA payload exceeds MAX_DATA_SIZE": a payload
    is cut into pieces of [size] octets; [fuel] bounds the number of
    pieces and is the payload's length at every use. *)
Fixpoint pieces (fuel : nat) (size : nat) (payload : list byte) : list (list byte) :=
  match fuel, payload with
  | S fuel', _ :: _ => take size payload :: pieces fuel' size (drop size payload)
  | _, _ => []
  end.

Definition data_frames (id : StreamID) (payload : list byte) : list frames.Frame :=
  map (frames.DATA id FLAG_NONE)
      (pieces (length payload) (Z.to_nat MAX_DATA_SIZE) payload).

(** Modelled from the spec: [flowControl.Write].
    "Write(bytes): attempts to send bytes as one or more DATA frames.
    If send_window < len(bytes), writes as much as fits, stashes the
    remainder in pending, sets paused = true, and returns with n equal
    to the number of bytes accepted (all bytes are accepted)."  Bytes
    transmitted as DATA decrement send_window by the payload length. *)
Definition flow_Write (f : flowControl) (bytes : list byte)
    : flowControl * list frames.Frame * (Z * option error) :=
  if send_window f <? len bytes then
    let fit := Z.to_nat (Z.max 0 (send_window f)) in
    (mkFlow (fc_streamID f) (initial_window f)
            (send_window f - len (take fit bytes)) (recv_window f)
            true (pending f ++ drop fit bytes) (fc_closed f),
     data_frames (fc_streamID f) (take fit bytes),
     (len bytes, None))
  else
    (mkFlow (fc_streamID f) (initial_window f)
            (send_window f - len bytes) (recv_window f)
            (paused f) (pending f) (fc_closed f),
     data_frames (fc_streamID f) bytes,
     (len bytes, None)).

(** Modelled from the spec: [flowControl.Receive].
    "Receive(bytes): records len(bytes) against recv_window; may enqueue
    a WINDOW_UPDATE outbound (policy: replenish whenever it has drained
    by at least half the initial window)." *)
Definition flow_Receive (f : flowControl) (bytes : list byte)
    : flowControl * list frames.Frame :=
  let recv := recv_window f - len bytes in
  let drained := initial_window f - recv in
  if (0 <? drained) && (initial_window f <=? 2 * drained) then
    (mkFlow (fc_streamID f) (initial_window f) (send_window f)
            (initial_window f) (paused f) (pending f) (fc_closed f),
     [frames.WINDOW_UPDATE (fc_streamID f) drained])
  else
    (mkFlow (fc_streamID f) (initial_window f) (send_window f)
            recv (paused f) (pending f) (fc_closed f),
     []).

(** Modelled from the spec: [flowControl.UpdateWindow].
    "UpdateWindow(delta): adds delta to send_window.  Fails with
    FLOW_CONTROL_ERROR if the sum would exceed 2^31-1 [and no mutation
    occurs].  On success, if paused and the new credit permits, flushes
    pending bytes in FIFO order into outbound DATA frames; clears paused
    when the pending buffer drains." *)
Definition flow_UpdateWindow (f : flowControl) (delta : Z)
    : error + (flowControl * list frames.Frame) :=
  if send_window f + delta >? 2 ^ 31 - 1 then inl FlowControlError
  else
    let window := send_window f + delta in
    if paused f then
      let fit := Z.to_nat (Z.max 0 window) in
      let now := take fit (pending f) in
      let rest := drop fit (pending f) in
      inr (mkFlow (fc_streamID f) (initial_window f) (window - len now)
                  (recv_window f)
                  (match rest with [] => false | _ => true end)
                  rest (fc_closed f),
           data_frames (fc_streamID f) now)
    else
      inr (mkFlow (fc_streamID f) (initial_window f) window (recv_window f)
                  (paused f) (pending f) (fc_closed f),
           []).

(** Modelled from the spec: [flowControl.Flush], [Paused] and [Close].
    "Flush(): unconditionally transmits pending as DATA (may exceed
    send_window)." *)
Definition flow_Flush (f : flowControl) : flowControl * list frames.Frame :=
  (mkFlow (fc_streamID f) (initial_window f)
          (send_window f - len (pending f)) (recv_window f)
          false [] (fc_closed f),
   data_frames (fc_streamID f) (pending f)).

Definition flow_Paused (f : flowControl) : bool := paused f.

Definition flow_Close (f : flowControl) : flowControl :=
  mkFlow (fc_streamID f) (initial_window f) (send_window f) (recv_window f)
         (paused f) (pending f) true.

(** *** The stream *)

(** The connection's channels, as the stream refers to them. *)
Inductive OutputChan : Type := conn_output.
Inductive StopChan : Type := conn_stop.

Record Conn : Type := mkConn {
  conn_stop_field : option StopChan
}.

(** [type ResponseStream struct].  [state] is assigned once, in
    [NewResponseStream], and never set to [nil]: it is not an [option],
    and the test [s.state == nil] of [closed] and [shutdown] is always
    false.  [shutdownOnce] holds whether the [sync.Once] has fired;
    [ready] whether the channel [ready] has been closed. *)
Record ResponseStream : Type := mkResponseStream {
  shutdownOnce : bool;
  conn : option Conn;
  streamID : StreamID;
  flow : option flowControl;
  requestBody : option (list byte);
  state : StreamState;
  output : option OutputChan;
  request : option http.Request;
  handler : option http.Handler;
  header : option http.Header;
  priority : Priority;
  unidirectional : bool;
  responseCode : Z;
  stop : option StopChan;
  ready : bool;
  wroteHeader : bool
}.

(** The stream together with what it shares with its connection:
    [sent] is the sequence of frames submitted to the output channel so
    far (the channel is unbounded: a send on it never waits), [stopped]
    whether the connection-wide stop signal has fired. *)
Record World : Type := mkWorld {
  stream : ResponseStream;
  sent : list frames.Frame;
  stopped : bool
}.

Definition with_stream (w : World) (s : ResponseStream) : World :=
  mkWorld s (sent w) (stopped w).

(** Field updates. *)
Definition set_shutdownOnce (v : bool) (s : ResponseStream) : ResponseStream :=
  mkResponseStream v (conn s) (streamID s) (flow s) (requestBody s) (state s)
    (output s) (request s) (handler s) (header s) (priority s)
    (unidirectional s) (responseCode s) (stop s) (ready s) (wroteHeader s).
Definition set_flow (v : option flowControl) (s : ResponseStream) : ResponseStream :=
  mkResponseStream (shutdownOnce s) (conn s) (streamID s) v (requestBody s) (state s)
    (output s) (request s) (handler s) (header s) (priority s)
    (unidirectional s) (responseCode s) (stop s) (ready s) (wroteHeader s).
Definition set_requestBody (v : option (list byte)) (s : ResponseStream) : ResponseStream :=
  mkResponseStream (shutdownOnce s) (conn s) (streamID s) (flow s) v (state s)
    (output s) (request s) (handler s) (header s) (priority s)
    (unidirectional s) (responseCode s) (stop s) (ready s) (wroteHeader s).
Definition set_state (v : StreamState) (s : ResponseStream) : ResponseStream :=
  mkResponseStream (shutdownOnce s) (conn s) (streamID s) (flow s) (requestBody s) v
    (output s) (request s) (handler s) (header s) (priority s)
    (unidirectional s) (responseCode s) (stop s) (ready s) (wroteHeader s).
Definition set_output (v : option OutputChan) (s : ResponseStream) : ResponseStream :=
  mkResponseStream (shutdownOnce s) (conn s) (streamID s) (flow s) (requestBody s) (state s)
    v (request s) (handler s) (header s) (priority s)
    (unidirectional s) (responseCode s) (stop s) (ready s) (wroteHeader s).
Definition set_request (v : option http.Request) (s : ResponseStream) : ResponseStream :=
  mkResponseStream (shutdownOnce s) (conn s) (streamID s) (flow s) (requestBody s) (state s)
    (output s) v (handler s) (header s) (priority s)
    (unidirectional s) (responseCode s) (stop s) (ready s) (wroteHeader s).
Definition set_handler (v : option http.Handler) (s : ResponseStream) : ResponseStream :=
  mkResponseStream (shutdownOnce s) (conn s) (streamID s) (flow s) (requestBody s) (state s)
    (output s) (request s) v (header s) (priority s)
    (unidirectional s) (responseCode s) (stop s) (ready s) (wroteHeader s).
Definition set_header (v : option http.Header) (s : ResponseStream) : ResponseStream :=
  mkResponseStream (shutdownOnce s) (conn s) (streamID s) (flow s) (requestBody s) (state s)
    (output s) (request s) (handler s) v (priority s)
    (unidirectional s) (responseCode s) (stop s) (ready s) (wroteHeader s).
Definition set_responseCode (v : Z) (s : ResponseStream) : ResponseStream :=
  mkResponseStream (shutdownOnce s) (conn s) (streamID s) (flow s) (requestBody s) (state s)
    (output s) (request s) (handler s) (header s) (priority s)
    (unidirectional s) v (stop s) (ready s) (wroteHeader s).
Definition set_stop (v : option StopChan) (s : ResponseStream) : ResponseStream :=
  mkResponseStream (shutdownOnce s) (conn s) (streamID s) (flow s) (requestBody s) (state s)
    (output s) (request s) (handler s) (header s) (priority s)
    (unidirectional s) (responseCode s) v (ready s) (wroteHeader s).
Definition set_ready (v : bool) (s : ResponseStream) : ResponseStream :=
  mkResponseStream (shutdownOnce s) (conn s) (streamID s) (flow s) (requestBody s) (state s)
    (output s) (request s) (handler s) (header s) (priority s)
    (unidirectional s) (responseCode s) (stop s) v (wroteHeader s).
Definition set_wroteHeader (v : bool) (s : ResponseStream) : ResponseStream :=
  mkResponseStream (shutdownOnce s) (conn s) (streamID s) (flow s) (requestBody s) (state s)
    (output s) (request s) (handler s) (header s) (priority s)
    (unidirectional s) (responseCode s) (stop s) (ready s) v.

(** *** Calls: return, panic, or block *)

Inductive Result (A : Type) : Type :=
| Returned (a : A) (w : World)
| Panicked (w : World)           (* a run-time panic; [w] is the world it leaves *)
| Blocked (w : World).           (* the goroutine waits for ever *)
Arguments Returned {A} a w.
Arguments Panicked {A} w.
Arguments Blocked {A} w.

Definition M (A : Type) : Type := World -> Result A.

Definition ret {A : Type} (a : A) : M A := fun w => Returned a w.

Definition bind {A B : Type} (m : M A) (k : A -> M B) : M B :=
  fun w =>
    match m w with
    | Returned a w' => k a w'
    | Panicked w' => Panicked w'
    | Blocked w' => Blocked w'
    end.

Definition panic {A : Type} : M A := fun w => Panicked w.

Definition get : M ResponseStream := fun w => Returned (stream w) w.

Definition update (f : ResponseStream -> ResponseStream) : M unit :=
  fun w => Returned tt (with_stream w (f (stream w))).

Definition world_of {A : Type} (r : Result A) : World :=
  match r with
  | Returned _ w | Panicked w | Blocked w => w
  end.

Notation "x <- m ;; k" := (bind m (fun x => k))
  (at level 100, m at next level, right associativity).
Notation "m ;; k" := (bind m (fun _ => k))
  (at level 100, right associativity).

(** [s.output <- frame]: a send on a [nil] channel blocks for ever. *)
Definition send (f : frames.Frame) : M unit :=
  fun w =>
    match output (stream w) with
    | Some _ => Returned tt (mkWorld (stream w) (sent w ++ [f]) (stopped w))
    | None => Blocked w
    end.

(** A method call on [s.flow]: a [nil] controller panics; otherwise the
    controller is replaced by the one after the call and its frames go
    to the output channel (the controller keeps its own reference to
    it). *)
Definition flow_call {A : Type}
    (method : flowControl -> flowControl * list frames.Frame * A) : M A :=
  fun w =>
    match flow (stream w) with
    | None => Panicked w
    | Some f =>
        let '(f', fs, a) := method f in
        Returned a (mkWorld (set_flow (Some f') (stream w)) (sent w ++ fs) (stopped w))
    end.

(** The loop that moves the pending headers into an outbound frame:
<<
    for name, values := range s.header {
      for _, value := range values { frame.Header.Add(name, value) }
      s.header.Del(name)
    }
>>
    [copy_header] is the frame's header map after the loop,
    [clear_header] is [s.header] after it. *)
Definition copy_header (h : http.Header) : http.Header :=
  map_fold AddAll ∅ h.
Definition clear_header (h : http.Header) : http.Header :=
  map_fold (fun name _ acc => http.Header_Del name acc) h h.

(** [code == 204 || code == 304 || code/100 == 1]; Go's integer
    division truncates towards zero. *)
Definition no_body (code : Z) : bool :=
  (code =? 204) || (code =? 304) || (Z.quot code 100 =? 1).

(** [func (s *ResponseStream) WriteHeader(code int)] *)
Definition WriteHeader (code : Z) : M unit :=
  s <- get ;;
  if unidirectional s then ret tt
  else if wroteHeader s then ret tt
  else
    update (set_wroteHeader true) ;;
    update (set_responseCode code) ;;
    match header s with
    | None => panic                       (* assignment to entry in nil map *)
    | Some h =>
        let h := http.Header_Set ":status" (Itoa code) h in
        let h := http.Header_Set ":version" "HTTP/1.1" h in
        (* Clear the headers that have been sent. *)
        update (set_header (Some (clear_header h))) ;;
        (* These responses have no body, so close the stream now. *)
        (if no_body code
         then update (fun s => set_state (CloseHere (state s)) s)
         else ret tt) ;;
        send (frames.SYN_REPLY (if no_body code then FLAG_FIN else FLAG_NONE)
                               (streamID s) (copy_header h))
    end.

(** [func (s *ResponseStream) writeHeader()] *)
Definition writeHeader : M unit :=
  s <- get ;;
  match header s with
  | None => ret tt                        (* len(nil) == 0 *)
  | Some h =>
      if (size h =? 0)%nat || unidirectional s then ret tt
      else
        update (set_header (Some (clear_header h))) ;;
        send (frames.HEADERS FLAG_NONE (streamID s) (copy_header h))
  end.

(** [func (s *ResponseStream) closed() bool]; a receive from a [nil]
    stop channel is never ready, so the [default] case is taken. *)
Definition closed (w : World) : bool :=
  match conn (stream w), handler (stream w) with
  | Some _, Some _ =>
      match stop (stream w) with
      | Some _ => stopped w
      | None => false
      end
  | _, _ => true
  end.

(** The chunking loop of [Write] and the final [s.flow.Write(data)];
    [fuel] bounds the number of iterations and is [length data] at the
    call. *)
Fixpoint Write_loop (fuel : nat) (data : list byte) (written : Z)
    : M (Z * option error) :=
  match fuel with
  | S fuel' =>
      if len data >? MAX_DATA_SIZE then
        r <- flow_call (fun f => flow_Write f (take (Z.to_nat MAX_DATA_SIZE) data)) ;;
        match snd r with
        | Some err => ret (written, Some err)
        | None => Write_loop fuel' (drop (Z.to_nat MAX_DATA_SIZE) data) (written + fst r)
        end
      else
        r <- flow_call (fun f => flow_Write f data) ;;
        ret (written + fst r, snd r)
  | O =>
      r <- flow_call (fun f => flow_Write f data) ;;
      ret (written + fst r, snd r)
  end.

(** [func (s *ResponseStream) Write(inputData []byte) (int, error)] *)
Definition Write (inputData : list byte) : M (Z * option error) :=
  s <- get ;;
  if unidirectional s then
    ret (0, Some (errorString "Error: Stream is unidirectional."))
  else fun w =>
    if closed w || ClosedHere (state s) then
      ret (0, Some (errorString "Error: Stream already closed.")) w
    else
      (* Copy the data locally to avoid any pointer issues. *)
      let data := inputData in
      ((* Default to 200 response. *)
       (if negb (wroteHeader s) then WriteHeader http.StatusOK else ret tt) ;;
       (* Send any new headers. *)
       writeHeader ;;
       Write_loop (length data) data 0) w.

(** [func (s *ResponseStream) shutdown()] *)
Definition shutdown : M unit :=
  writeHeader ;;
  update (fun s => set_state (common.Close (state s)) s) ;;
  update (fun s => set_flow (option_map flow_Close (flow s)) s) ;;
  update (set_requestBody None) ;;
  update (set_output None) ;;
  update (set_request None) ;;
  update (set_handler None) ;;
  update (set_header None) ;;
  update (set_stop None).

(** [s.shutdownOnce.Do(f)]: [f] runs if the [Once] has not fired; the
    [Once] is marked when [f] returns or panics. *)
Definition shutdownOnce_Do (f : M unit) : M unit :=
  fun w =>
    if shutdownOnce (stream w) then Returned tt w
    else
      match f w with
      | Returned _ w' => Returned tt (with_stream w' (set_shutdownOnce true (stream w')))
      | Panicked w' => Panicked (with_stream w' (set_shutdownOnce true (stream w')))
      | Blocked w' => Blocked w'
      end.

(** [func (s *ResponseStream) Close() error] *)
Definition Close : M (option error) :=
  shutdownOnce_Do shutdown ;;
  ret None.

(** [select { case <-s.ready: default: close(s.ready) }] *)
Definition close_ready : M unit := update (set_ready true).

(** [common.UpdateHeader(s.header, frame.Header)]; adding to a [nil]
    map panics, which happens when the frame carries a value. *)
Definition merge_header (newer : http.Header) : M unit :=
  s <- get ;;
  match header s with
  | Some h => update (set_header (Some (UpdateHeader h newer)))
  | None =>
      if bool_decide (map_Forall (fun _ values => values = []) newer)
      then ret tt else panic
  end.

Definition remote_fin (flags : Flags) : M unit :=
  if FIN flags then
    close_ready ;;
    update (fun s => set_state (CloseThere (state s)) s)
  else ret tt.

(** [func (s *ResponseStream) ReceiveFrame(frame common.Frame) error] *)
Definition ReceiveFrame (frame : option frames.Frame) : M (option error) :=
  match frame with
  | None => ret (Some (errorString "Error: Nil frame received."))
  (* Process the frame depending on its type. *)
  | Some (frames.DATA _ flags data) =>
      s <- get ;;
      match requestBody s with
      | None => panic                     (* Write on a nil *bytes.Buffer *)
      | Some body =>
          update (set_requestBody (Some (body ++ data))) ;;
          flow_call (fun f => (flow_Receive f data, tt)) ;;
          remote_fin flags ;;
          ret None
      end
  | Some (frames.SYN_REPLY flags _ hdr) =>
      merge_header hdr ;;
      remote_fin flags ;;
      ret None
  | Some (frames.HEADERS _ _ hdr) =>
      merge_header hdr ;;
      ret None
  | Some (frames.WINDOW_UPDATE _ delta) =>
      s <- get ;;
      match flow s with
      | None => panic
      | Some f =>
          match flow_UpdateWindow f delta with
          | inl err =>
              send (frames.RST_STREAM (streamID s) RST_STREAM_FLOW_CONTROL_ERROR) ;;
              ret (Some err)
          | inr ffs =>
              flow_call (fun _ => (ffs, tt)) ;;
              ret None
          end
      end
  | Some (frames.RST_STREAM _ _) => ret (Some (UnknownFrameError "*frames.RST_STREAM"))
  | Some (frames.OtherFrame name) => ret (Some (UnknownFrameError name))
  end.

(** What a handler does with the [http.ResponseWriter] it is given:
    the calls it makes on the stream, in order. *)
Inductive Call : Type :=
| CallWrite (data : list byte)
| CallWriteHeader (code : Z)
| CallHeaderSet (name value : string)     (* s.Header().Set(name, value) *)
| CallHeaderAdd (name value : string)     (* s.Header().Add(name, value) *)
| CallHeaderDel (name : string)           (* s.Header().Del(name) *)
| CallClose.

(** [s.Header()] followed by a write to the map: panics on a [nil] map. *)
Definition header_write (f : http.Header -> http.Header) : M unit :=
  s <- get ;;
  match header s with
  | Some h => update (set_header (Some (f h)))
  | None => panic
  end.

Definition call (c : Call) : M unit :=
  match c with
  | CallWrite data => Write data ;; ret tt
  | CallWriteHeader code => WriteHeader code
  | CallHeaderSet name value => header_write (http.Header_Set name value)
  | CallHeaderAdd name value => header_write (http.Header_Add name value)
  | CallHeaderDel name =>
      s <- get ;;
      match header s with
      | Some h => update (set_header (Some (http.Header_Del name h)))
      | None => ret tt                    (* delete on a nil map is a no-op *)
      end
  | CallClose => Close ;; ret tt
  end.

(** [s.handler.ServeHTTP(s, s.request)] for a handler that makes the
    calls of [script]. *)
Fixpoint ServeHTTP (script : list Call) : M unit :=
  match script with
  | [] => ret tt
  | c :: script' => call c ;; ServeHTTP script'
  end.

(** [Run], up to the handler: "Make sure Request is prepared", then
    [<-s.ready]. *)
Definition Run_prepare : M unit :=
  s <- get ;;
  match requestBody s with
  | None =>
      update (set_requestBody (Some [])) ;;
      match request s with
      | None => panic
      | Some _ => update (set_request (Some (http.mkRequest (Some http.ReadCloser_requestBody))))
      end
  | Some _ =>
      match request s with
      | None => panic
      | Some r =>
          match http.Body r with
          | Some _ => ret tt
          | None =>
              update (set_requestBody (Some [])) ;;
              update (set_request (Some (http.mkRequest (Some http.ReadCloser_requestBody))))
          end
      end
  end.

Definition wait_ready : M unit :=
  fun w => if ready (stream w) then Returned tt w else Blocked w.

(** [Run], after the handler has returned: "Make sure any queued data
    has been sent". *)
Definition Run_flush : M unit :=
  s <- get ;;
  p <- flow_call (fun f => (f, [], flow_Paused f)) ;;
  (if p && OpenThere (state s)
   then flow_call (fun f => (flow_Flush f, tt))
   else ret tt) ;;
  _ <- flow_call (fun f => (f, [], flow_Paused f)) ;;
  ret tt.

(** [Run]: "Close the stream with a SYN_REPLY if none has been sent, or
    an empty DATA frame, if a SYN_REPLY has been sent already.  If the
    stream is already closed at this end, then nothing happens." *)
Definition Run_trailer : M unit :=
  s <- get ;;
  if negb (unidirectional s) then
    if OpenHere (state s) && negb (wroteHeader s) then
      match header s with
      | None => panic
      | Some h =>
          let h := http.Header_Set ":status" "200" h in
          let h := http.Header_Set ":version" "HTTP/1.1" h in
          update (set_header (Some (clear_header h))) ;;
          send (frames.SYN_REPLY FLAG_FIN (streamID s) (copy_header h))
      end
    else if OpenHere (state s) then
      send (frames.DATA (streamID s) FLAG_FIN [])
    else ret tt
  else ret tt.

(** [Run] from the return of the handler to its end; the last step is
    "Clean up state": [s.state.CloseHere()]. *)
Definition Run_finish : M unit :=
  Run_flush ;;
  Run_trailer ;;
  update (fun s => set_state (CloseHere (state s)) s).

(** The handler invocation of [Run]: [serve] gives, for each handler,
    the calls it makes; a [nil] handler panics. *)
Definition Run_handler (serve : http.Handler -> list Call) : M unit :=
  s <- get ;;
  match handler s with
  | None => panic
  | Some h => ServeHTTP (serve h)
  end.

(** [Run] up to the return of [s.handler.ServeHTTP]. *)
Definition Run_serve (serve : http.Handler -> list Call) : M unit :=
  Run_prepare ;;
  wait_ready ;;
  Run_handler serve.

(** [func (s *ResponseStream) Run() error]; the deferred function
    recovers a panic, after which [Run] returns [nil]. *)
Definition Run (serve : http.Handler -> list Call) : M (option error) :=
  fun w =>
    match (Run_serve serve ;; Run_finish) w with
    | Returned _ w' => Returned None w'
    | Panicked w' => Returned None w'
    | Blocked w' => Blocked w'
    end.

(** [func NewResponseStream(conn, frame, output, handler, request)].
    [conn] and [request] are dereferenced by the constructor and so are
    not [nil]; a new [common.StreamState] is [OPEN]. *)
Definition NewResponseStream (conn : Conn) (frame : frames.SynStreamFrame)
    (output : option OutputChan) (handler : option http.Handler)
    (request : http.Request) : ResponseStream :=
  {| shutdownOnce := false;
     conn := Some conn;
     streamID := frames.StreamID frame;
     flow := None;
     requestBody := Some [];
     state := if FIN (frames.Flags frame) then CloseThere OPEN else OPEN;
     output := output;
     request := Some (http.mkRequest (Some http.ReadCloser_requestBody));
     handler := match handler with
                | None => Some http.DefaultServeMux
                | Some h => Some h
                end;
     header := Some ∅;
     priority := frames.Priority frame;
     unidirectional := UNIDIRECTIONAL (frames.Flags frame);
     responseCode := 0;
     stop := conn_stop_field conn;
     ready := FIN (frames.Flags frame);
     wroteHeader := false |}.

(** Modelled from the spec: the flow controller the connection attaches
    to a new stream (the code that does so is not in the source file):
    send and receive windows at the "initial value negotiated at
    connection SETTINGS", nothing pending. *)
Definition newFlowControl (id : StreamID) (initial : Z) : flowControl :=
  mkFlow id initial initial initial false [] false.

(** The world of a stream that the connection has just created for the
    SYN_STREAM [frame]. *)
Definition new_world (conn : Conn) (frame : frames.SynStreamFrame)
    (output : option OutputChan) (handler : option http.Handler)
    (request : http.Request) (initial : Z) (stopped : bool) : World :=
  mkWorld
    (set_flow (Some (newFlowControl (frames.StreamID frame) initial))
              (NewResponseStream conn frame output handler request))
    [] stopped.

(** *** Lifetimes *)

(** What happens to a stream over its lifetime: calls of its handler on
    the response writer, frames delivered by the connection through
    [ReceiveFrame], and the part of [Run] that follows the return of the
    handler.  The frames arrive on another goroutine and so may come
    between any two of the other steps. *)
Inductive Op : Type :=
| OpCall (c : Call)
| OpReceive (frame : option frames.Frame)
| OpFinish.

Definition op (o : Op) : M unit :=
  match o with
  | OpCall c => call c
  | OpReceive frame => ReceiveFrame frame ;; ret tt
  | OpFinish => Run_finish
  end.

Fixpoint run (tr : list Op) : M unit :=
  match tr with
  | [] => ret tt
  | o :: tr' => op o ;; run tr'
  end.

Definition is_close (c : Call) : bool :=
  match c with CallClose => true | _ => false end.

Definition is_receive (o : Op) : bool :=
  match o with OpReceive _ => true | _ => false end.

(** A lifetime in which the handler obeys the contract of
    [http.ResponseWriter] (no call after [ServeHTTP] has returned) and
    [Run] finishes at most once; [Close] is not called.  [finished]
    tells whether [Run] has already finished. *)
Fixpoint lifetime (finished : bool) (tr : list Op) : bool :=
  match tr with
  | [] => true
  | OpCall c :: tr' => negb finished && negb (is_close c) && lifetime finished tr'
  | OpReceive _ :: tr' => lifetime finished tr'
  | OpFinish :: tr' => negb finished && lifetime true tr'
  end.

Definition has_finish (tr : list Op) : bool :=
  existsb (fun o => match o with OpFinish => true | _ => false end) tr.

(** The number of frames of [fs] that carry FIN. *)
Definition count_fin (fs : list frames.Frame) : nat :=
  length (filter (fun f => FIN (frames.frame_flags f) = true) fs).

(** Every frame of [fs] that carries FIN is the last one of [fs]. *)
Definition fin_is_last (fs : list frames.Frame) : Prop :=
  forall (i : nat) (f : frames.Frame),
    fs !! i = Some f -> FIN (frames.frame_flags f) = true -> S i = length fs.


End spdy3.

(** ** The SYN_STREAM codec on the wire *)

Module wire.
Import common frames.

(** The fields of a SYN_STREAM frame as they lie in the octets [input]:
    "length field (24-bit) at 5-7; stream-ID at 8-11;
    associated-stream-ID at 12-15". *)
Definition length_field (input : list byte) : Z :=
  BytesToUint24 (take 3 (drop 5 input)).
Definition stream_id_field (input : list byte) : Z :=
  BytesToUint32 (take 4 (drop 8 input)).
Definition assoc_id_field (input : list byte) : Z :=
  BytesToUint32 (take 4 (drop 12 input)).

(** The conditions under which the specification says [ReadFrom]
    rejects its input. *)
Definition rejected (input : list byte) : Prop :=
  length_field input < 10
  \/ length_field input > MAX_FRAME_SIZE - 18
  \/ stream_id_field input = 0
  \/ Z.testbit (stream_id_field input) 31 = true
  \/ Z.testbit (assoc_id_field input) 31 = true.

(** An input that holds a whole control frame of type SYN_STREAM: the
    18-octet prefix with the control bit, version 3, type 1 and no flag
    other than FIN and UNIDIRECTIONAL, followed by the octets of the
    header block that the length field announces. *)
Definition FLAGS_ALLOWED : byte :=
  byte_of_Z (Z.lor (byte_to_Z FLAG_FIN) (byte_to_Z FLAG_UNIDIRECTIONAL)).

Definition well_formed (input : list byte) : Prop :=
  18 <= len input
  /\ controlFrameCommonProcessing (take 5 input) SYN_STREAM_type FLAGS_ALLOWED = None
  /\ length_field input - 10 <= len input - 18.

(** The two groups of conditions: those on the length field, which
    [ReadFrom] checks before it reads the header block, and those on the
    identifiers, which it checks last. *)
Definition length_rejected (input : list byte) : Prop :=
  length_field input < 10 \/ length_field input > MAX_FRAME_SIZE - 18.

Definition id_rejected (input : list byte) : Prop :=
  stream_id_field input = 0
  \/ Z.testbit (stream_id_field input) 31 = true
  \/ Z.testbit (assoc_id_field input) 31 = true.

(** The frame that the octets [input] hold, stored in the receiver [G]:
    flags, identifiers, priority, slot and the raw header block; the
    decompressed header map of [G] stays. *)
Definition stored (G : SynStreamFrame) (input : list byte) : SynStreamFrame :=
  mkSynStreamFrame (nth 4 input x00) (stream_id_field input) (assoc_id_field input)
    (byte_of_Z (Z.shiftr (byte_to_Z (nth 16 input x00)) 5)) (nth 17 input x00)
    (Header G)
    (Some (take (Z.to_nat (length_field input - 10)) (drop 18 input))).

(** [ReadFrom] returns an error and yields no frame: the receiver [G]
    is as it was. *)
Definition rejects_without_frame (G : SynStreamFrame) (input : list byte) : Prop :=
  rd_err (ReadFrom G input) <> None /\ rd_frame (ReadFrom G input) = G.

(** The frame that [ReadFrom] decodes from the octets [WriteTo] produces
    for [F] agrees with [F]. *)
Definition same_fields (F G : SynStreamFrame) : Prop :=
  Flags G = Flags F
  /\ StreamID G = StreamID F
  /\ AssocStreamID G = AssocStreamID F
  /\ Priority G = Priority F
  /\ Slot G = Slot F
  /\ rawHeader G = rawHeader F.

(** The octets [WriteTo] produces for a frame it accepts, whose
    compressed header block is [hdr]. *)
Definition encoding (F : SynStreamFrame) (hdr : list byte) : list byte :=
  [ x80; x03; x00; x01; Flags F;
    byte_of_Z (Z.shiftr (10 + len hdr) 16);
    byte_of_Z (Z.shiftr (10 + len hdr) 8);
    byte_of_Z (10 + len hdr);
    B1 (StreamID F); B2 (StreamID F); B3 (StreamID F); B4 (StreamID F);
    B1 (AssocStreamID F); B2 (AssocStreamID F);
    B3 (AssocStreamID F); B4 (AssocStreamID F);
    Priority_Byte3 (Priority F); Slot F ] ++ hdr.

Definition round_trips (F : SynStreamFrame) : Prop :=
  exists (octets : list byte) (n : Z),
    WriteTo F [] = (octets, n, None)
    /\ forall G : SynStreamFrame,
         rd_err (ReadFrom G octets) = None
         /\ same_fields F (rd_frame (ReadFrom G octets)).

(** Sample frames: a small one, and one whose header block has
    [2^24 - 10] octets. *)
Definition small_frame : SynStreamFrame :=
  mkSynStreamFrame x01 1 0 x03 x00 None (Some [x78; x9c]).

(** Eighteen octets of a SYN_STREAM frame whose stream ID is zero. *)
Definition zero_id_octets : list byte :=
  [x80; x03; x00; x01; x00; x00; x00; x0a; x00; x00; x00; x00;
   x00; x00; x00; x00; x00; x00].

Definition big_block : list byte := replicate (Z.to_nat (2 ^ 24 - 10)) x00.

Definition oversized_frame : SynStreamFrame :=
  mkSynStreamFrame x00 1 0 x00 x00 None (Some big_block).

End wire.

(** ** What the specification says of the stream *)

Module spec.
Import common spdy3.

(** The frames [Run] submits between the return of the handler and the
    trailing frame: what [flowControl.Flush] sends, if it is called. *)
Definition flushed (s : ResponseStream) (f : flowControl) : list frames.Frame :=
  if paused f && OpenThere (state s)
  then data_frames (fc_streamID f) (pending f)
  else [].

(** The table of trailing frames: [w1] is the world when the handler
    returns, with flow controller [f]; [w'] the world when [Run]
    returns. *)
Definition trailing_frame_rule (w1 : World) (f : flowControl) (w' : World)
    : Prop :=
  let s := stream w1 in
  state (stream w') = CloseHere (state s)
  /\ (unidirectional s = true -> sent w' = sent w1 ++ flushed s f)
  /\ (unidirectional s = false -> OpenHere (state s) = true ->
      wroteHeader s = false ->
      exists hdr : http.Header,
        sent w' = sent w1 ++ flushed s f
                    ++ [frames.SYN_REPLY FLAG_FIN (streamID s) hdr]
        /\ FIN FLAG_FIN = true
        /\ hdr !! ":status" = Some ["200"]
        /\ hdr !! ":version" = Some ["HTTP/1.1"]
        /\ forall (h : http.Header) name v vs,
             header s = Some h ->
             name <> ":status" -> name <> ":version" ->
             h !! name = Some (v :: vs) -> hdr !! name = Some (v :: vs))
  /\ (unidirectional s = false -> OpenHere (state s) = true ->
      wroteHeader s = true ->
      sent w' = sent w1 ++ flushed s f
                  ++ [frames.DATA (streamID s) FLAG_FIN []]
      /\ FIN FLAG_FIN = true)
  /\ (unidirectional s = false -> OpenHere (state s) = false ->
      sent w' = sent w1 ++ flushed s f).

(** The world [shutdown] leaves: pending headers flushed in a HEADERS
    frame, state closed, flow controller closed, and the request body,
    output, request, handler, header map and stop channel dropped. *)
Definition after_shutdown (w : World) : World :=
  let s := stream w in
  mkWorld
    (mkResponseStream (shutdownOnce s) (conn s) (streamID s)
       (option_map flow_Close (flow s)) None CLOSED None None None None
       (priority s) (unidirectional s) (responseCode s) None (ready s)
       (wroteHeader s))
    (sent w ++ match header s with
               | Some h =>
                   if (size h =? 0)%nat || unidirectional s then []
                   else [frames.HEADERS FLAG_NONE (streamID s) (copy_header h)]
               | None => []
               end)
    (stopped w).

(** Sample worlds: a stream created for a SYN_STREAM with FIN and
    stream ID 1, with the given send window. *)
Definition sample_frame : frames.SynStreamFrame :=
  frames.mkSynStreamFrame FLAG_FIN 1 0 x00 x00 None (Some []).

Definition sample_world (window : Z) : World :=
  new_world (mkConn (Some conn_stop)) sample_frame (Some conn_output) None
            (http.mkRequest None) window false.

(** The same for a unidirectional stream. *)
Definition sample_push_world : World :=
  new_world (mkConn (Some conn_stop))
            (frames.mkSynStreamFrame x03 2 1 x00 x00 None (Some []))
            (Some conn_output) None (http.mkRequest None) 65536 false.

(** A sequence of frames that is empty or begins with a SYN_REPLY. *)
Definition is_SYN_REPLY (f : frames.Frame) : bool :=
  match f with frames.SYN_REPLY _ _ _ => true | _ => false end.

Definition reply_first (fs : list frames.Frame) : Prop :=
  match fs with
  | [] => True
  | f :: _ => is_SYN_REPLY f = true
  end.

(** Each DATA frame of [fs] comes after a SYN_REPLY at the head of [fs]. *)
Definition reply_precedes_data (fs : list frames.Frame) : Prop :=
  forall (i : nat) id flags data,
    fs !! i = Some (frames.DATA id flags data) ->
    (0 < i)%nat /\ exists f, fs !! 0%nat = Some f /\ is_SYN_REPLY f = true.

(** Calls of [Write], [WriteHeader] and on the header map only. *)
Definition no_Close (script : list Call) : bool :=
  forallb (fun c => negb (is_close c)) script.

(** [m] appends frames to the output, all of which satisfy [P], and
    does nothing else to it. *)
Definition emits {A : Type} (P : frames.Frame -> Prop) (m : M A) : Prop :=
  forall w : World,
    exists fs, sent (world_of (m w)) = sent w ++ fs /\ Forall P fs.

Definition no_FIN (f : frames.Frame) : Prop := FIN (frames.frame_flags f) = false.

(** [w'] comes from [w] by a step that sends no FIN, leaves the local
    half of the state and the output channel alone and drops nothing. *)
Record steady (w w' : World) : Prop := mkSteady {
  st_output : output (stream w') = output (stream w);
  st_uni : unidirectional (stream w') = unidirectional (stream w);
  st_here : ClosedHere (state (stream w')) = ClosedHere (state (stream w));
  st_body : is_Some (requestBody (stream w)) -> is_Some (requestBody (stream w'));
  st_header : is_Some (header (stream w)) -> is_Some (header (stream w'));
  st_flow : is_Some (flow (stream w)) -> is_Some (flow (stream w'));
  st_sent : exists fs, sent w' = sent w ++ fs /\ Forall no_FIN fs
}.

(** What holds of the FIN flag over the lifetime [tr] of a stream that
    starts in [w0]: every step returns; at most one frame submitted
    carries FIN; exactly one does if [Run] has finished and the stream
    is not unidirectional; and once a frame with FIN has been
    submitted, no call of the handler and no step of [Run] submits a
    frame. *)
Definition lifetime_rule (w0 : World) (tr : list Op) : Prop :=
  exists w : World,
    run tr w0 = Returned tt w
    /\ (count_fin (sent w) <= 1)%nat
    /\ (has_finish tr = true -> unidirectional (stream w0) = false ->
        count_fin (sent w) = 1%nat)
    /\ (forall tr1 o tr2,
          tr = tr1 ++ o :: tr2 -> is_receive o = false ->
          exists w1 w2 : World,
            run tr1 w0 = Returned tt w1
            /\ op o w1 = Returned tt w2
            /\ ((1 <= count_fin (sent w1))%nat -> sent w2 = sent w1)).

(** The facts about a stream that hold throughout a lifetime; [fin]
    tells whether [Run] has finished. *)
Record Inv (fin : bool) (w : World) : Prop := mkInv {
  inv_flow : exists f, flow (stream w) = Some f
               /\ (paused f = true -> fin = false ->
                   wroteHeader (stream w) = true
                   /\ OpenHere (state (stream w)) = true);
  inv_header : exists h, header (stream w) = Some h;
  inv_output : exists ch, output (stream w) = Some ch;
  inv_body : exists b, requestBody (stream w) = Some b;
  inv_count : count_fin (sent w) =
              if ClosedHere (state (stream w)) && negb (unidirectional (stream w))
              then 1%nat else 0%nat;
  inv_serving : fin = false -> ClosedHere (state (stream w)) = true ->
                wroteHeader (stream w) = true /\ unidirectional (stream w) = false;
  inv_finished : fin = true -> ClosedHere (state (stream w)) = true
}.

End spec.


(** ** The rest of the SYN_STREAM frame code *)

Module compression.
Import common.

(** The interfaces [common.Compressor] and [common.Decompressor] are not
    in the source file and are taken as parameters of the methods that
    use them.  A compressor keeps state between calls (the compression
    stream that the frames of a connection share): [S] is the type of
    that state.  A [nil] slice or map is [None]. *)
Definition Compressor (S : Type) : Type :=
  S -> option http.Header -> S * option (list byte) * option error.

Definition Decompressor (S : Type) : Type :=
  S -> option (list byte) -> S * option http.Header * option error.

(** [func (frame *SynStreamFrame) Compress(com common.Compressor) error] *)
Definition Compress {S : Type} (com : Compressor S) (st : S)
    (frame : frames.SynStreamFrame) : S * frames.SynStreamFrame * option error :=
  match frames.rawHeader frame with
  | Some _ => (st, frame, None)
  | None =>
      match com st (frames.Header frame) with
      | (st', _, Some err) => (st', frame, Some err)
      | (st', data, None) =>
          (st',
           frames.mkSynStreamFrame (frames.Flags frame) (frames.StreamID frame)
             (frames.AssocStreamID frame) (frames.Priority frame)
             (frames.Slot frame) (frames.Header frame) data,
           None)
      end
  end.

(** [func (frame *SynStreamFrame) Decompress(decom common.Decompressor) error] *)
Definition Decompress {S : Type} (decom : Decompressor S) (st : S)
    (frame : frames.SynStreamFrame) : S * frames.SynStreamFrame * option error :=
  match frames.Header frame with
  | Some _ => (st, frame, None)
  | None =>
      match decom st (frames.rawHeader frame) with
      | (st', _, Some err) => (st', frame, Some err)
      | (st', header, None) =>
          (st',
           frames.mkSynStreamFrame (frames.Flags frame) (frames.StreamID frame)
             (frames.AssocStreamID frame) (frames.Priority frame)
             (frames.Slot frame) header None,
           None)
      end
  end.

End compression.

(** The SPDY/3.1 form of the frame. *)

Module v3_1.
Import common.

(** [type SynStreamFrameV3_1 struct] *)
Record SynStreamFrameV3_1 : Type := mkSynStreamFrameV3_1 {
  Flags : common.Flags;
  StreamID : common.StreamID;
  AssocStreamID : common.StreamID;
  Priority : common.Priority;
  Header : option http.Header;
  rawHeader : option (list byte)
}.

Record ReadResult : Type := mkReadResult {
  rd_frame : SynStreamFrameV3_1;
  rd_reader : Reader;
  rd_n : Z;
  rd_err : option error
}.

(** [func (frame *SynStreamFrameV3_1) ReadFrom(reader io.Reader) (int64, error)] *)
Definition ReadFrom (frame : SynStreamFrameV3_1) (reader : Reader) : ReadResult :=
  match ReadExactly reader 18 with
  | inl err => mkReadResult frame reader 0 (Some err)
  | inr (data, reader1) =>
    match frames.controlFrameCommonProcessing (take 5 data) frames.SYN_STREAM_type
            (byte_of_Z (Z.lor (byte_to_Z FLAG_FIN) (byte_to_Z FLAG_UNIDIRECTIONAL))) with
    | Some err => mkReadResult frame reader1 18 (Some err)
    | None =>
      (* Get and check length. *)
      let length := BytesToUint24 (take 3 (drop 5 data)) in
      if length <? 10 then
        mkReadResult frame reader1 18 (Some (IncorrectDataLength length 10))
      else if length >? MAX_FRAME_SIZE - 18 then
        mkReadResult frame reader1 18 (Some FrameTooLarge)
      else
        (* Read in data. *)
        match ReadExactly reader1 (length - 10) with
        | inl err => mkReadResult frame reader1 18 (Some err)
        | inr (header, reader2) =>
          let frame' :=
            {| Flags := nth 4 data x00;
               StreamID := BytesToUint32 (take 4 (drop 8 data));
               AssocStreamID := BytesToUint32 (take 4 (drop 12 data));
               Priority := byte_of_Z (Z.shiftr (byte_to_Z (nth 16 data x00)) 5);
               Header := Header frame;
               rawHeader := Some header |} in
          if negb (Valid (StreamID frame')) then
            mkReadResult frame' reader2 18 (Some StreamIdTooLarge)
          else if Zero (StreamID frame') then
            mkReadResult frame' reader2 18 (Some StreamIdIsZero)
          else if negb (Valid (AssocStreamID frame')) then
            mkReadResult frame' reader2 18 (Some StreamIdTooLarge)
          else
            mkReadResult frame' reader2 (length + 8) None
        end
    end
  end.

(** [func (frame *SynStreamFrameV3_1) WriteTo(writer io.Writer) (int64, error)] *)
Definition WriteTo {W : Type} `{io_Writer W} (frame : SynStreamFrameV3_1)
    (writer : W) : W * Z * option error :=
  match rawHeader frame with
  | None => (writer, 0, Some (errorString "Error: Headers not written."))
  | Some header =>
    if negb (Valid (StreamID frame)) then (writer, 0, Some StreamIdTooLarge)
    else if Zero (StreamID frame) then (writer, 0, Some StreamIdIsZero)
    else if negb (Valid (AssocStreamID frame)) then (writer, 0, Some StreamIdTooLarge)
    else
      let length := 10 + len header in
      let out :=
        [ byte_of_Z 128;                      (* Control bit and Version *)
          byte_of_Z 3;                        (* Version *)
          byte_of_Z 0;                        (* Type *)
          byte_of_Z 1;                        (* Type *)
          Flags frame;                        (* Flags *)
          byte_of_Z (Z.shiftr length 16);     (* Length *)
          byte_of_Z (Z.shiftr length 8);      (* Length *)
          byte_of_Z length;                   (* Length *)
          B1 (StreamID frame);                (* Stream ID *)
          B2 (StreamID frame);
          B3 (StreamID frame);
          B4 (StreamID frame);
          B1 (AssocStreamID frame);           (* Associated Stream ID *)
          B2 (AssocStreamID frame);
          B3 (AssocStreamID frame);
          B4 (AssocStreamID frame);
          Priority_Byte3 (Priority frame);    (* Priority and unused *)
          byte_of_Z 0 ] in                    (* Reserved *)
      match WriteExactly writer out with
      | (writer1, Some err) => (writer1, 0, Some err)
      | (writer1, None) =>
        match WriteExactly writer1 header with
        | (writer2, Some err) => (writer2, 18, Some err)
        | (writer2, None) => (writer2, len header + 18, None)
        end
      end
  end.

(** [func (frame *SynStreamFrameV3_1) Compress(com common.Compressor) error] *)
Definition Compress {S : Type} (com : compression.Compressor S) (st : S)
    (frame : SynStreamFrameV3_1) : S * SynStreamFrameV3_1 * option error :=
  match rawHeader frame with
  | Some _ => (st, frame, None)
  | None =>
      match com st (Header frame) with
      | (st', _, Some err) => (st', frame, Some err)
      | (st', data, None) =>
          (st',
           mkSynStreamFrameV3_1 (Flags frame) (StreamID frame)
             (AssocStreamID frame) (Priority frame) (Header frame) data,
           None)
      end
  end.

(** [func (frame *SynStreamFrameV3_1) Decompress(decom common.Decompressor) error] *)
Definition Decompress {S : Type} (decom : compression.Decompressor S) (st : S)
    (frame : SynStreamFrameV3_1) : S * SynStreamFrameV3_1 * option error :=
  match Header frame with
  | Some _ => (st, frame, None)
  | None =>
      match decom st (rawHeader frame) with
      | (st', _, Some err) => (st', frame, Some err)
      | (st', header, None) =>
          (st',
           mkSynStreamFrameV3_1 (Flags frame) (StreamID frame)
             (AssocStreamID frame) (Priority frame) header None,
           None)
      end
  end.

(** The SPDY/3 frame with the same fields and slot 0. *)
Definition to_v3 (frame : SynStreamFrameV3_1) : frames.SynStreamFrame :=
  frames.mkSynStreamFrame (Flags frame) (StreamID frame) (AssocStreamID frame)
    (Priority frame) x00 (Header frame) (rawHeader frame).

End v3_1.

(** ** Further statements about the codec *)

Module wire2.
Import common frames.

(** The frames that [WriteTo] and [ReadFrom] carry over the wire without
    loss; [hdr] is the compressed header block. *)
Record encodable (F : SynStreamFrame) (hdr : list byte) : Prop := mkEncodable {
  enc_raw : rawHeader F = Some hdr;
  enc_id : uint32 (StreamID F);
  enc_assoc : uint32 (AssocStreamID F);
  enc_valid : Valid (StreamID F) = true;
  enc_nonzero : Zero (StreamID F) = false;
  enc_assoc_valid : Valid (AssocStreamID F) = true;
  enc_flags : Z.land (byte_to_Z (Flags F)) (Z.lnot (byte_to_Z wire.FLAGS_ALLOWED)) = 0;
  enc_priority : byte_to_Z (Priority F) <= 7;
  enc_length : len hdr <= MAX_FRAME_SIZE - 28
}.

(** The checks [WriteTo] makes before it writes anything. *)
Definition writable (F : SynStreamFrame) : Prop :=
  is_Some (rawHeader F) /\ Valid (StreamID F) = true
  /\ Zero (StreamID F) = false /\ Valid (AssocStreamID F) = true.

(** The eighteen octets [WriteTo] writes before the header block. *)
Definition prefix (F : SynStreamFrame) (hdr : list byte) : list byte :=
  take 18 (wire.encoding F hdr).

(** The first [n] octets of [input], with the five low bits of octet 16
    (the bits beside the priority) cleared. *)
Definition canonical (input : list byte) (n : Z) : list byte :=
  take 16 input
  ++ [byte_of_Z (Z.land (byte_to_Z (nth 16 input x00)) 224)]
  ++ take (Z.to_nat n - 17) (drop 17 input).

(** A frame with its slot set to zero. *)
Definition without_slot (F : SynStreamFrame) : SynStreamFrame :=
  mkSynStreamFrame (Flags F) (StreamID F) (AssocStreamID F) (Priority F) x00
                   (Header F) (rawHeader F).

(** Sample compressors, whose state counts the calls: a compressor that
    always yields the same block, a decompressor that always yields the
    empty header map, and two that fail. *)
Definition sample_com : compression.Compressor nat :=
  fun n _ => (S n, Some [x78; x9c], None).
Definition sample_decom : compression.Decompressor nat :=
  fun n _ => (S n, Some ∅, None).
Definition failing_com : compression.Compressor nat :=
  fun n _ => (S n, None, Some ErrUnexpectedEOF).
Definition failing_decom : compression.Decompressor nat :=
  fun n _ => (S n, None, Some ErrUnexpectedEOF).

(** A second small frame. *)
Definition other_frame : SynStreamFrame :=
  mkSynStreamFrame x02 3 1 x07 x05 None (Some [x01; x02; x03]).

End wire2.

(** ** The accessors of the stream *)

Module getters.
Import common spdy3.

(** [func (s *ResponseStream) Header() http.Header] *)
Definition Header (s : ResponseStream) : option http.Header := header s.

(** [func (s *ResponseStream) Conn() common.Conn] *)
Definition Conn (s : ResponseStream) : option spdy3.Conn := conn s.

(** [func (s *ResponseStream) CloseNotify() <-chan bool] *)
Definition CloseNotify (s : ResponseStream) : option StopChan := stop s.

(** [func (s *ResponseStream) State() *common.StreamState] *)
Definition State (s : ResponseStream) : StreamState := state s.

(** [func (s *ResponseStream) StreamID() common.StreamID] *)
Definition StreamID (s : ResponseStream) : common.StreamID := streamID s.

(** [func (s *ResponseStream) Priority() common.Priority] *)
Definition Priority (s : ResponseStream) : common.Priority := priority s.

End getters.

(** ** Further statements about the stream *)

Module spec2.
Import common spdy3 spec.

(** What every step of a stream's life respects, from the world [w]
    before it to the world [w'] after it: the identity of the stream is
    fixed; a half of the stream that is closed stays closed; [ready] stays
    closed, and is closed only when the remote side is; the header is
    written once, with the response code of that time; the flow
    controller stays attached; frames are only added to the output. *)
Record progress (w w' : World) : Prop := mkProgress {
  pr_id : streamID (stream w') = streamID (stream w);
  pr_priority : priority (stream w') = priority (stream w);
  pr_uni : unidirectional (stream w') = unidirectional (stream w);
  pr_conn : conn (stream w') = conn (stream w);
  pr_here : ClosedHere (state (stream w)) = true ->
            ClosedHere (state (stream w')) = true;
  pr_there : ClosedThere (state (stream w)) = true ->
             ClosedThere (state (stream w')) = true;
  pr_ready : ready (stream w) = true -> ready (stream w') = true;
  pr_fin : ready (stream w') = true ->
           ready (stream w) = true \/ ClosedThere (state (stream w')) = true;
  pr_wrote : wroteHeader (stream w) = true ->
             wroteHeader (stream w') = true
             /\ responseCode (stream w') = responseCode (stream w);
  pr_flow : is_Some (flow (stream w)) -> is_Some (flow (stream w'));
  pr_once : shutdownOnce (stream w) = true -> shutdownOnce (stream w') = true;
  pr_sent : exists fs, sent w' = sent w ++ fs;
  pr_stopped : stopped w' = stopped w
}.

(** [m] respects [progress], however it ends. *)
Definition advances {A : Type} (m : M A) : Prop :=
  forall w : World, progress w (world_of (m w)).

(** [m] leaves the field [field] of the stream as it is, however it
    ends. *)
Definition keeps {A B : Type} (field : ResponseStream -> B) (m : M A) : Prop :=
  forall w : World, field (stream (world_of (m w))) = field (stream w).

(** The frames the connection delivers to the stream, in order. *)
Definition deliver (fs : list (option frames.Frame)) : M unit :=
  run (map OpReceive fs).

Definition is_DATA (f : frames.Frame) : bool :=
  match f with frames.DATA _ _ _ => true | _ => false end.

Definition payload (f : frames.Frame) : list byte :=
  match f with frames.DATA _ _ data => data | _ => [] end.

Definition carries_FIN (f : frames.Frame) : bool := FIN (frames.frame_flags f).

(** The last frame of [fs] carries FIN. *)
Definition ends_with_FIN (fs : list frames.Frame) : Prop :=
  exists front f, fs = front ++ [f] /\ FIN (frames.frame_flags f) = true.

(** The handler a new stream is given. *)
Definition handler_of (hd : option http.Handler) : http.Handler :=
  match hd with
  | None => http.DefaultServeMux
  | Some h => h
  end.

(** A stream on which [shutdown] has run. *)
Record shut (w : World) : Prop := mkShut {
  shut_once : shutdownOnce (stream w) = true;
  shut_handler : handler (stream w) = None;
  shut_header : header (stream w) = None;
  shut_state : state (stream w) = CLOSED;
  shut_flow : is_Some (flow (stream w))
}.

(** A SYN_STREAM frame without FIN: the request has a body. *)
Definition small_syn : frames.SynStreamFrame :=
  frames.mkSynStreamFrame FLAG_NONE 1 0 x00 x00 None (Some []).



End spec2.

(** * Properties *)

(** ** Octets and big-endian fields *)

Lemma byte_to_Z_range (b : byte) : 0 <= byte_to_Z b < 256.
Proof.
  unfold byte_to_Z. pose proof (Byte.to_N_bounded b). lia.
Qed.

Lemma byte_to_of_Z (z : Z) : byte_to_Z (byte_of_Z z) = z mod 256.
Proof.
  unfold byte_to_Z, byte_of_Z.
  assert (Hr : 0 <= z mod 256 < 256) by (apply Z.mod_pos_bound; lia).
  destruct (Byte.of_N (Z.to_N (z mod 256))) as [b|] eqn:E.
  - apply Byte.to_of_N in E. rewrite E. lia.
  - apply Byte.of_N_None_iff in E. lia.
Qed.

Lemma byte_of_to_Z (b : byte) : byte_of_Z (byte_to_Z b) = b.
Proof.
  unfold byte_of_Z.
  rewrite Z.mod_small by apply byte_to_Z_range.
  unfold byte_to_Z. rewrite N2Z.id, Byte.of_to_N. reflexivity.
Qed.

Lemma byte_to_Z_inj (a b : byte) : byte_to_Z a = byte_to_Z b -> a = b.
Proof.
  intros H. rewrite <- (byte_of_to_Z a), <- (byte_of_to_Z b). now rewrite H.
Qed.

Lemma uint24_round_trip (n : Z) :
  0 <= n < 2 ^ 24 ->
  common.BytesToUint24
    [byte_of_Z (Z.shiftr n 16); byte_of_Z (Z.shiftr n 8); byte_of_Z n] = n.
Proof.
  intros Hn. unfold common.BytesToUint24.
  rewrite !byte_to_of_Z, !Z.shiftr_div_pow2, !Z.shiftl_mul_pow2 by lia.
  change (2 ^ 16) with 65536. change (2 ^ 8) with 256.
  change (2 ^ 24) with 16777216 in Hn.
  Z.div_mod_to_equations. lia.
Qed.

Lemma uint32_round_trip (n : Z) :
  common.uint32 n ->
  common.BytesToUint32 [common.B1 n; common.B2 n; common.B3 n; common.B4 n] = n.
Proof.
  unfold common.uint32. intros Hn.
  unfold common.BytesToUint32, common.B1, common.B2, common.B3, common.B4.
  rewrite !byte_to_of_Z, !Z.shiftr_div_pow2, !Z.shiftl_mul_pow2 by lia.
  change (2 ^ 24) with 16777216. change (2 ^ 16) with 65536.
  change (2 ^ 8) with 256. change (2 ^ 32) with 4294967296 in Hn.
  Z.div_mod_to_equations. lia.
Qed.

Lemma uint32_range (b0 b1 b2 b3 : byte) :
  common.uint32 (common.BytesToUint32 [b0; b1; b2; b3]).
Proof.
  unfold common.uint32, common.BytesToUint32.
  pose proof (byte_to_Z_range b0). pose proof (byte_to_Z_range b1).
  pose proof (byte_to_Z_range b2). pose proof (byte_to_Z_range b3).
  rewrite !Z.shiftl_mul_pow2 by lia.
  change (2 ^ 24) with 16777216. change (2 ^ 16) with 65536.
  change (2 ^ 8) with 256. change (2 ^ 32) with 4294967296. lia.
Qed.

(** On a [uint32], [Valid] says that the value is below [2^31]. *)
Lemma Valid_iff (n : Z) :
  common.uint32 n -> (common.Valid n = true <-> n < 2 ^ 31).
Proof.
  unfold common.uint32, common.Valid. intros Hn.
  rewrite negb_true_iff, Z.testbit_false by lia.
  change (2 ^ 31) with 2147483648. change (2 ^ 32) with 4294967296 in Hn.
  split; intros H.
  - Z.div_mod_to_equations. lia.
  - Z.div_mod_to_equations. lia.
Qed.

Lemma priority_round_trip (p : byte) :
  byte_to_Z p <= 7 ->
  byte_of_Z (Z.shiftr (byte_to_Z (common.Priority_Byte3 p)) 5) = p.
Proof.
  intros Hp. pose proof (byte_to_Z_range p) as Hr.
  apply byte_to_Z_inj. unfold common.Priority_Byte3.
  rewrite !byte_to_of_Z.
  change 7 with (Z.ones 3). rewrite Z.land_ones by lia.
  rewrite Z.shiftr_div_pow2, Z.shiftl_mul_pow2 by lia.
  change (2 ^ 3) with 8. change (2 ^ 5) with 32.
  Z.div_mod_to_equations. lia.
Qed.

(** An octet decoded as a priority is at most 7. *)
Lemma decoded_priority_le_7 (b : byte) :
  byte_to_Z (byte_of_Z (Z.shiftr (byte_to_Z b) 5)) <= 7.
Proof.
  pose proof (byte_to_Z_range b) as Hr.
  rewrite byte_to_of_Z, Z.shiftr_div_pow2 by lia.
  change (2 ^ 5) with 32. Z.div_mod_to_equations. lia.
Qed.

(** ** SYN_STREAM: [WriteTo] and [ReadFrom] *)

Section SynStream.
Import common frames wire.

Lemma len_app {A : Type} (l k : list A) : len (l ++ k) = len l + len k.
Proof. unfold len. rewrite length_app. lia. Qed.

Lemma len_nonneg {A : Type} (l : list A) : 0 <= len l.
Proof. unfold len. lia. Qed.

Lemma ReadExactly_app (data rest : list byte) (n : Z) :
  n = len data ->
  ReadExactly (data ++ rest) n = inr (data, rest).
Proof.
  intros ->. unfold ReadExactly.
  rewrite len_app. pose proof (len_nonneg rest).
  destruct (Z.ltb_spec (len data + len rest) (len data)); [lia|].
  unfold len. rewrite Nat2Z.id.
  now rewrite take_app_length, drop_app_length.
Qed.

Lemma WriteTo_accepts (F : SynStreamFrame) (hdr : list byte) (w : Writer) :
  rawHeader F = Some hdr ->
  Valid (StreamID F) = true ->
  Zero (StreamID F) = false ->
  Valid (AssocStreamID F) = true ->
  WriteTo F w = (w ++ encoding F hdr, len hdr + 18, None).
Proof.
  intros Hraw Hv Hz Ha. unfold WriteTo, WriteExactly, write_all, buffer_Writer.
  rewrite Hraw, Hv, Hz, Ha. cbn [negb].
  rewrite <- app_assoc. reflexivity.
Qed.

Lemma ReadFrom_encoding (F G : SynStreamFrame) (hdr rest : list byte) :
  uint32 (StreamID F) ->
  uint32 (AssocStreamID F) ->
  Valid (StreamID F) = true ->
  Zero (StreamID F) = false ->
  Valid (AssocStreamID F) = true ->
  Z.land (byte_to_Z (Flags F)) (Z.lnot (byte_to_Z wire.FLAGS_ALLOWED)) = 0 ->
  byte_to_Z (Priority F) <= 7 ->
  10 + len hdr <= MAX_FRAME_SIZE - 18 ->
  ReadFrom G (encoding F hdr ++ rest) =
    mkReadResult
      (mkSynStreamFrame (Flags F) (StreamID F) (AssocStreamID F) (Priority F)
                        (Slot F) (Header G) (Some hdr))
      rest (len hdr + 18) None.
Proof.
  intros Hs Ha Hv Hz Hva Hfl Hp Hlen.
  pose proof (len_nonneg hdr) as Hh.
  unfold MAX_FRAME_SIZE in Hlen.
  unfold ReadFrom, encoding.
  rewrite <- app_assoc.
  rewrite (ReadExactly_app _ (hdr ++ rest) 18) by reflexivity.
  cbn [firstn skipn nth].
  unfold controlFrameCommonProcessing.
  change (byte_to_Z x80 =? 128) with true.
  change (byte_to_Z x03 =? 3) with true.
  change (BytesToUint16 [x00; x01] =? SYN_STREAM_type) with true.
  cbn [negb].
  fold wire.FLAGS_ALLOWED. rewrite Hfl. cbn [Z.eqb negb].
  rewrite uint24_round_trip by (change (2 ^ 24) with 16777216; lia).
  destruct (Z.ltb_spec (10 + len hdr) 10); [lia|].
  unfold MAX_FRAME_SIZE.
  destruct (Z.gtb_spec (10 + len hdr) (2 ^ 24 - 1 - 18)); [lia|].
  rewrite (ReadExactly_app hdr rest) by lia.
  cbn [StreamID AssocStreamID].
  rewrite !uint32_round_trip by assumption.
  rewrite Hv, Hz, Hva. cbn [negb].
  rewrite priority_round_trip by assumption.
  f_equal. lia.
Qed.

Lemma prefix18 (input : list byte) :
  18 <= len input ->
  exists b0 b1 b2 b3 b4 b5 b6 b7 b8 b9 b10 b11 b12 b13 b14 b15 b16 b17 rest,
    input = [b0; b1; b2; b3; b4; b5; b6; b7; b8; b9;
             b10; b11; b12; b13; b14; b15; b16; b17] ++ rest.
Proof.
  unfold len. intros H.
  do 18 (destruct input as [|? input]; [cbn in H; lia|]).
  repeat eexists.
Qed.

Lemma ReadExactly_short (r : Reader) (n : Z) :
  len r < n -> ReadExactly r n = inl ErrUnexpectedEOF.
Proof.
  intros H. unfold ReadExactly.
  destruct (Z.ltb_spec (len r) n); [reflexivity|lia].
Qed.

Lemma ReadExactly_enough (r : Reader) (n : Z) :
  n <= len r ->
  ReadExactly r n = inr (take (Z.to_nat n) r, drop (Z.to_nat n) r).
Proof.
  intros H. unfold ReadExactly.
  destruct (Z.ltb_spec (len r) n); [lia|reflexivity].
Qed.

Lemma ReadFrom_rejects (G : SynStreamFrame) (input : list byte) :
  wire.rejected input -> rd_err (ReadFrom G input) <> None.
Proof.
  intros Hrej. unfold ReadFrom.
  destruct (Z.lt_ge_cases (len input) 18) as [Hshort|Hlong].
  { rewrite ReadExactly_short by assumption. discriminate. }
  destruct (prefix18 input Hlong)
    as (b0&b1&b2&b3&b4&b5&b6&b7&b8&b9&b10&b11&b12&b13&b14&b15&b16&b17&rest&->).
  rewrite (ReadExactly_app _ rest 18) by reflexivity.
  cbn [firstn skipn nth].
  destruct (controlFrameCommonProcessing _ _ _); [discriminate|].
  unfold wire.rejected, wire.length_field, wire.stream_id_field,
    wire.assoc_id_field in Hrej.
  cbn [firstn skipn app] in Hrej.
  set (length := BytesToUint24 [b5; b6; b7]) in *.
  set (sid := BytesToUint32 [b8; b9; b10; b11]) in *.
  set (aid := BytesToUint32 [b12; b13; b14; b15]) in *.
  destruct (Z.ltb_spec length 10); [discriminate|].
  destruct (Z.gtb_spec length (MAX_FRAME_SIZE - 18)); [discriminate|].
  destruct (ReadExactly rest (length - 10)) as [err|[header reader2]];
    [discriminate|].
  cbn [StreamID AssocStreamID]. unfold Valid, Zero.
  destruct (Z.testbit sid 31) eqn:Hs; [discriminate|].
  destruct (Z.eqb_spec sid 0); [discriminate|].
  destruct (Z.testbit aid 31) eqn:Ha; [discriminate|].
  exfalso. destruct Hrej as [?|[?|[?|[?|?]]]]; try lia; congruence.
Qed.

Lemma ReadFrom_accepts (G : SynStreamFrame) (input : list byte) :
  wire.well_formed input ->
  ~ wire.rejected input ->
  rd_err (ReadFrom G input) = None
  /\ rd_n (ReadFrom G input) = wire.length_field input + 8.
Proof.
  intros (Hlong & Hctl & Hhdr) Hok. unfold ReadFrom.
  destruct (prefix18 input Hlong)
    as (b0&b1&b2&b3&b4&b5&b6&b7&b8&b9&b10&b11&b12&b13&b14&b15&b16&b17&rest&->).
  rewrite (ReadExactly_app _ rest 18) by reflexivity.
  rewrite len_app in Hhdr. change (len [b0; b1; b2; b3; b4; b5; b6; b7; b8; b9;
    b10; b11; b12; b13; b14; b15; b16; b17]) with 18 in Hhdr.
  cbn [firstn skipn nth app] in *.
  fold wire.FLAGS_ALLOWED. rewrite Hctl.
  unfold wire.rejected, wire.length_field, wire.stream_id_field,
    wire.assoc_id_field in *.
  cbn [firstn skipn app] in *.
  set (length := BytesToUint24 [b5; b6; b7]) in *.
  set (sid := BytesToUint32 [b8; b9; b10; b11]) in *.
  set (aid := BytesToUint32 [b12; b13; b14; b15]) in *.
  destruct (Z.ltb_spec length 10); [exfalso; apply Hok; lia|].
  destruct (Z.gtb_spec length (MAX_FRAME_SIZE - 18)); [exfalso; apply Hok; lia|].
  rewrite ReadExactly_enough by lia.
  cbn [StreamID AssocStreamID]. unfold Valid, Zero.
  destruct (Z.testbit sid 31) eqn:Hs; [exfalso; apply Hok; auto|].
  destruct (Z.eqb_spec sid 0); [exfalso; apply Hok; auto|].
  destruct (Z.testbit aid 31) eqn:Ha; [exfalso; apply Hok; auto 6|].
  cbn. split; reflexivity.
Qed.

(** A header block of [2^24 - 10] octets makes the 24-bit length field
    wrap around to zero, which [ReadFrom] rejects. *)
Lemma ReadFrom_wrapped_length (F G : SynStreamFrame) (hdr rest : list byte) :
  len hdr = 2 ^ 24 - 10 ->
  rd_err (ReadFrom G (encoding F hdr ++ rest)) <> None.
Proof.
  intros Hlen. unfold ReadFrom, encoding.
  rewrite <- app_assoc.
  rewrite (ReadExactly_app _ (hdr ++ rest) 18) by reflexivity.
  rewrite Hlen. cbn [firstn skipn nth].
  destruct (controlFrameCommonProcessing _ _ _); [discriminate|].
  match goal with
  | |- context [BytesToUint24 ?l] =>
      let v := eval vm_compute in (BytesToUint24 l) in
      change (BytesToUint24 l) with v
  end.
  cbn [Z.ltb Z.compare rd_err]. discriminate.
Qed.

Lemma wrapped_length_no_round_trip (F : SynStreamFrame) (hdr : list byte) :
  rawHeader F = Some hdr ->
  Valid (StreamID F) = true ->
  Zero (StreamID F) = false ->
  Valid (AssocStreamID F) = true ->
  len hdr = 2 ^ 24 - 10 ->
  ~ wire.round_trips F.
Proof.
  intros Hraw Hv Hz Ha Hlen (octets & n & Hw & Hr).
  rewrite (WriteTo_accepts F hdr [] Hraw Hv Hz Ha) in Hw.
  injection Hw as <- _.
  destruct (Hr F) as [Herr _]. revert Herr.
  rewrite <- (app_nil_r (encoding F hdr)).
  now apply ReadFrom_wrapped_length.
Qed.

Lemma len_big_block : len big_block = 2 ^ 24 - 10.
Proof.
  unfold len, big_block. rewrite length_replicate. apply Z2Nat.id.
  change (2 ^ 24) with 16777216. lia.
Qed.


(** C8, as stated, fails: the frame [oversized_frame] has a valid
  non-zero stream ID, a valid associated stream ID and a compressed
  header block (of [2^24 - 10] octets), [WriteTo] writes it without an
  error, and [ReadFrom] rejects the octets written. *)
Lemma C8_round_trip_counterexample :
Valid (StreamID oversized_frame) = true
/\ Zero (StreamID oversized_frame) = false
/\ Valid (AssocStreamID oversized_frame) = true
/\ rawHeader oversized_frame = Some big_block
/\ ~ wire.round_trips oversized_frame.
Proof.
split; [reflexivity|]. split; [reflexivity|]. split; [reflexivity|].
split; [reflexivity|].
exact (wrapped_length_no_round_trip oversized_frame big_block
         eq_refl eq_refl eq_refl eq_refl len_big_block).
Qed.

(** C8 (amended): a SYN_STREAM frame with a valid non-zero stream ID, a
  valid associated stream ID, no flag other than FIN and
  UNIDIRECTIONAL, a priority of at most 7 and a compressed header block
  of at most [MAX_FRAME_SIZE - 28] octets is written by [WriteTo]
  without an error, and [ReadFrom] decodes the octets written, without
  an error, into a frame with the same Flags, StreamID, AssocStreamID,
  Priority, Slot and raw header block. *)
Theorem C8_round_trip (F : SynStreamFrame) (hdr : list byte) :
rawHeader F = Some hdr ->
uint32 (StreamID F) ->
uint32 (AssocStreamID F) ->
Valid (StreamID F) = true ->
Zero (StreamID F) = false ->
Valid (AssocStreamID F) = true ->
Z.land (byte_to_Z (Flags F)) (Z.lnot (byte_to_Z wire.FLAGS_ALLOWED)) = 0 ->
byte_to_Z (Priority F) <= 7 ->
len hdr <= MAX_FRAME_SIZE - 28 ->
wire.round_trips F.
Proof.
intros Hraw Hs Ha Hv Hz Hva Hfl Hp Hlen.
exists (encoding F hdr), (len hdr + 18). split.
- now rewrite (WriteTo_accepts F hdr []).
- intros G. rewrite <- (app_nil_r (encoding F hdr)).
  rewrite ReadFrom_encoding by (assumption || lia).
  cbn [rd_err rd_frame]. unfold wire.same_fields. cbn.
  repeat split; auto.
Qed.

Lemma C8_round_trip_witness : wire.round_trips small_frame.
Proof.
apply (C8_round_trip small_frame [x78; x9c]).
- reflexivity.
- unfold uint32. cbn. lia.
- unfold uint32. cbn. lia.
- reflexivity.
- reflexivity.
- reflexivity.
- reflexivity.
- vm_compute. discriminate.
- vm_compute. discriminate.
Defined.

(** The other two conditions of the amended C8 are needed as well: a flag
  outside FIN and UNIDIRECTIONAL is written but not read back, and a
  priority above 7 is read back as another priority. *)
Example flags_not_read_back :
let F := mkSynStreamFrame x04 1 0 x00 x00 None (Some []) in
exists octets n,
  WriteTo F [] = (octets, n, None)
  /\ rd_err (ReadFrom F octets) = Some (InvalidField "flags" 4 3).
Proof. do 2 eexists. split; reflexivity. Qed.

Example priority_not_read_back :
let F := mkSynStreamFrame x00 1 0 x08 x00 None (Some []) in
exists octets n,
  WriteTo F [] = (octets, n, None)
  /\ rd_err (ReadFrom F octets) = None
  /\ Priority (rd_frame (ReadFrom F octets)) = x00.
Proof. do 2 eexists. split; [|split]; reflexivity. Qed.

(** What [ReadFrom] does with a whole frame whose length field is in
    range: it stores the frame in the receiver and then checks the
    identifiers. *)
Lemma ReadFrom_stores (G : SynStreamFrame) (input : list byte) :
  wire.well_formed input ->
  ~ wire.length_rejected input ->
  let reader2 := drop (Z.to_nat (wire.length_field input + 8)) input in
  ReadFrom G input =
    if negb (Valid (wire.stream_id_field input)) then
      mkReadResult (wire.stored G input) reader2 18 (Some StreamIdTooLarge)
    else if Zero (wire.stream_id_field input) then
      mkReadResult (wire.stored G input) reader2 18 (Some StreamIdIsZero)
    else if negb (Valid (wire.assoc_id_field input)) then
      mkReadResult (wire.stored G input) reader2 18 (Some StreamIdTooLarge)
    else
      mkReadResult (wire.stored G input) reader2 (wire.length_field input + 8) None.
Proof.
  intros (Hlong & Hctl & Hhdr) Hok. cbn zeta. unfold ReadFrom.
  destruct (prefix18 input Hlong)
    as (b0&b1&b2&b3&b4&b5&b6&b7&b8&b9&b10&b11&b12&b13&b14&b15&b16&b17&rest&->).
  rewrite (ReadExactly_app _ rest 18) by reflexivity.
  rewrite len_app in Hhdr. change (len [b0; b1; b2; b3; b4; b5; b6; b7; b8; b9;
    b10; b11; b12; b13; b14; b15; b16; b17]) with 18 in Hhdr.
  cbn [firstn skipn nth app] in *.
  fold wire.FLAGS_ALLOWED. rewrite Hctl.
  unfold wire.stored, wire.length_rejected, wire.length_field,
    wire.stream_id_field, wire.assoc_id_field in *.
  cbn [firstn skipn nth app] in *.
  set (length := BytesToUint24 [b5; b6; b7]) in *.
  destruct (Z.ltb_spec length 10); [exfalso; apply Hok; lia|].
  destruct (Z.gtb_spec length (MAX_FRAME_SIZE - 18)); [exfalso; apply Hok; lia|].
  rewrite ReadExactly_enough by lia.
  cbn [StreamID AssocStreamID].
  assert (Z.to_nat (length + 8) = (18 + Z.to_nat (length - 10))%nat) as -> by lia.
  cbn [skipn Nat.add]. reflexivity.
Qed.

(** An input that is not a whole frame, or whose length field is out of
    range, is rejected before anything is stored. *)
Lemma ReadFrom_leaves_frame (G : SynStreamFrame) (input : list byte) :
  ~ wire.well_formed input \/ wire.length_rejected input ->
  rd_err (ReadFrom G input) <> None /\ rd_frame (ReadFrom G input) = G.
Proof.
  intros Hbad. unfold ReadFrom.
  destruct (Z.lt_ge_cases (len input) 18) as [Hshort|Hlong].
  { rewrite ReadExactly_short by assumption. split; [discriminate|reflexivity]. }
  destruct (prefix18 input Hlong)
    as (b0&b1&b2&b3&b4&b5&b6&b7&b8&b9&b10&b11&b12&b13&b14&b15&b16&b17&rest&->).
  rewrite (ReadExactly_app _ rest 18) by reflexivity.
  unfold wire.well_formed, wire.length_rejected, wire.length_field in Hbad.
  rewrite len_app in Hbad. change (len [b0; b1; b2; b3; b4; b5; b6; b7; b8; b9;
    b10; b11; b12; b13; b14; b15; b16; b17]) with 18 in Hbad.
  cbn [firstn skipn nth app] in *. fold wire.FLAGS_ALLOWED.
  destruct (controlFrameCommonProcessing _ _ _) eqn:Hctl;
    [split; [discriminate|reflexivity]|].
  set (length := BytesToUint24 [b5; b6; b7]) in *.
  destruct (Z.ltb_spec length 10); [split; [discriminate|reflexivity]|].
  destruct (Z.gtb_spec length (MAX_FRAME_SIZE - 18));
    [split; [discriminate|reflexivity]|].
  destruct (Z.lt_ge_cases (len rest) (length - 10)) as [Hs|Hl].
  { rewrite ReadExactly_short by assumption. split; [discriminate|reflexivity]. }
  exfalso. destruct Hbad as [Hbad|Hbad]; [|lia].
  apply Hbad. split; [pose proof (len_nonneg rest); lia|]. split; [reflexivity|lia].
Qed.

(** C9, as stated, fails: on eighteen octets whose stream ID is zero
    [ReadFrom] does return an error, but a frame has been yielded all the
    same: the fields of the receiver have been overwritten with what
    the octets hold. *)
Lemma C9_ReadFrom_validation_counterexample :
wire.rejected zero_id_octets
/\ rd_err (ReadFrom small_frame zero_id_octets) = Some StreamIdIsZero
/\ rd_frame (ReadFrom small_frame zero_id_octets)
   = mkSynStreamFrame x00 0 0 x00 x00 None (Some [])
/\ ~ wire.rejects_without_frame small_frame zero_id_octets.
Proof.
split; [right; right; left; reflexivity|].
split; [reflexivity|]. split; [reflexivity|].
intros [_ H]. discriminate H.
Qed.

(** C9 (amended): [ReadFrom] returns an error whenever the length field
    is below 10 or above [MAX_FRAME_SIZE - 18], the stream ID is zero or
    has its high bit set, or the associated stream ID has its high bit
    set.  When the length field is out of range, or the input is not a
    whole frame, the receiver is left as it was.  When the input is a
    whole frame with its length in range and an identifier is rejected,
    the error comes with the count 18 after the frame has been stored
    in the receiver.  On every other well-formed input [ReadFrom]
    returns no error and the count [length + 8], with the frame
    stored. *)
Theorem C9_ReadFrom_validation (G : SynStreamFrame) (input : list byte) :
(wire.rejected input -> rd_err (ReadFrom G input) <> None)
/\ (~ wire.well_formed input \/ wire.length_rejected input ->
    wire.rejects_without_frame G input)
/\ (wire.well_formed input -> ~ wire.length_rejected input ->
    wire.id_rejected input ->
    rd_err (ReadFrom G input) <> None
    /\ rd_n (ReadFrom G input) = 18
    /\ rd_frame (ReadFrom G input) = wire.stored G input)
/\ (wire.well_formed input -> ~ wire.rejected input ->
    rd_err (ReadFrom G input) = None
    /\ rd_n (ReadFrom G input) = wire.length_field input + 8
    /\ rd_frame (ReadFrom G input) = wire.stored G input).
Proof.
split; [apply ReadFrom_rejects|]. split; [apply ReadFrom_leaves_frame|]. split.
- intros Hwf Hlen Hid. rewrite (ReadFrom_stores G input Hwf Hlen).
  unfold Valid, Zero.
  destruct (Z.testbit (wire.stream_id_field input) 31) eqn:Hs; cbn [negb];
    [repeat split; discriminate|].
  destruct (Z.eqb_spec (wire.stream_id_field input) 0);
    [repeat split; discriminate|].
  destruct (Z.testbit (wire.assoc_id_field input) 31) eqn:Ha; cbn [negb];
    [repeat split; discriminate|].
  exfalso. destruct Hid as [?|[?|?]]; congruence.
- intros Hwf Hok.
  assert (~ wire.length_rejected input) as Hlen.
  { intros [H|H]; apply Hok; unfold wire.rejected; auto. }
  rewrite (ReadFrom_stores G input Hwf Hlen).
  unfold Valid, Zero.
  destruct (Z.testbit (wire.stream_id_field input) 31) eqn:Hs;
    [exfalso; apply Hok; unfold wire.rejected; auto|].
  destruct (Z.eqb_spec (wire.stream_id_field input) 0);
    [exfalso; apply Hok; unfold wire.rejected; auto|].
  destruct (Z.testbit (wire.assoc_id_field input) 31) eqn:Ha;
    [exfalso; apply Hok; unfold wire.rejected; auto 6|].
  cbn. repeat split.
Qed.

Lemma C9_ReadFrom_validation_witness :
rd_err (ReadFrom small_frame zero_id_octets) <> None
/\ wire.rejects_without_frame small_frame
     [x80; x03; x00; x01; x00; x00; x00; x09; x00; x00; x00; x01;
      x00; x00; x00; x00; x00; x00]
/\ (rd_n (ReadFrom small_frame zero_id_octets) = 18
    /\ rd_frame (ReadFrom small_frame zero_id_octets)
       = wire.stored small_frame zero_id_octets)
/\ (rd_err (ReadFrom small_frame (encoding small_frame [x78; x9c])) = None
    /\ rd_n (ReadFrom small_frame (encoding small_frame [x78; x9c])) = 20
    /\ rd_frame (ReadFrom small_frame (encoding small_frame [x78; x9c]))
       = wire.stored small_frame (encoding small_frame [x78; x9c])).
Proof.
split; [|split; [|split]].
- apply (proj1 (C9_ReadFrom_validation small_frame zero_id_octets)).
  right. right. left. reflexivity.
- apply (proj1 (proj2 (C9_ReadFrom_validation small_frame
           [x80; x03; x00; x01; x00; x00; x00; x09; x00; x00; x00; x01;
            x00; x00; x00; x00; x00; x00]))).
  right. left. vm_compute. reflexivity.
- apply (proj1 (proj2 (proj2 (C9_ReadFrom_validation small_frame zero_id_octets)))).
  + unfold wire.well_formed. repeat split.
    * vm_compute. discriminate.
    * vm_compute. discriminate.
  + intros [H|H]; vm_compute in H; discriminate.
  + left. reflexivity.
- apply (proj2 (proj2 (proj2 (C9_ReadFrom_validation small_frame
                  (encoding small_frame [x78; x9c]))))).
  + unfold wire.well_formed. repeat split.
    * vm_compute. discriminate.
    * vm_compute. discriminate.
  + unfold wire.rejected.
    intros [H|[H|[H|[H|H]]]]; vm_compute in H; discriminate.
Defined.

End SynStream.

(** ** Header maps *)

Section Headers.
Import common spdy3.

Lemma Header_Add_lookup (name value : string) (h : http.Header) (k : string) :
  http.Header_Add name value h !! k =
    if decide (k = name) then Some (default [] (h !! k) ++ [value]) else h !! k.
Proof.
  unfold http.Header_Add. destruct (decide (k = name)) as [->|Hne].
  - now rewrite lookup_insert_eq.
  - now rewrite lookup_insert_ne by congruence.
Qed.

Lemma AddAll_lookup (name : string) (values : list string) (h : http.Header)
    (k : string) :
  AddAll name values h !! k =
    if decide (k = name) then
      match values with
      | [] => h !! k
      | _ => Some (default [] (h !! k) ++ values)
      end
    else h !! k.
Proof.
  unfold AddAll. revert h. induction values as [|v vs IH]; intros h.
  - cbn. now destruct (decide (k = name)).
  - cbn [foldl]. rewrite IH, Header_Add_lookup.
    destruct (decide (k = name)) as [->|Hne]; [|reflexivity].
    destruct (decide (name = name)) as [_|[]]; [|reflexivity].
    destruct vs as [|v' vs]; [reflexivity|].
    cbn [default id]. now rewrite <- app_assoc.
Qed.

(** The frame receives every pending header that has a value. *)
Lemma copy_header_lookup (h : http.Header) (k : string) :
  copy_header h !! k =
    match h !! k with
    | Some (v :: vs) => Some (v :: vs)
    | _ => None
    end.
Proof.
  unfold copy_header. revert k.
  apply (map_fold_weak_ind
           (fun (r m : http.Header) => forall k,
              r !! k = match m !! k with
                       | Some (v :: vs) => Some (v :: vs)
                       | _ => None
                       end)).
  - intros k. now rewrite !lookup_empty.
  - intros name values m r Hfresh IH k.
    rewrite AddAll_lookup, IH.
    destruct (decide (k = name)) as [->|Hne].
    + rewrite lookup_insert_eq, Hfresh.
      destruct values; reflexivity.
    + now rewrite lookup_insert_ne by congruence.
Qed.

(** Nothing stays pending. *)
Lemma clear_header_empty (h : http.Header) : clear_header h = ∅.
Proof.
  unfold clear_header.
  assert (forall b : http.Header, forall k,
             map_fold (fun name (_ : list string) acc => http.Header_Del name acc) b h !! k
             = match h !! k with Some _ => None | None => b !! k end) as H.
  { intros b.
    apply (map_fold_weak_ind
             (fun (r : http.Header) (m : http.Header) => forall k,
                r !! k = match m !! k with Some _ => None | None => b !! k end)).
    - intros k. now rewrite lookup_empty.
    - intros name values m r Hfresh IH k. unfold http.Header_Del.
      destruct (decide (k = name)) as [->|Hne].
      + now rewrite lookup_delete_eq, lookup_insert_eq.
      + now rewrite lookup_delete_ne, lookup_insert_ne, IH by congruence. }
  apply map_eq. intros k. rewrite H, lookup_empty.
  now destruct (h !! k).
Qed.

Lemma Header_Set_lookup (name value : string) (h : http.Header) (k : string) :
  http.Header_Set name value h !! k =
    if decide (k = name) then Some [value] else h !! k.
Proof.
  unfold http.Header_Set. destruct (decide (k = name)) as [->|Hne].
  - now rewrite lookup_insert_eq.
  - now rewrite lookup_insert_ne by congruence.
Qed.

(** The header map of the SYN_REPLY that answers with [code]: status
    and version, and every other pending header that has a value. *)
Lemma reply_header (code : string) (h : http.Header) :
  let hdr := copy_header (http.Header_Set ":version" "HTTP/1.1"
                            (http.Header_Set ":status" code h)) in
  hdr !! ":status" = Some [code]
  /\ hdr !! ":version" = Some ["HTTP/1.1"]
  /\ forall name v vs,
       name <> ":status" -> name <> ":version" ->
       h !! name = Some (v :: vs) -> hdr !! name = Some (v :: vs).
Proof.
  cbn zeta. repeat split.
  - rewrite copy_header_lookup, !Header_Set_lookup.
    destruct (decide (":status" = ":version")) as [E|_]; [discriminate E|].
    now destruct (decide (":status" = ":status")).
  - rewrite copy_header_lookup, !Header_Set_lookup.
    now destruct (decide (":version" = ":version")).
  - intros name v vs H1 H2 Hh.
    rewrite copy_header_lookup, !Header_Set_lookup.
    destruct (decide (name = ":version")); [contradiction|].
    destruct (decide (name = ":status")); [contradiction|].
    now rewrite Hh.
Qed.

End Headers.

(** ** The response stream *)

Section Stream.
Import common spdy3 spec.

Ltac unfold_m :=
  unfold Write, WriteHeader, writeHeader, shutdown, shutdownOnce_Do, Close,
    ReceiveFrame, merge_header, remote_fin, close_ready, header_write,
    Run_prepare, wait_ready, Run_flush, Run_trailer, Run_finish,
    Run_handler, Run_serve, flow_call, send, bind, get, update, ret, panic,
    with_stream in *.

Lemma no_body_iff (code : Z) :
  no_body code = true <-> code = 204 \/ code = 304 \/ 100 <= code <= 199.
Proof.
  unfold no_body. rewrite !orb_true_iff, !Z.eqb_eq.
  assert (Z.quot code 100 = 1 <-> 100 <= code <= 199) as ->; [|tauto].
  pose proof (Z.quot_rem' code 100) as Hq.
  destruct (Z_lt_le_dec code 0) as [Hneg|Hpos].
  - pose proof (Z.rem_nonpos code 100 ltac:(lia) ltac:(lia)).
    pose proof (Z.rem_bound_abs code 100 ltac:(lia)). lia.
  - pose proof (Z.rem_bound_pos code 100 Hpos ltac:(lia)). lia.
Qed.

(** C1, as stated, fails: with a send window of [2^31 - 5], a
    WINDOW_UPDATE of 10 is answered by the RST_STREAM frame and the
    error, but the stream state is not CLOSED afterwards: it is what it
    was before, HALF_CLOSED_REMOTE. *)
Lemma C1_window_overflow_counterexample :
  exists w' : World,
    ReceiveFrame (Some (frames.WINDOW_UPDATE 1 10)) (sample_world (2 ^ 31 - 5))
      = Returned (Some FlowControlError) w'
    /\ sent w' = [frames.RST_STREAM 1 RST_STREAM_FLOW_CONTROL_ERROR]
    /\ state (stream w') = HALF_CLOSED_REMOTE
    /\ state (stream w') <> CLOSED.
Proof.
  eexists. split; [reflexivity|]. cbn. repeat split. discriminate.
Qed.

(** C1 (amended): when a WINDOW_UPDATE frame makes
    [FlowController.UpdateWindow] fail, which it does exactly when the
    send window plus the delta exceeds [2^31 - 1], [ReceiveFrame] submits
    exactly one frame to the output, an RST_STREAM with the stream's own
    ID and status FLOW_CONTROL_ERROR, and returns the error; it leaves
    the stream, and so the stream state, as it was. *)
Theorem C1_window_overflow (w : World) (id delta : Z) (f : flowControl)
    (ch : OutputChan) :
  flow (stream w) = Some f ->
  output (stream w) = Some ch ->
  send_window f + delta > 2 ^ 31 - 1 ->
  flow_UpdateWindow f delta = inl FlowControlError
  /\ ReceiveFrame (Some (frames.WINDOW_UPDATE id delta)) w
     = Returned (Some FlowControlError)
         (mkWorld (stream w)
            (sent w ++ [frames.RST_STREAM (streamID (stream w))
                                          RST_STREAM_FLOW_CONTROL_ERROR])
            (stopped w)).
Proof.
  intros Hf Hout Hover.
  assert (flow_UpdateWindow f delta = inl FlowControlError) as Hup.
  { unfold flow_UpdateWindow.
    destruct (Z.gtb_spec (send_window f + delta) (2 ^ 31 - 1)); [reflexivity|lia]. }
  split; [exact Hup|].
  unfold_m. cbn. rewrite Hf, Hup. cbn. rewrite Hout. reflexivity.
Qed.

Lemma C1_window_overflow_witness :
  flow_UpdateWindow (newFlowControl 1 (2 ^ 31 - 5)) 10 = inl FlowControlError
  /\ ReceiveFrame (Some (frames.WINDOW_UPDATE 1 10)) (sample_world (2 ^ 31 - 5))
     = Returned (Some FlowControlError)
         (mkWorld (stream (sample_world (2 ^ 31 - 5)))
            (sent (sample_world (2 ^ 31 - 5))
               ++ [frames.RST_STREAM (streamID (stream (sample_world (2 ^ 31 - 5))))
                                     RST_STREAM_FLOW_CONTROL_ERROR])
            (stopped (sample_world (2 ^ 31 - 5)))).
Proof.
  apply (C1_window_overflow (sample_world (2 ^ 31 - 5)) 1 10
           (newFlowControl 1 (2 ^ 31 - 5)) conn_output).
  - reflexivity.
  - reflexivity.
  - cbn. lia.
Defined.

(** What [Run_trailer] does, case by case. *)
Lemma Run_trailer_none (w : World) :
  unidirectional (stream w) = true \/ OpenHere (state (stream w)) = false ->
  Run_trailer w = Returned tt w.
Proof.
  intros [H|H]; unfold_m; rewrite H; cbn; [reflexivity|].
  now destruct (unidirectional (stream w)).
Qed.

Lemma Run_trailer_reply (w : World) (h : http.Header) (ch : OutputChan) :
  unidirectional (stream w) = false ->
  OpenHere (state (stream w)) = true ->
  wroteHeader (stream w) = false ->
  header (stream w) = Some h ->
  output (stream w) = Some ch ->
  Run_trailer w =
    Returned tt
      (mkWorld (set_header (Some ∅) (stream w))
         (sent w ++ [frames.SYN_REPLY FLAG_FIN (streamID (stream w))
                       (copy_header (http.Header_Set ":version" "HTTP/1.1"
                                       (http.Header_Set ":status" "200" h)))])
         (stopped w)).
Proof.
  intros Hu Ho Hw Hh Hout. unfold_m. rewrite Hu, Ho, Hw, Hh. cbn.
  rewrite Hout, clear_header_empty. reflexivity.
Qed.

Lemma Run_trailer_data (w : World) (ch : OutputChan) :
  unidirectional (stream w) = false ->
  OpenHere (state (stream w)) = true ->
  wroteHeader (stream w) = true ->
  output (stream w) = Some ch ->
  Run_trailer w =
    Returned tt
      (mkWorld (stream w)
         (sent w ++ [frames.DATA (streamID (stream w)) FLAG_FIN []])
         (stopped w)).
Proof.
  intros Hu Ho Hw Hout. unfold_m. rewrite Hu, Ho, Hw. cbn.
  rewrite Hout. reflexivity.
Qed.

Lemma Run_flush_flow (w : World) (f : flowControl) :
  flow (stream w) = Some f ->
  Run_flush w =
    Returned tt
      (mkWorld
         (set_flow (Some (if paused f && OpenThere (state (stream w))
                          then fst (flow_Flush f) else f))
                   (stream w))
         (sent w ++ flushed (stream w) f)
         (stopped w)).
Proof.
  intros Hf. unfold_m. unfold flushed, flow_Paused. rewrite Hf. cbn.
  destruct (paused f && OpenThere (state (stream w))); cbn.
  - rewrite app_nil_r, app_nil_r. reflexivity.
  - rewrite !app_nil_r. reflexivity.
Qed.

(** C2: when the handler invocation of [Run] returns, [Run] submits
    (after the frames of [Flush], if it is called) the trailing frame the
    state determines: on a non-unidirectional stream whose local side is
    open, a SYN_REPLY with FIN, [:status] 200, [:version] HTTP/1.1 and
    the pending headers if no header has been written, an empty DATA
    frame with FIN otherwise; nothing if the local side is half-closed or
    the stream is unidirectional.  In every case [Run] then applies
    [CloseHere] to the state.  (A stream whose local side is open has
    not been shut down: its header map and output channel are there.) *)
Theorem C2_Run_trailing_frame (serve : http.Handler -> list Call)
    (w w1 : World) (f : flowControl) :
  Run_serve serve w = Returned tt w1 ->
  flow (stream w1) = Some f ->
  (unidirectional (stream w1) = false -> OpenHere (state (stream w1)) = true ->
   is_Some (header (stream w1)) /\ is_Some (output (stream w1))) ->
  exists w' : World,
    Run serve w = Returned None w' /\ trailing_frame_rule w1 f w'.
Proof.
  intros Hserve Hf Hlive.
  unfold Run, Run_finish. unfold bind at 1. rewrite Hserve.
  unfold bind at 1. rewrite (Run_flush_flow w1 f Hf).
  set (w2 := mkWorld _ _ _).
  destruct (unidirectional (stream w1)) eqn:Hu.
  { unfold bind. rewrite (Run_trailer_none w2) by (left; exact Hu).
    eexists. split; [reflexivity|].
    unfold trailing_frame_rule. cbn. rewrite Hu.
    repeat split; try discriminate. }
  destruct (OpenHere (state (stream w1))) eqn:Ho.
  2:{ unfold bind. rewrite (Run_trailer_none w2) by (right; exact Ho).
      eexists. split; [reflexivity|].
      unfold trailing_frame_rule. cbn. rewrite Hu, Ho.
      repeat split; try discriminate. }
  destruct (Hlive eq_refl eq_refl) as [[h Hh] [ch Hout]].
  destruct (wroteHeader (stream w1)) eqn:Hw.
  - unfold bind. rewrite (Run_trailer_data w2 ch) by assumption.
    eexists. split; [reflexivity|].
    unfold trailing_frame_rule. cbn. rewrite Hu, Ho, Hw.
    repeat split; try discriminate. now rewrite app_assoc.
  - unfold bind. rewrite (Run_trailer_reply w2 h ch) by assumption.
    eexists. split; [reflexivity|].
    unfold trailing_frame_rule. cbn. rewrite Hu, Ho, Hw.
    repeat split; try discriminate. intros _ _ _.
    eexists. split; [now rewrite app_assoc|]. split; [reflexivity|].
    destruct (reply_header "200" h) as (H1 & H2 & H3).
    split; [exact H1|]. split; [exact H2|].
    intros h' name v vs Hh'. rewrite Hh in Hh'. injection Hh' as <-. apply H3.
Qed.

Lemma C2_Run_trailing_frame_witness :
  exists w' : World,
    Run (fun _ => []) (sample_world 65536) = Returned None w'
    /\ trailing_frame_rule (sample_world 65536) (newFlowControl 1 65536) w'.
Proof.
  apply (C2_Run_trailing_frame (fun _ => []) (sample_world 65536)
           (sample_world 65536) (newFlowControl 1 65536)).
  - reflexivity.
  - reflexivity.
  - intros _ _. split; eexists; reflexivity.
Defined.

(** The first [WriteHeader] on a live, non-unidirectional stream. *)
Lemma WriteHeader_first (w : World) (code : Z) (h : http.Header) (ch : OutputChan) :
  unidirectional (stream w) = false ->
  wroteHeader (stream w) = false ->
  header (stream w) = Some h ->
  output (stream w) = Some ch ->
  WriteHeader code w =
    Returned tt
      (mkWorld
         (set_state (if no_body code then CloseHere (state (stream w))
                     else state (stream w))
            (set_header (Some ∅)
               (set_responseCode code (set_wroteHeader true (stream w)))))
         (sent w ++ [frames.SYN_REPLY (if no_body code then FLAG_FIN else FLAG_NONE)
                       (streamID (stream w))
                       (copy_header (http.Header_Set ":version" "HTTP/1.1"
                                       (http.Header_Set ":status" (Itoa code) h)))])
         (stopped w)).
Proof.
  intros Hu Hw Hh Hout. unfold WriteHeader, send, bind, get, update, ret, with_stream.
  rewrite Hu, Hw, Hh. cbn. rewrite clear_header_empty.
  destruct (no_body code); cbn; rewrite Hout; reflexivity.
Qed.

Lemma WriteHeader_ignored (w : World) (code : Z) :
  unidirectional (stream w) = true \/ wroteHeader (stream w) = true ->
  WriteHeader code w = Returned tt w.
Proof.
  intros [H|H]; unfold WriteHeader, bind, get, ret; rewrite H; cbn; [reflexivity|].
  now destruct (unidirectional (stream w)).
Qed.

(** C5: [WriteHeader(code)] with [code] 204, 304 or 1xx, on a
    non-unidirectional stream that has not written its header, submits a
    SYN_REPLY that carries FIN (with [:status] set to the code) and
    applies [CloseHere] to the state, so that the local side is
    half-closed and the trailing-frame step of [Run] then submits
    nothing. *)
Theorem C5_WriteHeader_no_body (w : World) (code : Z) (h : http.Header)
    (ch : OutputChan) :
  unidirectional (stream w) = false ->
  wroteHeader (stream w) = false ->
  header (stream w) = Some h ->
  output (stream w) = Some ch ->
  code = 204 \/ code = 304 \/ 100 <= code <= 199 ->
  exists (w' : World) (hdr : http.Header),
    WriteHeader code w = Returned tt w'
    /\ sent w' = sent w ++ [frames.SYN_REPLY FLAG_FIN (streamID (stream w)) hdr]
    /\ FIN FLAG_FIN = true
    /\ hdr !! ":status" = Some [Itoa code]
    /\ state (stream w') = CloseHere (state (stream w))
    /\ ClosedHere (state (stream w')) = true
    /\ wroteHeader (stream w') = true
    /\ Run_trailer w' = Returned tt w'.
Proof.
  intros Hu Hw Hh Hout Hcode. apply no_body_iff in Hcode.
  rewrite (WriteHeader_first w code h ch Hu Hw Hh Hout), Hcode.
  eexists. eexists. split; [reflexivity|]. cbn [sent stream].
  assert (ClosedHere (CloseHere (state (stream w))) = true) as Hc
    by now destruct (state (stream w)).
  repeat split; try assumption.
  - exact (proj1 (reply_header (Itoa code) h)).
  - apply Run_trailer_none. right. cbn. now destruct (state (stream w)).
Qed.

Lemma C5_WriteHeader_no_body_witness :
  exists (w' : World) (hdr : http.Header),
    WriteHeader 204 (sample_world 65536) = Returned tt w'
    /\ sent w' = sent (sample_world 65536)
                   ++ [frames.SYN_REPLY FLAG_FIN
                         (streamID (stream (sample_world 65536))) hdr]
    /\ FIN FLAG_FIN = true
    /\ hdr !! ":status" = Some [Itoa 204]
    /\ state (stream w') = CloseHere (state (stream (sample_world 65536)))
    /\ ClosedHere (state (stream w')) = true
    /\ wroteHeader (stream w') = true
    /\ Run_trailer w' = Returned tt w'.
Proof.
  apply (C5_WriteHeader_no_body (sample_world 65536) 204 ∅ conn_output).
  - reflexivity.
  - reflexivity.
  - reflexivity.
  - reflexivity.
  - left. reflexivity.
Defined.

(** [shutdown] on a stream whose output channel is set. *)
Lemma shutdown_returns (w : World) (ch : OutputChan) :
  output (stream w) = Some ch ->
  shutdown w = Returned tt (after_shutdown w).
Proof.
  intros Hout. unfold shutdown, writeHeader, send, bind, get, update, ret,
    with_stream, after_shutdown.
  destruct (header (stream w)) as [h|] eqn:Hh; cbn.
  - destruct ((size h =? 0)%nat || unidirectional (stream w)); cbn.
    + now rewrite app_nil_r.
    + rewrite Hout. reflexivity.
  - now rewrite app_nil_r.
Qed.

Lemma shutdown_drops_handler (w0 w1 : World) :
  shutdown w0 = Returned tt w1 -> handler (stream w1) = None.
Proof.
  unfold shutdown, writeHeader, send, bind, get, update, ret, with_stream.
  destruct (header (stream w0)) as [h|]; cbn.
  - destruct ((size h =? 0)%nat || unidirectional (stream w0)); cbn.
    + intros [= <-]. reflexivity.
    + destruct (output (stream w0)); cbn; [|discriminate].
      intros [= <-]. reflexivity.
  - intros [= <-]. reflexivity.
Qed.

(** C6: [Write] returns [(0, error)], submits no frame and changes
    nothing (state, header map and [wroteHeader] included) when the
    stream is unidirectional (the error reads "Error: Stream is
    unidirectional.") and, on a stream that is not, when the stop signal
    has fired, when [shutdown] has run (it drops the handler) or when the
    local side is half-closed (the error reads "Error: Stream already
    closed."). *)
Theorem C6_Write_rejected (w : World) (data : list byte) :
  (unidirectional (stream w) = true ->
   Write data w
   = Returned (0, Some (errorString "Error: Stream is unidirectional.")) w)
  /\ (unidirectional (stream w) = false ->
      (exists c, stop (stream w) = Some c /\ stopped w = true)
      \/ handler (stream w) = None
      \/ ClosedHere (state (stream w)) = true ->
      Write data w
      = Returned (0, Some (errorString "Error: Stream already closed.")) w)
  /\ (forall w0 : World, shutdown w0 = Returned tt w -> handler (stream w) = None).
Proof.
  split; [|split].
  - intros Hu. unfold Write, bind, get, ret. now rewrite Hu.
  - intros Hu Hc. unfold Write, bind, get, ret. rewrite Hu.
    assert (closed w || ClosedHere (state (stream w)) = true) as ->; [|reflexivity].
    apply orb_true_iff. unfold closed.
    destruct Hc as [(c & Hstop & Hfired)|[Hh|Hs]].
    + left. rewrite Hstop, Hfired.
      destruct (conn (stream w)), (handler (stream w)); reflexivity.
    + left. rewrite Hh. now destruct (conn (stream w)).
    + now right.
  - intros w0. apply shutdown_drops_handler.
Qed.

Lemma C6_Write_rejected_witness :
  Write [x68; x69] sample_push_world
  = Returned (0, Some (errorString "Error: Stream is unidirectional."))
             sample_push_world
  /\ Write [x68; x69] (after_shutdown (sample_world 65536))
     = Returned (0, Some (errorString "Error: Stream already closed."))
                (after_shutdown (sample_world 65536))
  /\ handler (stream (after_shutdown (sample_world 65536))) = None.
Proof.
  split; [|split].
  - apply (proj1 (C6_Write_rejected sample_push_world [x68; x69])).
    reflexivity.
  - apply (proj1 (proj2 (C6_Write_rejected (after_shutdown (sample_world 65536))
                           [x68; x69]))).
    + reflexivity.
    + right. left. reflexivity.
  - apply (proj2 (proj2 (C6_Write_rejected (after_shutdown (sample_world 65536))
                           [x68; x69])) (sample_world 65536)).
    reflexivity.
Defined.

(** [Close] on a stream whose [Once] has fired does nothing. *)
Lemma Close_fired (w : World) :
  shutdownOnce (stream w) = true -> Close w = Returned None w.
Proof.
  intros H. unfold Close, shutdownOnce_Do, bind, ret. now rewrite H.
Qed.


(** C10: for every SYN_STREAM frame, [NewResponseStream] with a [nil]
    handler installs [http.DefaultServeMux], so that [Run] on the new
    stream serves that handler and not a [nil] one; with any handler
    argument the stream has a handler, an empty request-body buffer, an
    empty header map, [wroteHeader] false and [responseCode] 0. *)
Theorem C10_NewResponseStream (conn : Conn) (frame : frames.SynStreamFrame)
    (output : option OutputChan) (request : http.Request) :
  handler (NewResponseStream conn frame output None request)
  = Some http.DefaultServeMux
  /\ (forall (serve : http.Handler -> list Call) (fs : list frames.Frame)
             (stopped : bool),
        let w := mkWorld (NewResponseStream conn frame output None request)
                         fs stopped in
        Run_handler serve w = ServeHTTP (serve http.DefaultServeMux) w)
  /\ (forall hd : option http.Handler,
        let s := NewResponseStream conn frame output hd request in
        (exists h, handler s = Some h)
        /\ requestBody s = Some []
        /\ header s = Some ∅
        /\ wroteHeader s = false
        /\ responseCode s = 0).
Proof.
  split; [reflexivity|]. split; [reflexivity|].
  intros hd. cbn. split; [destruct hd; eauto|]. auto.
Qed.

(** ** The fuel of the loops is enough *)

(** The pieces of a payload, put together, are the payload. *)
Lemma concat_pieces (fuel size : nat) (payload : list byte) :
  (0 < size)%nat -> (length payload <= fuel)%nat ->
  concat (pieces fuel size payload) = payload.
Proof.
  intros Hsize. revert payload.
  induction fuel as [|fuel IH]; intros payload Hlen.
  - destruct payload; [reflexivity|cbn in Hlen; lia].
  - destruct payload as [|x payload]; [reflexivity|].
    cbn [pieces concat]. rewrite IH.
    + apply take_drop.
    + rewrite length_drop. cbn [length] in *. lia.
Qed.

(** Each piece is at most [size] octets long. *)
Lemma pieces_bounded (fuel size : nat) (payload : list byte) :
  Forall (fun p => (length p <= size)%nat) (pieces fuel size payload).
Proof.
  revert payload. induction fuel as [|fuel IH]; intros payload; [constructor|].
  destruct payload as [|x payload]; [constructor|].
  cbn [pieces]. constructor; [|apply IH].
  rewrite length_take. lia.
Qed.

(** The chunking loop of [Write] never runs out of fuel: any fuel of at
    least the length of the data gives the same result. *)
Lemma Write_loop_fuel (fuel : nat) (data : list byte) (written : Z) (w : World) :
  (length data <= fuel)%nat ->
  Write_loop fuel data written w = Write_loop (length data) data written w.
Proof.
  revert data written w.
  induction fuel as [fuel IH] using lt_wf_ind. intros data written w Hlen.
  destruct fuel as [|fuel].
  - assert (length data = 0%nat) as -> by lia. reflexivity.
  - cbn [Write_loop].
    destruct (len data >? MAX_DATA_SIZE) eqn:Hbig.
    + destruct (length data) as [|m] eqn:Hm.
      { unfold len in Hbig. rewrite Hm in Hbig. discriminate. }
      cbn [Write_loop]. rewrite Hbig.
      assert (length (drop (Z.to_nat MAX_DATA_SIZE) data) <= m)%nat as Hdrop.
      { rewrite length_drop, Hm.
        assert (0 < Z.to_nat MAX_DATA_SIZE)%nat by (unfold MAX_DATA_SIZE; lia).
        lia. }
      unfold bind.
      destruct (flow_call _ w) as [r w'|w'|w']; [|reflexivity..].
      destruct (snd r); [reflexivity|].
      rewrite (IH fuel) by lia.
      rewrite (IH m) by lia. reflexivity.
    + destruct (length data) as [|m] eqn:Hm; cbn [Write_loop]; [reflexivity|].
      rewrite Hbig. reflexivity.
Qed.

(** ** What a call appends to the output *)

Section Emits.
Context {P : frames.Frame -> Prop}.

Lemma world_of_bind {A B : Type} (m : M A) (k : A -> M B) (w : World) :
  world_of (bind m k w) =
    match m w with
    | Returned a w' => world_of (k a w')
    | Panicked w' | Blocked w' => w'
    end.
Proof. unfold bind. now destruct (m w). Qed.

Lemma emits_ret {A : Type} (a : A) : emits P (ret a).
Proof. intros w. exists []. split; [now rewrite app_nil_r|constructor]. Qed.

Lemma emits_panic {A : Type} : emits P (@panic A).
Proof. intros w. exists []. split; [now rewrite app_nil_r|constructor]. Qed.

Lemma emits_get : emits P get.
Proof. intros w. exists []. split; [now rewrite app_nil_r|constructor]. Qed.

Lemma emits_update (f : ResponseStream -> ResponseStream) : emits P (update f).
Proof. intros w. exists []. split; [now rewrite app_nil_r|constructor]. Qed.

Lemma emits_bind {A B : Type} (m : M A) (k : A -> M B) :
  emits P m -> (forall a, emits P (k a)) -> emits P (bind m k).
Proof.
  intros Hm Hk w. rewrite world_of_bind.
  destruct (Hm w) as (fs & Hfs & HP).
  destruct (m w) as [a w'|w'|w']; cbn [world_of] in Hfs; eauto.
  destruct (Hk a w') as (gs & Hgs & HQ).
  exists (fs ++ gs). split; [|now apply Forall_app].
  now rewrite Hgs, Hfs, app_assoc.
Qed.

Lemma emits_send (f : frames.Frame) : P f -> emits P (send f).
Proof.
  intros Hf w. unfold send. destruct (output (stream w)); cbn.
  - exists [f]. split; [reflexivity|]. now constructor.
  - exists []. split; [now rewrite app_nil_r|constructor].
Qed.

Lemma emits_flow_call {A : Type}
    (method : flowControl -> flowControl * list frames.Frame * A) :
  (forall f, Forall P (snd (fst (method f)))) -> emits P (flow_call method).
Proof.
  intros Hm w. unfold flow_call. destruct (flow (stream w)) as [f|]; cbn.
  - specialize (Hm f). destruct (method f) as [[f' fs] a]. cbn in *. eauto.
  - exists []. split; [now rewrite app_nil_r|constructor].
Qed.

Lemma emits_if {A : Type} (b : bool) (m1 m2 : M A) :
  emits P m1 -> emits P m2 -> emits P (if b then m1 else m2).
Proof. now destruct b. Qed.

End Emits.

Lemma emits_weaken {A : Type} (P Q : frames.Frame -> Prop) (m : M A) :
  (forall f, P f -> Q f) -> emits P m -> emits Q m.
Proof.
  intros HPQ Hm w. destruct (Hm w) as (fs & Hfs & HP).
  exists fs. split; [exact Hfs|]. eapply Forall_impl; eauto.
Qed.

(** The flow controller sends DATA frames without FIN and WINDOW_UPDATE
    frames. *)
Lemma data_frames_no_FIN (id : StreamID) (payload : list byte) :
  Forall no_FIN (data_frames id payload).
Proof.
  unfold data_frames. apply Forall_forall. intros f Hf.
  apply list_elem_of_fmap in Hf as (p & -> & _). reflexivity.
Qed.

Lemma flow_Write_no_FIN (f : flowControl) (bytes : list byte) :
  Forall no_FIN (snd (fst (flow_Write f bytes))).
Proof.
  unfold flow_Write. destruct (send_window f <? len bytes); cbn;
    apply data_frames_no_FIN.
Qed.

Lemma flow_Receive_no_FIN (f : flowControl) (bytes : list byte) :
  Forall no_FIN (snd (flow_Receive f bytes)).
Proof.
  unfold flow_Receive.
  destruct ((0 <? _) && _); cbn; repeat constructor.
Qed.

Lemma flow_UpdateWindow_no_FIN (f f' : flowControl) (delta : Z)
    (fs : list frames.Frame) :
  flow_UpdateWindow f delta = inr (f', fs) -> Forall no_FIN fs.
Proof.
  unfold flow_UpdateWindow.
  destruct (_ >? _); [discriminate|].
  destruct (paused f); intros [= <- <-].
  - apply data_frames_no_FIN.
  - constructor.
Qed.

Lemma flow_Flush_no_FIN (f : flowControl) : Forall no_FIN (snd (flow_Flush f)).
Proof. apply data_frames_no_FIN. Qed.

Lemma emits_Write_loop (fuel : nat) (data : list byte) (written : Z) :
  emits no_FIN (Write_loop fuel data written).
Proof.
  revert data written. induction fuel as [|fuel IH]; intros data written; cbn.
  - apply emits_bind; [|intros; apply emits_ret].
    apply emits_flow_call. intros f. apply flow_Write_no_FIN.
  - destruct (len data >? MAX_DATA_SIZE).
    + apply emits_bind.
      * apply emits_flow_call. intros f. apply flow_Write_no_FIN.
      * intros r. destruct (snd r); [apply emits_ret|apply IH].
    + apply emits_bind; [|intros; apply emits_ret].
      apply emits_flow_call. intros f. apply flow_Write_no_FIN.
Qed.

Lemma emits_writeHeader : emits no_FIN writeHeader.
Proof.
  unfold writeHeader. apply emits_bind; [apply emits_get|]. intros s.
  destruct (header s) as [h|]; [|apply emits_ret].
  apply emits_if; [apply emits_ret|].
  apply emits_bind; [apply emits_update|]. intros _.
  apply emits_send. reflexivity.
Qed.

Lemma emits_WriteHeader (code : Z) : emits (fun _ => True) (WriteHeader code).
Proof.
  unfold WriteHeader. apply emits_bind; [apply emits_get|]. intros s.
  apply emits_if; [apply emits_ret|].
  apply emits_if; [apply emits_ret|].
  apply emits_bind; [apply emits_update|]. intros _.
  apply emits_bind; [apply emits_update|]. intros _.
  destruct (header s) as [h|]; [|apply emits_panic].
  apply emits_bind; [apply emits_update|]. intros _.
  apply emits_bind; [apply emits_if; [apply emits_update|apply emits_ret]|].
  intros _. now apply emits_send.
Qed.

Lemma emits_any {A : Type} (m : M A) : emits no_FIN m -> emits (fun _ => True) m.
Proof. now apply emits_weaken. Qed.

Lemma emits_Write (data : list byte) : emits (fun _ => True) (Write data).
Proof.
  unfold Write. apply emits_bind; [apply emits_get|]. intros s.
  apply emits_if; [apply emits_ret|].
  intros w. destruct (closed w || ClosedHere (state s)); [apply emits_ret|].
  revert w. apply emits_bind.
  - apply emits_if; [apply emits_WriteHeader|apply emits_ret].
  - intros _. apply emits_bind; [apply emits_any, emits_writeHeader|].
    intros _. apply emits_any, emits_Write_loop.
Qed.

Lemma emits_shutdown : emits no_FIN shutdown.
Proof.
  unfold shutdown.
  apply emits_bind; [apply emits_writeHeader|]. intros _.
  repeat (apply emits_bind; [apply emits_update|]; intros _).
  apply emits_update.
Qed.

Lemma emits_Close : emits no_FIN Close.
Proof.
  unfold Close. apply emits_bind; [|intros; apply emits_ret].
  intros w. unfold shutdownOnce_Do.
  destruct (shutdownOnce (stream w)).
  - exists []. split; [now rewrite app_nil_r|constructor].
  - destruct (emits_shutdown w) as (fs & Hfs & HP).
    exists fs. split; [|exact HP].
    destruct (shutdown w); cbn in *; exact Hfs.
Qed.

Lemma emits_call (c : Call) : emits (fun _ => True) (call c).
Proof.
  destruct c; cbn [call].
  - apply emits_bind; [apply emits_Write|intros; apply emits_ret].
  - apply emits_WriteHeader.
  - unfold header_write. apply emits_bind; [apply emits_get|]. intros s.
    destruct (header s); [apply emits_update|apply emits_panic].
  - unfold header_write. apply emits_bind; [apply emits_get|]. intros s.
    destruct (header s); [apply emits_update|apply emits_panic].
  - apply emits_bind; [apply emits_get|]. intros s.
    destruct (header s); [apply emits_update|apply emits_ret].
  - apply emits_bind; [apply emits_any, emits_Close|intros; apply emits_ret].
Qed.

Lemma emits_ServeHTTP (script : list Call) : emits (fun _ => True) (ServeHTTP script).
Proof.
  induction script as [|c script IH]; cbn [ServeHTTP].
  - apply emits_ret.
  - apply emits_bind; [apply emits_call|intros; exact IH].
Qed.

(** ** SYN_REPLY comes first *)

Lemma WriteHeader_before_header (code : Z) (w : World) :
  unidirectional (stream w) = false ->
  wroteHeader (stream w) = false ->
  (exists f, is_SYN_REPLY f = true
             /\ exists w', WriteHeader code w = Returned tt w'
                           /\ sent w' = sent w ++ [f])
  \/ (sent (world_of (WriteHeader code w)) = sent w
      /\ forall w', WriteHeader code w <> Returned tt w').
Proof.
  intros Hu Hw.
  destruct (header (stream w)) as [h|] eqn:Hh;
    [destruct (output (stream w)) as [ch|] eqn:Hout|].
  - left. rewrite (WriteHeader_first w code h ch Hu Hw Hh Hout).
    eexists. split; [|eexists; split; [reflexivity|reflexivity]]. reflexivity.
  - right. unfold WriteHeader, send, bind, get, update, ret, with_stream.
    rewrite Hu, Hw, Hh. cbn.
    destruct (no_body code); cbn; rewrite Hout; cbn; split; try reflexivity;
      intros w'; discriminate.
  - right. unfold WriteHeader, panic, bind, get, update, ret, with_stream.
    rewrite Hu, Hw, Hh. cbn. split; [reflexivity|]. intros w'; discriminate.
Qed.

Lemma Write_unidirectional (data : list byte) (w : World) :
  unidirectional (stream w) = true ->
  Write data w
  = Returned (0, Some (errorString "Error: Stream is unidirectional.")) w.
Proof. intros Hu. unfold Write, bind, get, ret. now rewrite Hu. Qed.

Lemma Write_closed (data : list byte) (w : World) :
  unidirectional (stream w) = false ->
  closed w || ClosedHere (state (stream w)) = true ->
  Write data w
  = Returned (0, Some (errorString "Error: Stream already closed.")) w.
Proof. intros Hu Hc. unfold Write, bind, get, ret. now rewrite Hu, Hc. Qed.

Lemma Write_accepted (data : list byte) (w : World) :
  unidirectional (stream w) = false ->
  closed w || ClosedHere (state (stream w)) = false ->
  Write data w
  = ((if negb (wroteHeader (stream w)) then WriteHeader http.StatusOK else ret tt) ;;
     writeHeader ;; Write_loop (length data) data 0) w.
Proof. intros Hu Hc. unfold Write. unfold bind at 1, get. now rewrite Hu, Hc. Qed.

Lemma bind_Returned {A B : Type} (m : M A) (k : A -> M B) (w w' : World) (a : A) :
  m w = Returned a w' -> bind m k w = k a w'.
Proof. intros H. unfold bind. now rewrite H. Qed.

Lemma call_before_header (c : Call) (w : World) :
  wroteHeader (stream w) = false ->
  is_close c = false ->
  (sent (world_of (call c w)) = sent w
   /\ forall w', call c w = Returned tt w' -> wroteHeader (stream w') = false)
  \/ (exists f fs, is_SYN_REPLY f = true
                   /\ sent (world_of (call c w)) = sent w ++ f :: fs).
Proof.
  intros Hw Hc. remember (call c w) as r eqn:Er.
  destruct c as [data|code|name value|name value|name|];
    try discriminate; cbn [call] in Er.
  - (* Write *)
    destruct (unidirectional (stream w)) eqn:Hu.
    { rewrite (bind_Returned _ _ _ _ _ (Write_unidirectional data w Hu)) in Er.
      subst r. left. cbn. split; [reflexivity|].
      intros w' E. now inversion E; subst. }
    destruct (closed w || ClosedHere (state (stream w))) eqn:Hcl.
    { rewrite (bind_Returned _ _ _ _ _ (Write_closed data w Hu Hcl)) in Er.
      subst r. left. cbn. split; [reflexivity|].
      intros w' E. now inversion E; subst. }
    unfold bind at 1 in Er. rewrite (Write_accepted data w Hu Hcl), Hw in Er.
    cbn [negb] in Er. unfold bind at 1 in Er.
    destruct (WriteHeader_before_header http.StatusOK w Hu Hw)
      as [(f & Hf & w1 & Hret & Hsent)|[Hsame Hnot]].
    + right. rewrite Hret in Er. cbv beta iota in Er.
      destruct (emits_bind (P:=fun _ => True) writeHeader
                  (fun _ => Write_loop (length data) data 0)
                  (emits_any _ emits_writeHeader)
                  (fun _ => emits_any _ (emits_Write_loop _ _ _)) w1)
        as (fs & Hfs & _).
      exists f, fs. split; [exact Hf|]. subst r.
      destruct ((writeHeader ;; Write_loop (length data) data 0) w1);
        unfold ret; cbn [world_of] in *; rewrite Hfs, Hsent, <- app_assoc;
        reflexivity.
    + left.
      destruct (WriteHeader http.StatusOK w) as [[] w'|w'|w'] eqn:E.
      * now destruct (Hnot w').
      * subst r. cbn in *. split; [exact Hsame|]. intros w''; discriminate.
      * subst r. cbn in *. split; [exact Hsame|]. intros w''; discriminate.
  - (* WriteHeader *)
    destruct (unidirectional (stream w)) eqn:Hu.
    { rewrite WriteHeader_ignored in Er by now left. subst r.
      left. cbn. split; [reflexivity|]. intros w' E. now inversion E; subst. }
    destruct (WriteHeader_before_header code w Hu Hw)
      as [(f & Hf & w1 & Hret & Hsent)|[Hsame Hnot]].
    + right. exists f, []. subst r. rewrite Hret. cbn. auto.
    + left. subst r. split; [exact Hsame|]. intros w' E. now destruct (Hnot w').
  - left. subst r.
    unfold header_write, bind, get, update, panic, with_stream.
    destruct (header (stream w)); cbn; split; try reflexivity;
      intros w' E; inversion E; subst; exact Hw.
  - left. subst r.
    unfold header_write, bind, get, update, panic, with_stream.
    destruct (header (stream w)); cbn; split; try reflexivity;
      intros w' E; inversion E; subst; exact Hw.
  - left. subst r. unfold bind, get, update, ret, with_stream.
    destruct (header (stream w)); cbn; split; try reflexivity;
      intros w' E; inversion E; subst; exact Hw.
Qed.

Lemma ServeHTTP_reply_first (script : list Call) (w : World) :
  wroteHeader (stream w) = false ->
  no_Close script = true ->
  exists fs, sent (world_of (ServeHTTP script w)) = sent w ++ fs /\ reply_first fs.
Proof.
  revert w. induction script as [|c script IH]; intros w Hw Hnc.
  - exists []. cbn. split; [now rewrite app_nil_r|exact I].
  - cbn in Hnc. apply andb_true_iff in Hnc as [Hc Hnc].
    apply negb_true_iff in Hc.
    cbn [ServeHTTP]. rewrite world_of_bind.
    destruct (call_before_header c w Hw Hc) as [[Hsame Hkeep]|(f & fs & Hf & Hsent)].
    + destruct (call c w) as [[] w'|w'|w']; cbn [world_of] in *.
      * destruct (IH w' (Hkeep w' eq_refl) Hnc) as (fs & Hfs & Hfirst).
        exists fs. split; [now rewrite Hfs, Hsame|exact Hfirst].
      * exists []. split; [now rewrite app_nil_r|exact I].
      * exists []. split; [now rewrite app_nil_r|exact I].
    + destruct (call c w) as [[] w'|w'|w']; cbn [world_of] in *.
      * destruct (emits_ServeHTTP script w') as (gs & Hgs & _).
        exists (f :: fs ++ gs). split; [|exact Hf].
        rewrite Hgs, Hsent, <- app_assoc. reflexivity.
      * exists (f :: fs). split; [exact Hsent|exact Hf].
      * exists (f :: fs). split; [exact Hsent|exact Hf].
Qed.

Lemma reply_first_precedes_data (fs : list frames.Frame) :
  reply_first fs -> reply_precedes_data fs.
Proof.
  intros Hfirst i id flags data Hi. destruct fs as [|f fs]; [discriminate|].
  cbn in Hfirst. split.
  - destruct i; [|lia]. cbn in Hi. injection Hi as ->. discriminate.
  - exists f. split; [reflexivity|exact Hfirst].
Qed.

(** C3: on a stream that has not written its header, whatever calls of
    [Write] and [WriteHeader] (and on the header map) follow, the frames
    they submit to the output begin with a SYN_REPLY, which so precedes
    every DATA frame; a [Write] that is not rejected first performs
    [WriteHeader(200)]. *)
Theorem C3_reply_precedes_data (w : World) (script : list Call) :
  wroteHeader (stream w) = false ->
  no_Close script = true ->
  (exists fs,
     sent (world_of (ServeHTTP script w)) = sent w ++ fs
     /\ reply_first fs /\ reply_precedes_data fs)
  /\ forall data,
       unidirectional (stream w) = false ->
       closed w = false ->
       ClosedHere (state (stream w)) = false ->
       Write data w
       = (WriteHeader http.StatusOK ;; writeHeader ;;
          Write_loop (length data) data 0) w.
Proof.
  intros Hw Hnc. split.
  - destruct (ServeHTTP_reply_first script w Hw Hnc) as (fs & Hfs & Hfirst).
    exists fs. auto using reply_first_precedes_data.
  - intros data Hu Hc Hs. unfold Write. unfold bind at 1, get.
    now rewrite Hu, Hc, Hs, Hw.
Qed.

Lemma C3_reply_precedes_data_witness :
  (exists fs,
     sent (world_of (ServeHTTP [CallWrite [x68; x69]; CallWriteHeader 404]
                       (sample_world 65536)))
     = sent (sample_world 65536) ++ fs
     /\ reply_first fs /\ reply_precedes_data fs)
  /\ Write [x68; x69] (sample_world 65536)
     = (WriteHeader http.StatusOK ;; writeHeader ;;
        Write_loop (length [x68; x69]) [x68; x69] 0) (sample_world 65536).
Proof.
  destruct (C3_reply_precedes_data (sample_world 65536)
              [CallWrite [x68; x69]; CallWriteHeader 404] eq_refl eq_refl)
    as [Hfirst Hwrite].
  split; [exact Hfirst|].
  apply Hwrite; reflexivity.
Defined.

(** ** One FIN per stream *)

Ltac fields :=
  cbn [stream sent stopped shutdownOnce conn streamID flow requestBody state
       output request handler header priority unidirectional responseCode
       stop ready wroteHeader set_shutdownOnce set_flow set_requestBody
       set_state set_output set_request set_handler set_header
       set_responseCode set_stop set_ready set_wroteHeader with_stream].

Lemma count_fin_app (a b : list frames.Frame) :
  count_fin (a ++ b) = (count_fin a + count_fin b)%nat.
Proof. unfold count_fin. now rewrite filter_app, length_app. Qed.

Lemma count_fin_no_FIN (fs : list frames.Frame) :
  Forall no_FIN fs -> count_fin fs = 0%nat.
Proof.
  unfold count_fin. induction 1 as [|f fs Hf _ IH]; [reflexivity|].
  rewrite filter_cons_False; [exact IH|]. unfold no_FIN in Hf. congruence.
Qed.

Lemma OpenHere_ClosedHere (st : StreamState) : OpenHere st = negb (ClosedHere st).
Proof. now destruct st. Qed.

Lemma ClosedHere_CloseThere (st : StreamState) :
  ClosedHere (CloseThere st) = ClosedHere st.
Proof. now destruct st. Qed.

Lemma ClosedHere_CloseHere (st : StreamState) : ClosedHere (CloseHere st) = true.
Proof. now destruct st. Qed.

Lemma steady_refl (w : World) : steady w w.
Proof.
  constructor; auto. exists []. split; [now rewrite app_nil_r|constructor].
Qed.

Lemma steady_trans (w1 w2 w3 : World) : steady w1 w2 -> steady w2 w3 -> steady w1 w3.
Proof.
  intros [o1 u1 h1 b1 hd1 f1 (fs & Hfs & HP)] [o2 u2 h2 b2 hd2 f2 (gs & Hgs & HQ)].
  constructor; try congruence; auto.
  exists (fs ++ gs). split; [now rewrite Hgs, Hfs, app_assoc|now apply Forall_app].
Qed.

(** A step that keeps everything but the flow controller, the headers,
    the request body, the remote half of the state and [ready]. *)
Lemma steady_intro (w : World) (s' : ResponseStream) (fs : list frames.Frame) :
  output s' = output (stream w) ->
  unidirectional s' = unidirectional (stream w) ->
  ClosedHere (state s') = ClosedHere (state (stream w)) ->
  is_Some (requestBody s') -> is_Some (header s') -> is_Some (flow s') ->
  Forall no_FIN fs ->
  steady w (mkWorld s' (sent w ++ fs) (stopped w)).
Proof. intros. constructor; cbn; eauto. Qed.

Lemma steady_quiet (w : World) (s' : ResponseStream) :
  output s' = output (stream w) ->
  unidirectional s' = unidirectional (stream w) ->
  ClosedHere (state s') = ClosedHere (state (stream w)) ->
  is_Some (requestBody s') -> is_Some (header s') -> is_Some (flow s') ->
  steady w (mkWorld s' (sent w) (stopped w)).
Proof.
  intros. constructor; cbn; eauto.
  exists []. split; [now rewrite app_nil_r|constructor].
Qed.

Lemma Inv_steady (fin : bool) (w w' : World) :
  Inv fin w ->
  steady w w' ->
  (wroteHeader (stream w) = true -> wroteHeader (stream w') = true) ->
  (forall f', flow (stream w') = Some f' -> paused f' = true -> fin = false ->
              wroteHeader (stream w') = true /\ OpenHere (state (stream w')) = true) ->
  Inv fin w'.
Proof.
  intros [(f & Hf & _) (h & Hh) (ch & Hch) (b & Hb) Hcount Hserv Hfin]
         [Ho Hu Hhere Hbody Hhdr Hflow (fs & Hfs & HP)] Hwh Hpaused.
  destruct Hflow as [f' Hf']; [eauto|].
  destruct Hhdr as [h' Hh']; [eauto|].
  destruct Hbody as [b' Hb']; [eauto|].
  constructor.
  - exists f'. split; [exact Hf'|]. intros Hp Hf0. now apply (Hpaused f').
  - eauto.
  - rewrite Ho. eauto.
  - eauto.
  - rewrite Hfs, count_fin_app, (count_fin_no_FIN fs HP), Hcount, Hhere, Hu. lia.
  - intros Hf0 Hc. rewrite Hhere in Hc. destruct (Hserv Hf0 Hc).
    split; [auto|congruence].
  - intros Hf1. rewrite Hhere. auto.
Qed.

(** The flow controller never becomes paused by a frame it receives. *)
Lemma flow_Receive_paused (f : flowControl) (bytes : list byte) :
  paused (fst (flow_Receive f bytes)) = paused f.
Proof. unfold flow_Receive. now destruct ((0 <? _) && _). Qed.

Lemma flow_UpdateWindow_paused (f f' : flowControl) (delta : Z)
    (fs : list frames.Frame) :
  flow_UpdateWindow f delta = inr (f', fs) -> paused f' = true -> paused f = true.
Proof.
  unfold flow_UpdateWindow. destruct (_ >? _); [discriminate|].
  destruct (paused f) eqn:Hp; [auto|]. intros [= <- <-]. cbn. congruence.
Qed.

Lemma merge_header_steady (newer : http.Header) (w : World) :
  is_Some (header (stream w)) -> is_Some (requestBody (stream w)) ->
  is_Some (flow (stream w)) ->
  exists w', merge_header newer w = Returned tt w'
             /\ steady w w'
             /\ wroteHeader (stream w') = wroteHeader (stream w)
             /\ flow (stream w') = flow (stream w)
             /\ state (stream w') = state (stream w).
Proof.
  intros [h Hh] Hb Hf. unfold merge_header, bind, get, update, with_stream.
  rewrite Hh. eexists. split; [reflexivity|]. cbn.
  split; [apply steady_quiet; cbn; eauto|]. auto.
Qed.

Lemma remote_fin_steady (flags : Flags) (w : World) :
  is_Some (header (stream w)) -> is_Some (requestBody (stream w)) ->
  is_Some (flow (stream w)) ->
  exists w', remote_fin flags w = Returned tt w'
             /\ steady w w'
             /\ wroteHeader (stream w') = wroteHeader (stream w)
             /\ flow (stream w') = flow (stream w).
Proof.
  intros Hh Hb Hf.
  unfold remote_fin, close_ready, bind, update, ret, with_stream.
  destruct (FIN flags); eexists; (split; [reflexivity|]); cbn.
  - split; [apply steady_quiet; cbn; auto using ClosedHere_CloseThere|]. auto.
  - split; [apply steady_refl|]. auto.
Qed.

Lemma ReceiveFrame_steady (frame : option frames.Frame) (w : World) (f : flowControl) :
  flow (stream w) = Some f ->
  is_Some (header (stream w)) ->
  is_Some (requestBody (stream w)) ->
  is_Some (output (stream w)) ->
  exists e w' f',
    ReceiveFrame frame w = Returned e w'
    /\ steady w w'
    /\ wroteHeader (stream w') = wroteHeader (stream w)
    /\ flow (stream w') = Some f'
    /\ (paused f' = true -> paused f = true).
Proof.
  intros Hf Hh Hb Hout.
  destruct frame as [[flags id hdr|flags id hdr|id flags data|id delta|id status|name]|];
    cbn [ReceiveFrame].
  - (* SYN_REPLY *)
    destruct (merge_header_steady hdr w Hh Hb) as (w1 & E1 & S1 & W1 & F1 & _); [eauto|].
    destruct (remote_fin_steady flags w1) as (w2 & E2 & S2 & W2 & F2);
      [apply S1; auto|apply S1; auto|apply S1; eauto|].
    exists None, w2, f. unfold bind. rewrite E1, E2. unfold ret.
    split; [reflexivity|]. split; [eauto using steady_trans|].
    split; [congruence|]. split; [congruence|auto].
  - (* HEADERS *)
    destruct (merge_header_steady hdr w Hh Hb) as (w1 & E1 & S1 & W1 & F1 & _); [eauto|].
    exists None, w1, f. unfold bind. rewrite E1. unfold ret.
    split; [reflexivity|]. split; [exact S1|].
    split; [congruence|]. split; [congruence|auto].
  - (* DATA *)
    destruct Hb as [body Hbody].
    unfold bind at 1, get. rewrite Hbody.
    unfold bind at 1, update, with_stream. unfold bind at 1, flow_call.
    cbn [stream flow set_requestBody]. rewrite Hf.
    destruct (flow_Receive f data) as [f1 fs] eqn:Erecv.
    pose proof (flow_Receive_no_FIN f data) as HnoFIN.
    pose proof (flow_Receive_paused f data) as Hpaused.
    rewrite Erecv in HnoFIN, Hpaused. cbn [fst snd] in *.
    set (w1 := mkWorld _ _ _).
    assert (steady w w1) as S1.
    { apply (steady_intro w); cbn; eauto. }
    destruct (remote_fin_steady flags w1) as (w2 & E2 & S2 & W2 & F2);
      [cbn; auto|cbn; eauto|cbn; eauto|].
    exists None, w2, f1. unfold bind. rewrite E2. unfold ret.
    split; [reflexivity|]. split; [eauto using steady_trans|].
    split; [now rewrite W2|]. split; [now rewrite F2|congruence].
  - (* WINDOW_UPDATE *)
    unfold bind at 1, get. rewrite Hf.
    destruct (flow_UpdateWindow f delta) as [err|[f1 fs]] eqn:Eup.
    + destruct Hout as [ch Hch]. unfold bind, send, ret. rewrite Hch.
      exists (Some err), (mkWorld (stream w)
                  (sent w ++ [frames.RST_STREAM (streamID (stream w))
                                RST_STREAM_FLOW_CONTROL_ERROR]) (stopped w)), f.
      split; [reflexivity|].
      split; [apply (steady_intro w); cbn; eauto; repeat constructor|].
      split; [reflexivity|]. split; [exact Hf|auto].
    + unfold bind, flow_call, ret. rewrite Hf.
      exists None, (mkWorld (set_flow (Some f1) (stream w)) (sent w ++ fs) (stopped w)), f1.
      split; [reflexivity|].
      split; [apply (steady_intro w); cbn; eauto;
              eapply flow_UpdateWindow_no_FIN; eauto|].
      split; [reflexivity|]. split; [reflexivity|].
      eapply flow_UpdateWindow_paused; eauto.
  - exists (Some (UnknownFrameError "*frames.RST_STREAM")), w, f.
    split; [reflexivity|]. split; [apply steady_refl|]. auto.
  - exists (Some (UnknownFrameError name)), w, f.
    split; [reflexivity|]. split; [apply steady_refl|]. auto.
  - exists (Some (errorString "Error: Nil frame received.")), w, f.
    split; [reflexivity|]. split; [apply steady_refl|]. auto.
Qed.

Lemma writeHeader_steady (w : World) :
  is_Some (header (stream w)) -> is_Some (output (stream w)) ->
  is_Some (requestBody (stream w)) -> is_Some (flow (stream w)) ->
  exists w', writeHeader w = Returned tt w'
             /\ steady w w'
             /\ wroteHeader (stream w') = wroteHeader (stream w)
             /\ flow (stream w') = flow (stream w)
             /\ state (stream w') = state (stream w).
Proof.
  intros [h Hh] [ch Hch] Hb Hf.
  unfold writeHeader, send, bind, get, update, ret, with_stream. rewrite Hh.
  destruct ((size h =? 0)%nat || unidirectional (stream w)).
  - exists w. split; [reflexivity|]. split; [apply steady_refl|]. auto.
  - cbn. rewrite Hch. eexists. split; [reflexivity|]. cbn.
    split; [apply (steady_intro w); cbn; eauto; repeat constructor|]. auto.
Qed.

Lemma flow_Write_ok (f : flowControl) (bytes : list byte) :
  snd (snd (flow_Write f bytes)) = None.
Proof. unfold flow_Write. now destruct (_ <? _). Qed.

Lemma Write_loop_steady (fuel : nat) (data : list byte) (written : Z) (w : World) :
  is_Some (flow (stream w)) -> is_Some (header (stream w)) ->
  is_Some (requestBody (stream w)) ->
  exists r w', Write_loop fuel data written w = Returned r w'
               /\ steady w w'
               /\ wroteHeader (stream w') = wroteHeader (stream w)
               /\ state (stream w') = state (stream w).
Proof.
  revert data written w.
  assert (forall data written w,
            is_Some (flow (stream w)) -> is_Some (header (stream w)) ->
            is_Some (requestBody (stream w)) ->
            exists r w',
              (r <- flow_call (fun f => flow_Write f data) ;;
               ret (written + fst r, snd r)) w = Returned r w'
              /\ steady w w'
              /\ wroteHeader (stream w') = wroteHeader (stream w)
              /\ state (stream w') = state (stream w)) as Hlast.
  { intros data written w [f Hf] Hh Hb. unfold bind, flow_call, ret. rewrite Hf.
    pose proof (flow_Write_no_FIN f data) as Hno.
    destruct (flow_Write f data) as [[f' fs] r]. cbn [fst snd] in Hno.
    eexists. eexists. split; [reflexivity|].
    split; [apply (steady_intro w); cbn; eauto|]. cbn. auto. }
  induction fuel as [|fuel IH]; intros data written w Hf Hh Hb; cbn [Write_loop].
  - now apply Hlast.
  - destruct (len data >? MAX_DATA_SIZE); [|now apply Hlast].
    destruct Hf as [f Hf]. unfold bind at 1, flow_call. rewrite Hf.
    pose proof (flow_Write_no_FIN f (take (Z.to_nat MAX_DATA_SIZE) data)) as Hno.
    pose proof (flow_Write_ok f (take (Z.to_nat MAX_DATA_SIZE) data)) as Hok.
    destruct (flow_Write f (take (Z.to_nat MAX_DATA_SIZE) data)) as [[f' fs] r].
    cbn [fst snd] in Hno, Hok. rewrite Hok.
    set (w1 := mkWorld _ _ _).
    assert (steady w w1) as S1 by (apply (steady_intro w); cbn; eauto).
    destruct (IH (drop (Z.to_nat MAX_DATA_SIZE) data) (written + fst r) w1)
      as (r2 & w2 & E2 & S2 & W2 & St2); [cbn; eauto..|].
    exists r2, w2. split; [exact E2|]. split; [eauto using steady_trans|].
    split; [now rewrite W2|now rewrite St2].
Qed.

Lemma steady_alive (w w' : World) :
  steady w w' ->
  is_Some (header (stream w)) -> is_Some (output (stream w)) ->
  is_Some (requestBody (stream w)) -> is_Some (flow (stream w)) ->
  is_Some (header (stream w')) /\ is_Some (output (stream w'))
  /\ is_Some (requestBody (stream w')) /\ is_Some (flow (stream w')).
Proof.
  intros [Ho _ _ Hb Hh Hf _] ? ? ? ?. rewrite Ho. auto.
Qed.

Lemma Inv_not_written (w : World) :
  Inv false w -> wroteHeader (stream w) = false ->
  ClosedHere (state (stream w)) = false
  /\ exists f, flow (stream w) = Some f /\ paused f = false.
Proof.
  intros [(f & Hf & Hp) _ _ _ _ Hserv _] Hw. split.
  - destruct (ClosedHere (state (stream w))) eqn:E; [|reflexivity].
    destruct (Hserv eq_refl eq_refl). congruence.
  - exists f. split; [exact Hf|].
    destruct (paused f) eqn:E; [|reflexivity].
    destruct (Hp eq_refl eq_refl). congruence.
Qed.

(** A call of the handler keeps the invariant, and submits nothing once
    the local side is half-closed. *)
Lemma Inv_call (c : Call) (w : World) :
  Inv false w ->
  is_close c = false ->
  exists w', call c w = Returned tt w'
             /\ Inv false w'
             /\ unidirectional (stream w') = unidirectional (stream w)
             /\ (ClosedHere (state (stream w)) = true -> sent w' = sent w).
Proof.
  intros HI Hc.
  pose proof HI as [(f & Hf & Hp) (h & Hh) (ch & Hch) (b & Hb) Hcount Hserv _].
  destruct c as [data|code|name value|name value|name|]; try discriminate;
    cbn [call].
  - (* Write *)
    destruct (unidirectional (stream w)) eqn:Hu.
    { rewrite (bind_Returned _ _ _ _ _ (Write_unidirectional data w Hu)).
      exists w. unfold ret. auto. }
    destruct (closed w || ClosedHere (state (stream w))) eqn:Hcl.
    { rewrite (bind_Returned _ _ _ _ _ (Write_closed data w Hu Hcl)).
      exists w. unfold ret. auto. }
    apply orb_false_iff in Hcl as Hcl'. destruct Hcl' as [_ Hopen].
    assert (exists w1, (if negb (wroteHeader (stream w))
                        then WriteHeader http.StatusOK else ret tt) w
                       = Returned tt w1
                       /\ steady w w1
                       /\ wroteHeader (stream w1) = true
                       /\ state (stream w1) = state (stream w)) as (w1 & E1 & S1 & W1 & St1).
    { destruct (wroteHeader (stream w)) eqn:Hw; cbn [negb].
      - exists w. split; [reflexivity|]. split; [apply steady_refl|]. auto.
      - rewrite (WriteHeader_first w _ h ch Hu Hw Hh Hch).
        change (no_body http.StatusOK) with false. cbv iota.
        eexists. split; [reflexivity|].
        split; [apply (steady_intro w); cbn; eauto; repeat constructor|]. auto. }
    destruct (steady_alive w w1 S1) as (A1 & A2 & A3 & A4); [eauto..|].
    destruct (writeHeader_steady w1) as (w2 & E2 & S2 & W2 & F2 & St2);
      [assumption..|].
    destruct (steady_alive w1 w2 S2) as (B1 & B2 & B3 & B4); [assumption..|].
    destruct (Write_loop_steady (length data) data 0 w2)
      as (r & w3 & E3 & S3 & W3 & St3);
      [assumption..|].
    exists w3. unfold bind at 1. rewrite (Write_accepted data w Hu Hcl).
    unfold bind at 1. rewrite E1. unfold bind at 1. rewrite E2, E3.
    assert (steady w w3) as S by eauto using steady_trans.
    split; [reflexivity|].
    split; [|split; [rewrite (st_uni _ _ S); exact Hu|congruence]].
    apply (Inv_steady false w w3 HI S).
    + intros _. congruence.
    + intros f' _ _ _. split; [congruence|].
      rewrite OpenHere_ClosedHere, St3, St2, St1, Hopen. reflexivity.
  - (* WriteHeader *)
    destruct (unidirectional (stream w)) eqn:Hu.
    { rewrite WriteHeader_ignored by now left. exists w. auto. }
    destruct (wroteHeader (stream w)) eqn:Hw.
    { rewrite WriteHeader_ignored by now right. exists w. auto. }
    destruct (Inv_not_written w HI Hw) as (Hopen & f0 & Hf0 & Hp0).
    rewrite (WriteHeader_first w code h ch Hu Hw Hh Hch).
    eexists. split; [reflexivity|]. split; [|split; [exact Hu|congruence]].
    destruct (no_body code).
    + constructor; fields.
      * exists f0. split; [exact Hf0|]. congruence.
      * eauto.
      * eauto.
      * eauto.
      * rewrite count_fin_app, Hcount, Hopen, ClosedHere_CloseHere, Hu. reflexivity.
      * auto.
      * discriminate.
    + apply (Inv_steady false w); [exact HI| | |].
      * apply (steady_intro w); cbn; eauto; repeat constructor.
      * reflexivity.
      * cbn. intros f' Hf' Hp'. congruence.
  - (* Header().Set *)
    unfold header_write, bind, get, update, with_stream. rewrite Hh.
    eexists. split; [reflexivity|]. cbn. split; [|auto].
    apply (Inv_steady false w); [exact HI|apply steady_quiet; cbn; eauto|auto|].
    cbn. intros f' Hf' Hp' _. apply Hp; congruence.
  - (* Header().Add *)
    unfold header_write, bind, get, update, with_stream. rewrite Hh.
    eexists. split; [reflexivity|]. cbn. split; [|auto].
    apply (Inv_steady false w); [exact HI|apply steady_quiet; cbn; eauto|auto|].
    cbn. intros f' Hf' Hp' _. apply Hp; congruence.
  - (* Header().Del *)
    unfold bind, get, update, with_stream. rewrite Hh.
    eexists. split; [reflexivity|]. cbn. split; [|auto].
    apply (Inv_steady false w); [exact HI|apply steady_quiet; cbn; eauto|auto|].
    cbn. intros f' Hf' Hp' _. apply Hp; congruence.
Qed.

(** A frame from the connection keeps the invariant. *)
Lemma Inv_receive (fin : bool) (frame : option frames.Frame) (w : World) :
  Inv fin w ->
  exists e w', ReceiveFrame frame w = Returned e w'
               /\ Inv fin w'
               /\ unidirectional (stream w') = unidirectional (stream w).
Proof.
  intros HI.
  pose proof HI as [(f & Hf & Hp) Hh Hch Hb _ _ _].
  destruct (ReceiveFrame_steady frame w f Hf)
    as (e & w' & f' & E & S & W & F' & Hpaused); [destruct Hh, Hch, Hb; eauto..|].
  exists e, w'. split; [exact E|]. split; [|apply S].
  apply (Inv_steady fin w w' HI S).
  - congruence.
  - intros f0 Hf0 Hp0 Hfin.
    assert (f0 = f') as -> by congruence.
    destruct (Hp (Hpaused Hp0) Hfin) as [Hw Ho].
    split; [congruence|].
    rewrite OpenHere_ClosedHere, (st_here _ _ S), <- OpenHere_ClosedHere. exact Ho.
Qed.

Lemma count_fin_flushed (s : ResponseStream) (f : flowControl) :
  count_fin (flushed s f) = 0%nat.
Proof.
  apply count_fin_no_FIN. unfold flushed.
  destruct (paused f && OpenThere (state s)); [apply data_frames_no_FIN|constructor].
Qed.

Lemma Inv_finished_intro (w : World) :
  is_Some (flow (stream w)) -> is_Some (header (stream w)) ->
  is_Some (output (stream w)) -> is_Some (requestBody (stream w)) ->
  ClosedHere (state (stream w)) = true ->
  count_fin (sent w) = (if unidirectional (stream w) then 0%nat else 1%nat) ->
  Inv true w.
Proof.
  intros [f Hf] [h Hh] [ch Hch] [b Hb] Hc Hcount. constructor.
  - exists f. split; [exact Hf|discriminate].
  - eauto.
  - eauto.
  - eauto.
  - rewrite Hcount, Hc. now destruct (unidirectional (stream w)).
  - discriminate.
  - auto.
Qed.

(** The end of [Run] keeps the invariant, submits nothing if the local
    side is half-closed already, and leaves exactly one FIN behind on a
    stream that is not unidirectional. *)
Lemma Inv_finish (w : World) :
  Inv false w ->
  exists w', Run_finish w = Returned tt w'
             /\ Inv true w'
             /\ unidirectional (stream w') = unidirectional (stream w)
             /\ (ClosedHere (state (stream w)) = true -> sent w' = sent w)
             /\ (unidirectional (stream w) = false -> count_fin (sent w') = 1%nat).
Proof.
  intros [(f & Hf & Hp) (h & Hh) (ch & Hch) (b & Hb) Hcount Hserv _].
  unfold Run_finish. unfold bind at 1. rewrite (Run_flush_flow w f Hf).
  set (f2 := if paused f && OpenThere (state (stream w)) then fst (flow_Flush f) else f).
  assert (ClosedHere (state (stream w)) = true -> flushed (stream w) f = []) as Hquiet.
  { intros Hc. unfold flushed. destruct (paused f) eqn:E; [|reflexivity].
    destruct (Hp eq_refl eq_refl) as [_ Ho].
    rewrite OpenHere_ClosedHere, Hc in Ho. discriminate. }
  destruct (unidirectional (stream w)) eqn:Hu.
  { unfold bind at 1. rewrite Run_trailer_none by (left; exact Hu).
    unfold update, with_stream. eexists. split; [reflexivity|]. fields.
    split; [|split; [exact Hu|split; [|discriminate]]].
    - apply Inv_finished_intro; fields; eauto using ClosedHere_CloseHere.
      rewrite count_fin_app, count_fin_flushed, Hcount, Hu, !andb_false_r.
      reflexivity.
    - intros Hc. rewrite (Hquiet Hc). apply app_nil_r. }
  destruct (OpenHere (state (stream w))) eqn:Ho.
  2:{ assert (ClosedHere (state (stream w)) = true) as Hc
        by (rewrite OpenHere_ClosedHere in Ho; now apply negb_false_iff).
      unfold bind at 1. rewrite Run_trailer_none by (right; exact Ho).
      unfold update, with_stream. eexists. split; [reflexivity|]. fields.
      assert (count_fin (sent w ++ flushed (stream w) f) = 1%nat) as Hone.
      { rewrite count_fin_app, count_fin_flushed, Hcount, Hc. reflexivity. }
      split; [|split; [exact Hu|split; [|intros _; exact Hone]]].
      - apply Inv_finished_intro; fields; eauto using ClosedHere_CloseHere.
        now rewrite Hone, Hu.
      - intros _. rewrite (Hquiet Hc). apply app_nil_r. }
  assert (ClosedHere (state (stream w)) = false) as Hc
    by (rewrite OpenHere_ClosedHere in Ho; now apply negb_true_iff).
  destruct (wroteHeader (stream w)) eqn:Hw.
  - unfold bind at 1. rewrite (Run_trailer_data _ ch) by assumption.
    unfold update, with_stream. eexists. split; [reflexivity|]. fields.
    assert (count_fin ((sent w ++ flushed (stream w) f)
                         ++ [frames.DATA (streamID (stream w)) FLAG_FIN []]) = 1%nat)
      as Hone.
    { rewrite !count_fin_app, count_fin_flushed, Hcount, Hc. reflexivity. }
    split; [|split; [exact Hu|split; [congruence|intros _; exact Hone]]].
    apply Inv_finished_intro; fields; eauto using ClosedHere_CloseHere.
    now rewrite Hone, Hu.
  - unfold bind at 1. rewrite (Run_trailer_reply _ h ch) by assumption.
    unfold update, with_stream. eexists. split; [reflexivity|]. fields.
    match goal with
    | |- context [(sent w ++ flushed (stream w) f) ++ [?fr]] =>
        assert (count_fin ((sent w ++ flushed (stream w) f) ++ [fr]) = 1%nat) as Hone
    end.
    { rewrite !count_fin_app, count_fin_flushed, Hcount, Hc. reflexivity. }
    split; [|split; [exact Hu|split; [congruence|intros _; exact Hone]]].
    apply Inv_finished_intro; fields; eauto using ClosedHere_CloseHere.
    now rewrite Hone, Hu.
Qed.

(** The stream the connection creates satisfies the invariant. *)
Lemma Inv_new_world (conn : Conn) (frame : frames.SynStreamFrame) (ch : OutputChan)
    (hd : option http.Handler) (request : http.Request) (initial : Z)
    (stopped : bool) :
  Inv false (new_world conn frame (Some ch) hd request initial stopped).
Proof.
  constructor; unfold new_world, NewResponseStream; fields.
  - eexists. split; [reflexivity|]. discriminate.
  - eauto.
  - eauto.
  - eauto.
  - now destruct (FIN (frames.Flags frame)).
  - destruct (FIN (frames.Flags frame)); discriminate.
  - discriminate.
Qed.

Lemma run_app (tr1 tr2 : list Op) (w : World) :
  run (tr1 ++ tr2) w = (run tr1 ;; run tr2) w.
Proof.
  revert w. induction tr1 as [|o tr1 IH]; intros w; [reflexivity|].
  cbn [run app]. unfold bind.
  destruct (op o w) as [[] w'|w'|w']; [|reflexivity..].
  rewrite IH. reflexivity.
Qed.

Lemma lifetime_app (fin : bool) (tr1 tr2 : list Op) :
  lifetime fin (tr1 ++ tr2) = lifetime fin tr1 && lifetime (fin || has_finish tr1) tr2.
Proof.
  revert fin. induction tr1 as [|[c|frame|] tr1 IH]; intros fin; cbn.
  - now rewrite orb_false_r.
  - rewrite IH. now rewrite !andb_assoc.
  - apply IH.
  - rewrite IH, orb_true_r. cbn. now rewrite andb_assoc.
Qed.

(** Every step of a lifetime returns and keeps the invariant. *)
Lemma Inv_run (tr : list Op) (fin : bool) (w : World) :
  Inv fin w ->
  lifetime fin tr = true ->
  exists w', run tr w = Returned tt w'
             /\ Inv (fin || has_finish tr) w'
             /\ unidirectional (stream w') = unidirectional (stream w)
             /\ (has_finish tr = true -> unidirectional (stream w) = false ->
                 count_fin (sent w') = 1%nat).
Proof.
  revert fin w. induction tr as [|o tr IH]; intros fin w HI Hl.
  - exists w. cbn. rewrite orb_false_r.
    split; [reflexivity|]. split; [exact HI|]. split; [reflexivity|discriminate].
  - destruct o as [c|frame|]; cbn in Hl; cbn [run op has_finish existsb].
    + apply andb_true_iff in Hl as [Hl Hrest].
      apply andb_true_iff in Hl as [Hfin Hc].
      apply negb_true_iff in Hfin, Hc. subst fin.
      destruct (Inv_call c w HI Hc) as (w1 & E1 & I1 & U1 & _).
      destruct (IH false w1 I1 Hrest) as (w2 & E2 & I2 & U2 & F2).
      exists w2. unfold bind. rewrite E1.
      split; [exact E2|]. split; [exact I2|]. split; [congruence|].
      intros Hf Hu. apply F2; [exact Hf|congruence].
    + destruct (Inv_receive fin frame w HI) as (e & w1 & E1 & I1 & U1).
      destruct (IH fin w1 I1 Hl) as (w2 & E2 & I2 & U2 & F2).
      exists w2. unfold bind at 1 2. rewrite E1. unfold ret.
      split; [exact E2|]. split; [exact I2|]. split; [congruence|].
      intros Hf Hu. apply F2; [exact Hf|congruence].
    + apply andb_true_iff in Hl as [Hfin Hrest].
      apply negb_true_iff in Hfin. subst fin.
      destruct (Inv_finish w HI) as (w1 & E1 & I1 & U1 & _ & C1).
      destruct (IH true w1 I1 Hrest) as (w2 & E2 & I2 & U2 & _).
      exists w2. unfold bind. rewrite E1.
      split; [exact E2|]. split; [exact I2|]. split; [congruence|].
      intros _ Hu.
      destruct I2 as [_ _ _ _ Hcount2 _ Hfin2]. rewrite Hcount2.
      rewrite (Hfin2 eq_refl).
      replace (unidirectional (stream w2)) with false by congruence. reflexivity.
Qed.

Lemma Inv_count_le_1 (fin : bool) (w : World) :
  Inv fin w -> (count_fin (sent w) <= 1)%nat.
Proof.
  intros [_ _ _ _ Hcount _ _]. rewrite Hcount.
  destruct (_ && _); lia.
Qed.

Lemma Inv_fin_sent (fin : bool) (w : World) :
  Inv fin w -> (1 <= count_fin (sent w))%nat ->
  ClosedHere (state (stream w)) = true.
Proof.
  intros [_ _ _ _ Hcount _ _] H. rewrite Hcount in H.
  destruct (ClosedHere (state (stream w))); [reflexivity|cbn in H; lia].
Qed.

(** C4, as stated, fails: the handler answers 204, [Run] finishes, and
    then the peer sends a WINDOW_UPDATE that overflows the send window.
    The stream has submitted a SYN_REPLY with FIN followed by an
    RST_STREAM: the frame with FIN is not the last one. *)
Lemma C4_one_FIN_counterexample :
  let tr := [OpCall (CallWriteHeader 204); OpFinish;
             OpReceive (Some (frames.WINDOW_UPDATE 1 10))] in
  lifetime false tr = true
  /\ exists (w : World) (hdr : http.Header),
       run tr (sample_world (2 ^ 31 - 5)) = Returned tt w
       /\ sent w = [frames.SYN_REPLY FLAG_FIN 1 hdr;
                    frames.RST_STREAM 1 RST_STREAM_FLOW_CONTROL_ERROR]
       /\ ~ fin_is_last (sent w).
Proof.
  split; [reflexivity|].
  eexists. eexists. split; [vm_compute; reflexivity|].
  split; [reflexivity|].
  intros H. specialize (H 0%nat _ eq_refl eq_refl). discriminate H.
Qed.

(** With the flow controller of the specification, DATA can follow the
    FIN as well: bytes still pending when [Run] finishes are sent when the
    peer later enlarges the window. *)
Example buffered_data_after_FIN :
  exists (w : World) (hdr : http.Header),
    run [OpCall (CallWrite [x61; x62; x63; x64; x65]); OpFinish;
         OpReceive (Some (frames.WINDOW_UPDATE 1 100))] (sample_world 3)
    = Returned tt w
    /\ sent w = [frames.SYN_REPLY FLAG_NONE 1 hdr;
                 frames.DATA 1 FLAG_NONE [x61; x62; x63];
                 frames.DATA 1 FLAG_FIN [];
                 frames.DATA 1 FLAG_NONE [x64; x65]].
Proof.
  eexists. eexists. split; [vm_compute; reflexivity|]. reflexivity.
Qed.

(** C4 (amended): over every lifetime of a stream in which the handler
    makes its calls before [Run] finishes, with frames arriving through
    [ReceiveFrame] at any point, at most one frame the stream submits
    carries FIN; exactly one does once [Run] has finished on a stream
    that is not unidirectional; and after the frame with FIN, neither
    [WriteHeader], [Write] nor [Run] submits a frame ([ReceiveFrame] still
    may). *)
Theorem C4_one_FIN (conn : Conn) (frame : frames.SynStreamFrame) (ch : OutputChan)
    (hd : option http.Handler) (request : http.Request) (initial : Z)
    (stopped : bool) (tr : list Op) :
  lifetime false tr = true ->
  lifetime_rule (new_world conn frame (Some ch) hd request initial stopped) tr.
Proof.
  intros Hl.
  set (w0 := new_world conn frame (Some ch) hd request initial stopped).
  pose proof (Inv_new_world conn frame ch hd request initial stopped) as H0.
  fold w0 in H0.
  destruct (Inv_run tr false w0 H0 Hl) as (w & E & HI & _ & Hone).
  exists w. split; [exact E|]. split; [eapply Inv_count_le_1; eauto|].
  split; [exact Hone|].
  intros tr1 o tr2 -> Ho.
  rewrite lifetime_app in Hl. apply andb_true_iff in Hl as [Hl1 Hl2].
  destruct (Inv_run tr1 false w0 H0 Hl1) as (w1 & E1 & I1 & _ & _).
  cbn [orb] in I1, Hl2.
  destruct o as [c|fr|]; try discriminate; cbn [lifetime] in Hl2.
  - apply andb_true_iff in Hl2 as [Hl2 _].
    apply andb_true_iff in Hl2 as [Hfin Hc].
    apply negb_true_iff in Hfin, Hc. rewrite Hfin in I1.
    destruct (Inv_call c w1 I1 Hc) as (w2 & E2 & _ & _ & Hsame).
    exists w1, w2. split; [exact E1|]. split; [exact E2|].
    intros Hfin1. apply Hsame. eapply Inv_fin_sent; eauto.
  - apply andb_true_iff in Hl2 as [Hfin _].
    apply negb_true_iff in Hfin. rewrite Hfin in I1.
    destruct (Inv_finish w1 I1) as (w2 & E2 & _ & _ & Hsame & _).
    exists w1, w2. split; [exact E1|]. split; [exact E2|].
    intros Hfin1. apply Hsame. eapply Inv_fin_sent; eauto.
Qed.

Lemma C4_one_FIN_witness :
  lifetime_rule
    (new_world (mkConn (Some conn_stop)) sample_frame (Some conn_output) None
               (http.mkRequest None) 65536 false)
    [OpCall (CallWrite [x68; x69]); OpFinish;
     OpReceive (Some (frames.WINDOW_UPDATE 1 10))].
Proof.
  apply (C4_one_FIN (mkConn (Some conn_stop)) sample_frame conn_output None
           (http.mkRequest None) 65536 false
           [OpCall (CallWrite [x68; x69]); OpFinish;
            OpReceive (Some (frames.WINDOW_UPDATE 1 10))]).
  reflexivity.
Defined.

End Stream.

(** * Further properties *)

(** ** SYN_STREAM: what [WriteTo] and [ReadFrom] do besides *)

Section MoreSynStream.
Import common frames wire wire2.

Lemma control_accepted (d0 d1 d2 d3 d4 : byte) :
  controlFrameCommonProcessing [d0; d1; d2; d3; d4] SYN_STREAM_type FLAGS_ALLOWED = None ->
  d0 = x80 /\ d1 = x03 /\ d2 = x00 /\ d3 = x01
  /\ Z.land (byte_to_Z d4) (Z.lnot (byte_to_Z FLAGS_ALLOWED)) = 0.
Proof.
  unfold controlFrameCommonProcessing.
  destruct (Z.eqb_spec (byte_to_Z d0) 128) as [H0|]; [|discriminate].
  destruct (Z.eqb_spec (byte_to_Z d1) 3) as [H1|]; [|discriminate].
  destruct (Z.eqb_spec (BytesToUint16 [d2; d3]) SYN_STREAM_type) as [H2|]; [|discriminate].
  destruct (Z.eqb_spec (Z.land (byte_to_Z d4) (Z.lnot (byte_to_Z FLAGS_ALLOWED))) 0)
    as [H4|]; [|discriminate].
  intros _. cbn [negb] in *.
  split; [now apply byte_to_Z_inj|]. split; [now apply byte_to_Z_inj|].
  unfold BytesToUint16, SYN_STREAM_type in H2.
  pose proof (byte_to_Z_range d2). pose proof (byte_to_Z_range d3).
  rewrite Z.shiftl_mul_pow2 in H2 by lia. change (2 ^ 8) with 256 in H2.
  split; [apply byte_to_Z_inj; change (byte_to_Z x00) with 0; lia|].
  split; [apply byte_to_Z_inj; change (byte_to_Z x01) with 1; lia|exact H4].
Qed.

Lemma uint24_octets (a b c : byte) :
  byte_of_Z (Z.shiftr (BytesToUint24 [a; b; c]) 16) = a
  /\ byte_of_Z (Z.shiftr (BytesToUint24 [a; b; c]) 8) = b
  /\ byte_of_Z (BytesToUint24 [a; b; c]) = c.
Proof.
  pose proof (byte_to_Z_range a). pose proof (byte_to_Z_range b).
  pose proof (byte_to_Z_range c).
  unfold BytesToUint24.
  repeat split; apply byte_to_Z_inj; rewrite byte_to_of_Z;
    rewrite ?Z.shiftr_div_pow2, !Z.shiftl_mul_pow2 by lia;
    change (2 ^ 16) with 65536; change (2 ^ 8) with 256;
    Z.div_mod_to_equations; lia.
Qed.

Lemma uint32_octets (a b c d : byte) :
  B1 (BytesToUint32 [a; b; c; d]) = a
  /\ B2 (BytesToUint32 [a; b; c; d]) = b
  /\ B3 (BytesToUint32 [a; b; c; d]) = c
  /\ B4 (BytesToUint32 [a; b; c; d]) = d.
Proof.
  pose proof (byte_to_Z_range a). pose proof (byte_to_Z_range b).
  pose proof (byte_to_Z_range c). pose proof (byte_to_Z_range d).
  unfold B1, B2, B3, B4, BytesToUint32.
  repeat split; apply byte_to_Z_inj; rewrite byte_to_of_Z;
    rewrite ?Z.shiftr_div_pow2, !Z.shiftl_mul_pow2 by lia;
    change (2 ^ 24) with 16777216; change (2 ^ 16) with 65536;
    change (2 ^ 8) with 256;
    Z.div_mod_to_equations; lia.
Qed.

Lemma uint24_range (a b c : byte) : 0 <= BytesToUint24 [a; b; c] < 2 ^ 24.
Proof.
  pose proof (byte_to_Z_range a). pose proof (byte_to_Z_range b).
  pose proof (byte_to_Z_range c).
  unfold BytesToUint24. rewrite !Z.shiftl_mul_pow2 by lia.
  change (2 ^ 16) with 65536. change (2 ^ 8) with 256.
  change (2 ^ 24) with 16777216. lia.
Qed.

Lemma priority_octet (b : byte) :
  Priority_Byte3 (byte_of_Z (Z.shiftr (byte_to_Z b) 5))
  = byte_of_Z (Z.land (byte_to_Z b) 224).
Proof. destruct b; vm_compute; reflexivity. Qed.

(** What an accepted input looks like, and what [ReadFrom] makes of it. *)
Lemma ReadFrom_success_inv (G : SynStreamFrame) (input : list byte) :
  rd_err (ReadFrom G input) = None ->
  exists b4 b5 b6 b7 b8 b9 b10 b11 b12 b13 b14 b15 b16 b17 rest,
    let length := BytesToUint24 [b5; b6; b7] in
    let F := mkSynStreamFrame b4 (BytesToUint32 [b8; b9; b10; b11])
               (BytesToUint32 [b12; b13; b14; b15])
               (byte_of_Z (Z.shiftr (byte_to_Z b16) 5)) b17 (Header G)
               (Some (take (Z.to_nat (length - 10)) rest)) in
    input = [x80; x03; x00; x01; b4; b5; b6; b7; b8; b9; b10; b11;
             b12; b13; b14; b15; b16; b17] ++ rest
    /\ Z.land (byte_to_Z b4) (Z.lnot (byte_to_Z FLAGS_ALLOWED)) = 0
    /\ 10 <= length <= MAX_FRAME_SIZE - 18
    /\ length - 10 <= len rest
    /\ Valid (StreamID F) = true /\ Zero (StreamID F) = false
    /\ Valid (AssocStreamID F) = true
    /\ ReadFrom G input
       = mkReadResult F (drop (Z.to_nat (length - 10)) rest) (length + 8) None.
Proof.
  unfold ReadFrom.
  destruct (Z.lt_ge_cases (len input) 18) as [Hshort|Hlong].
  { rewrite ReadExactly_short by assumption. discriminate. }
  destruct (prefix18 input Hlong)
    as (b0&b1&b2&b3&b4&b5&b6&b7&b8&b9&b10&b11&b12&b13&b14&b15&b16&b17&rest&->).
  rewrite (ReadExactly_app _ rest 18) by reflexivity.
  cbn [firstn skipn nth]. fold FLAGS_ALLOWED.
  destruct (controlFrameCommonProcessing _ _ _) eqn:Hctl; [discriminate|].
  apply control_accepted in Hctl as (-> & -> & -> & -> & Hflags).
  set (length := BytesToUint24 [b5; b6; b7]).
  destruct (Z.ltb_spec length 10); [discriminate|].
  destruct (Z.gtb_spec length (MAX_FRAME_SIZE - 18)); [discriminate|].
  destruct (Z.lt_ge_cases (len rest) (length - 10)) as [Hs|Hl].
  { rewrite ReadExactly_short by assumption. discriminate. }
  rewrite ReadExactly_enough by lia.
  cbn [StreamID AssocStreamID].
  destruct (Valid (BytesToUint32 [b8; b9; b10; b11])) eqn:Hv; [|discriminate].
  destruct (Zero (BytesToUint32 [b8; b9; b10; b11])) eqn:Hz; [discriminate|].
  destruct (Valid (BytesToUint32 [b12; b13; b14; b15])) eqn:Ha; [|discriminate].
  cbn [negb]. intros _.
  exists b4, b5, b6, b7, b8, b9, b10, b11, b12, b13, b14, b15, b16, b17, rest.
  cbn zeta. fold length. cbn [StreamID AssocStreamID].
  repeat split; auto; lia.
Qed.

Lemma classic_writable (F : SynStreamFrame) : writable F \/ ~ writable F.
Proof.
  unfold writable.
  destruct (rawHeader F) as [hdr|]; [|right; intros ([? H] & _); discriminate H].
  destruct (Valid (StreamID F)); [|right; intros (_ & H & _); discriminate H].
  destruct (Zero (StreamID F)); [right; intros (_ & _ & H & _); discriminate H|].
  destruct (Valid (AssocStreamID F)); [|right; intros (_ & _ & _ & H); discriminate H].
  left. eauto 6.
Qed.

(** X1: [WriteTo] checks the frame before it writes: when the header
    block is missing or an identifier is invalid or zero it returns an
    error, reports 0 and leaves the writer alone.  Otherwise it writes
    the eighteen octets of the prefix and then the header block: if the
    writer fails on the prefix it reports 0, if it fails on the header
    block it reports 18, each time with the writer's error, and if both
    writes succeed it reports 18 more than the header block has.  On an
    in-memory writer, which accepts every write, [WriteTo] fails exactly
    when the frame does not pass the checks, and appends exactly the
    octets it reports. *)
Theorem WriteTo_outcome {W : Type} `{io_Writer W} (F : SynStreamFrame) (w : W) :
  (~ writable F -> snd (WriteTo F w) <> None /\ fst (WriteTo F w) = (w, 0))
  /\ (forall hdr, rawHeader F = Some hdr -> writable F ->
      (forall w1 err, WriteExactly w (prefix F hdr) = (w1, Some err) ->
         WriteTo F w = (w1, 0, Some err))
      /\ (forall w1 w2 err,
            WriteExactly w (prefix F hdr) = (w1, None) ->
            WriteExactly w1 hdr = (w2, Some err) ->
            WriteTo F w = (w2, 18, Some err))
      /\ (forall w1 w2,
            WriteExactly w (prefix F hdr) = (w1, None) ->
            WriteExactly w1 hdr = (w2, None) ->
            WriteTo F w = (w2, len hdr + 18, None)))
  /\ (forall b : Writer,
        (snd (WriteTo F b) = None <-> writable F)
        /\ (forall hdr, rawHeader F = Some hdr -> writable F ->
              WriteTo F b = (b ++ prefix F hdr ++ hdr, len hdr + 18, None)
              /\ len (prefix F hdr ++ hdr) = len hdr + 18)).
Proof.
  assert (forall (V : Type) (HV : io_Writer V) (v : V),
            ~ writable F ->
            snd (WriteTo F v) <> None /\ fst (WriteTo F v) = (v, 0)) as Hchecks.
  { intros V HV v Hbad. unfold WriteTo, writable in *.
    destruct (rawHeader F) as [hdr|] eqn:Hraw; [|split; [discriminate|reflexivity]].
    destruct (Valid (StreamID F)) eqn:Hv; cbn [negb];
      [|split; [discriminate|reflexivity]].
    destruct (Zero (StreamID F)) eqn:Hz; [split; [discriminate|reflexivity]|].
    destruct (Valid (AssocStreamID F)) eqn:Ha; cbn [negb];
      [|split; [discriminate|reflexivity]].
    exfalso. apply Hbad. eauto 6. }
  assert (forall (V : Type) (HV : io_Writer V) (v : V) hdr,
            rawHeader F = Some hdr -> writable F ->
            WriteTo F v =
              match WriteExactly v (prefix F hdr) with
              | (v1, Some err) => (v1, 0, Some err)
              | (v1, None) =>
                  match WriteExactly v1 hdr with
                  | (v2, Some err) => (v2, 18, Some err)
                  | (v2, None) => (v2, len hdr + 18, None)
                  end
              end) as Hwrites.
  { intros V HV v hdr Hraw (_ & Hv & Hz & Ha). unfold WriteTo.
    rewrite Hraw, Hv, Hz, Ha. cbn [negb]. reflexivity. }
  split; [apply Hchecks|]. split.
  - intros hdr Hraw Hok. rewrite (Hwrites W _ w hdr Hraw Hok).
    split; [|split].
    + intros w1 err ->. reflexivity.
    + intros w1 w2 err -> ->. reflexivity.
    + intros w1 w2 -> ->. reflexivity.
  - intros b. split.
    + split.
      * intros Hnone. destruct (classic_writable F) as [Hok|Hbad]; [exact Hok|].
        destruct (Hchecks _ _ b Hbad) as [Herr _]. contradiction.
      * intros Hok. destruct Hok as ([hdr Hraw] & Hv & Hz & Ha).
        now rewrite (WriteTo_accepts F hdr b Hraw Hv Hz Ha).
    + intros hdr Hraw Hok. rewrite (Hwrites _ _ b hdr Hraw Hok).
      unfold WriteExactly, write_all, buffer_Writer.
      rewrite <- app_assoc. split; [reflexivity|].
      assert (len (prefix F hdr) = 18) as Hp by reflexivity.
      rewrite len_app, Hp. lia.
Qed.

Lemma WriteTo_outcome_witness :
  (* the header block does not fit: 18 is reported *)
  WriteTo small_frame (mkBounded [] 18)
  = (mkBounded (prefix small_frame [x78; x9c]) 0, 18,
     Some (errorString "short write"))
  (* the prefix does not fit: 0 is reported *)
  /\ WriteTo small_frame (mkBounded [] 5)
     = (mkBounded [x80; x03; x00; x01; x01] 0, 0, Some (errorString "short write"))
  (* both fit *)
  /\ WriteTo small_frame (mkBounded [] 20)
     = (mkBounded (prefix small_frame [x78; x9c] ++ [x78; x9c]) 0, 20, None)
  (* a frame that does not pass the checks *)
  /\ fst (WriteTo (mkSynStreamFrame x00 0 0 x00 x00 None (Some [])) (mkBounded [] 20))
     = (mkBounded [] 20, 0)
  (* the in-memory writer *)
  /\ WriteTo small_frame [x00]
     = ([x00] ++ prefix small_frame [x78; x9c] ++ [x78; x9c], 20, None).
Proof.
  assert (writable small_frame) as Hok.
  { unfold writable. split; [eexists; reflexivity|]. repeat split. }
  split; [|split; [|split; [|split]]].
  - apply (proj1 (proj2 (proj1 (proj2 (WriteTo_outcome small_frame (mkBounded [] 18)))
                           [x78; x9c] eq_refl Hok))
             (mkBounded (prefix small_frame [x78; x9c]) 0)); reflexivity.
  - apply (proj1 (proj1 (proj2 (WriteTo_outcome small_frame (mkBounded [] 5)))
                    [x78; x9c] eq_refl Hok)); reflexivity.
  - apply (proj2 (proj2 (proj1 (proj2 (WriteTo_outcome small_frame (mkBounded [] 20)))
                           [x78; x9c] eq_refl Hok))
             (mkBounded (prefix small_frame [x78; x9c]) 2)); reflexivity.
  - apply (proj1 (WriteTo_outcome (mkSynStreamFrame x00 0 0 x00 x00 None (Some []))
                    (mkBounded [] 20))).
    intros (_ & _ & Hz & _). discriminate Hz.
  - apply (proj2 (proj2 (proj2 (WriteTo_outcome small_frame [x00])) [x00])
             [x78; x9c] eq_refl Hok).
Defined.

(** X2: A successful [ReadFrom] takes exactly the octets it counts from
    the reader: the 18-octet prefix and the header block, which it
    stores raw; it leaves the decompressed header map of the frame
    alone; and the frame it yields has a priority of at most 7 and no
    flag other than FIN and UNIDIRECTIONAL. *)
Theorem ReadFrom_consumes (G : SynStreamFrame) (input : list byte) :
  rd_err (ReadFrom G input) = None ->
  let r := ReadFrom G input in
  18 <= rd_n r <= len input
  /\ rd_reader r = drop (Z.to_nat (rd_n r)) input
  /\ rawHeader (rd_frame r) = Some (take (Z.to_nat (rd_n r) - 18) (drop 18 input))
  /\ Header (rd_frame r) = Header G
  /\ byte_to_Z (Priority (rd_frame r)) <= 7
  /\ Z.land (byte_to_Z (Flags (rd_frame r))) (Z.lnot (byte_to_Z FLAGS_ALLOWED)) = 0.
Proof.
  intros Hok.
  destruct (ReadFrom_success_inv G input Hok)
    as (b4&b5&b6&b7&b8&b9&b10&b11&b12&b13&b14&b15&b16&b17&rest
        & -> & Hfl & Hlen & Hrest & Hv & Hz & Ha & ->).
  cbn zeta. cbn [rd_n rd_reader rd_frame rawHeader Header Priority Flags].
  set (length := BytesToUint24 [b5; b6; b7]) in *.
  assert (Z.to_nat (length + 8) = (18 + Z.to_nat (length - 10))%nat) as -> by lia.
  split; [|split; [|split; [|split; [|split]]]].
  - rewrite len_app. change (len [x80; x03; x00; x01; b4; b5; b6; b7; b8; b9;
      b10; b11; b12; b13; b14; b15; b16; b17]) with 18. lia.
  - reflexivity.
  - cbn [skipn app]. f_equal. f_equal. lia.
  - reflexivity.
  - apply decoded_priority_le_7.
  - exact Hfl.
Qed.

Lemma ReadFrom_consumes_witness :
  let r := ReadFrom small_frame (encoding small_frame [x78; x9c] ++ [xff]) in
  18 <= rd_n r <= len (encoding small_frame [x78; x9c] ++ [xff])
  /\ rd_reader r = drop (Z.to_nat (rd_n r)) (encoding small_frame [x78; x9c] ++ [xff])
  /\ rawHeader (rd_frame r)
     = Some (take (Z.to_nat (rd_n r) - 18)
               (drop 18 (encoding small_frame [x78; x9c] ++ [xff])))
  /\ Header (rd_frame r) = Header small_frame
  /\ byte_to_Z (Priority (rd_frame r)) <= 7
  /\ Z.land (byte_to_Z (Flags (rd_frame r))) (Z.lnot (byte_to_Z FLAGS_ALLOWED)) = 0.
Proof.
  apply (ReadFrom_consumes small_frame (encoding small_frame [x78; x9c] ++ [xff])).
  reflexivity.
Defined.

(** X3: When [ReadFrom] fails it reports 0 if the input has fewer than
    18 octets and 18 otherwise.  If it fails before the identifiers are
    checked, the frame is as it was; if it fails on an identifier, the
    frame's fields have been overwritten and the header block has been
    taken from the reader as well, though the count is still 18. *)
Theorem ReadFrom_failure (G : SynStreamFrame) (input : list byte) :
  rd_err (ReadFrom G input) <> None ->
  let r := ReadFrom G input in
  (len input < 18 -> rd_n r = 0 /\ rd_frame r = G)
  /\ (18 <= len input ->
      rd_n r = 18
      /\ (rd_frame r = G
          \/ (rd_reader r = drop (Z.to_nat (length_field input + 8)) input
              /\ 10 <= length_field input <= len input - 8
              /\ StreamID (rd_frame r) = stream_id_field input
              /\ AssocStreamID (rd_frame r) = assoc_id_field input
              /\ rawHeader (rd_frame r)
                 = Some (take (Z.to_nat (length_field input - 10)) (drop 18 input))
              /\ (Valid (stream_id_field input) = false
                  \/ stream_id_field input = 0
                  \/ Valid (assoc_id_field input) = false)))).
Proof.
  intros Herr. cbn zeta. split.
  - intros Hshort. unfold ReadFrom.
    rewrite ReadExactly_short by assumption. auto.
  - intros Hlong. revert Herr. unfold ReadFrom.
    destruct (prefix18 input Hlong)
      as (b0&b1&b2&b3&b4&b5&b6&b7&b8&b9&b10&b11&b12&b13&b14&b15&b16&b17&rest&->).
    rewrite (ReadExactly_app _ rest 18) by reflexivity.
    unfold length_field, stream_id_field, assoc_id_field.
    rewrite len_app. change (len [b0; b1; b2; b3; b4; b5; b6; b7; b8; b9;
      b10; b11; b12; b13; b14; b15; b16; b17]) with 18.
    cbn [firstn skipn nth app].
    destruct (controlFrameCommonProcessing _ _ _); [auto|].
    set (length := BytesToUint24 [b5; b6; b7]).
    destruct (Z.ltb_spec length 10); [auto|].
    destruct (Z.gtb_spec length (MAX_FRAME_SIZE - 18)); [auto|].
    destruct (Z.lt_ge_cases (len rest) (length - 10)) as [Hs|Hl].
    { rewrite ReadExactly_short by assumption. auto. }
    rewrite ReadExactly_enough by lia.
    cbn [StreamID AssocStreamID].
    assert (Z.to_nat (length + 8) = (18 + Z.to_nat (length - 10))%nat) as -> by lia.
    cbn [skipn].
    destruct (Valid (BytesToUint32 [b8; b9; b10; b11])) eqn:Hv; cbn [negb].
    2:{ intros _. split; [reflexivity|]. right.
        cbn [rd_frame rd_reader rd_n StreamID AssocStreamID rawHeader].
        repeat split; auto; lia. }
    destruct (Zero (BytesToUint32 [b8; b9; b10; b11])) eqn:Hz.
    { intros _. split; [reflexivity|]. right.
      cbn [rd_frame rd_reader rd_n StreamID AssocStreamID rawHeader].
      apply Z.eqb_eq in Hz. repeat split; auto; lia. }
    destruct (Valid (BytesToUint32 [b12; b13; b14; b15])) eqn:Ha; cbn [negb].
    2:{ intros _. split; [reflexivity|]. right.
        cbn [rd_frame rd_reader rd_n StreamID AssocStreamID rawHeader].
        repeat split; auto; lia. }
    intros Hnone. now destruct Hnone.
Qed.

Lemma ReadFrom_failure_witness :
  (rd_n (ReadFrom small_frame [x80; x03]) = 0
   /\ rd_frame (ReadFrom small_frame [x80; x03]) = small_frame)
  /\ (let input := [x80; x03; x00; x01; x00; x00; x00; x0c; x00; x00; x00; x00;
                    x00; x00; x00; x00; x00; x00; xaa; xbb; xcc] in
      let r := ReadFrom small_frame input in
      rd_n r = 18 /\ rd_reader r = [xcc]
      /\ StreamID (rd_frame r) = 0 /\ rawHeader (rd_frame r) = Some [xaa; xbb]).
Proof.
  split.
  - apply (proj1 (ReadFrom_failure small_frame [x80; x03] ltac:(discriminate))).
    reflexivity.
  - cbn zeta.
    destruct (ReadFrom_failure small_frame
                [x80; x03; x00; x01; x00; x00; x00; x0c; x00; x00; x00; x00;
                 x00; x00; x00; x00; x00; x00; xaa; xbb; xcc])
      as [_ Hlong]; [discriminate|].
    destruct Hlong as [Hn _]; [vm_compute; discriminate|].
    split; [exact Hn|]. repeat split; reflexivity.
Defined.

Lemma encodable_round_trip (F G : SynStreamFrame) (hdr rest : list byte) :
  encodable F hdr ->
  ReadFrom G (encoding F hdr ++ rest)
  = mkReadResult
      (mkSynStreamFrame (Flags F) (StreamID F) (AssocStreamID F) (Priority F)
                        (Slot F) (Header G) (Some hdr))
      rest (len hdr + 18) None.
Proof.
  intros [Hraw Hs Ha Hv Hz Hva Hfl Hp Hlen].
  apply ReadFrom_encoding; auto. unfold MAX_FRAME_SIZE in *. lia.
Qed.

Lemma encodable_WriteTo (F : SynStreamFrame) (hdr : list byte) (w : Writer) :
  encodable F hdr -> WriteTo F w = (w ++ encoding F hdr, len hdr + 18, None).
Proof. intros [Hraw Hs Ha Hv Hz Hva Hfl Hp Hlen]. now apply WriteTo_accepts. Qed.

(** The frame [ReadFrom] accepts can be sent on as it is. *)
Lemma decoded_encodable (G : SynStreamFrame) (input : list byte) :
  rd_err (ReadFrom G input) = None ->
  exists hdr, encodable (rd_frame (ReadFrom G input)) hdr
              /\ len hdr + 18 = rd_n (ReadFrom G input)
              /\ encoding (rd_frame (ReadFrom G input)) hdr
                 = canonical input (rd_n (ReadFrom G input)).
Proof.
  intros Hok.
  destruct (ReadFrom_success_inv G input Hok)
    as (b4&b5&b6&b7&b8&b9&b10&b11&b12&b13&b14&b15&b16&b17&rest
        & -> & Hfl & Hlen & Hrest & Hv & Hz & Ha & ->).
  cbn [rd_frame rd_n]. cbn [StreamID AssocStreamID] in *.
  set (length := BytesToUint24 [b5; b6; b7]) in *.
  set (hdr := take (Z.to_nat (length - 10)) rest).
  assert (len hdr = length - 10) as Hhdr.
  { unfold hdr, len in *. rewrite length_take. lia. }
  exists hdr. split.
  - constructor; cbn [rawHeader StreamID AssocStreamID Flags Priority]; auto.
    + apply uint32_range.
    + apply uint32_range.
    + apply decoded_priority_le_7.
    + lia.
  - split; [lia|]. unfold encoding, canonical.
    cbn [Flags StreamID AssocStreamID Priority Slot].
    replace (10 + len hdr) with length by lia.
    unfold length.
    destruct (uint24_octets b5 b6 b7) as (-> & -> & ->).
    destruct (uint32_octets b8 b9 b10 b11) as (-> & -> & -> & ->).
    destruct (uint32_octets b12 b13 b14 b15) as (-> & -> & -> & ->).
    rewrite priority_octet.
    fold length.
    assert (Z.to_nat (length + 8) - 17 = S (Z.to_nat (length - 10)))%nat as -> by lia.
    reflexivity.
Qed.

(** X4: Writing the frame that [ReadFrom] has accepted gives back the
    octets read, with the five low bits of octet 16 cleared; so it gives
    back the very octets read when those bits are zero. *)
Theorem ReadFrom_then_WriteTo (G : SynStreamFrame) (input : list byte) :
  rd_err (ReadFrom G input) = None ->
  let r := ReadFrom G input in
  WriteTo (rd_frame r) [] = (canonical input (rd_n r), rd_n r, None)
  /\ len (canonical input (rd_n r)) = rd_n r
  /\ (Z.land (byte_to_Z (nth 16 input x00)) 31 = 0 ->
      canonical input (rd_n r) = take (Z.to_nat (rd_n r)) input).
Proof.
  intros Hok. cbn zeta.
  destruct (decoded_encodable G input Hok) as (hdr & Henc & Hn & Hcanon).
  rewrite (encodable_WriteTo _ hdr [] Henc), app_nil_l, Hcanon, Hn.
  split; [reflexivity|]. split.
  - rewrite <- Hcanon, <- Hn. unfold encoding. rewrite len_app.
    unfold len. cbn [List.length]. lia.
  - clear hdr Henc Hn Hcanon.
    destruct (ReadFrom_success_inv G input Hok)
      as (b4&b5&b6&b7&b8&b9&b10&b11&b12&b13&b14&b15&b16&b17&rest
          & -> & _ & Hlen & Hrest & _ & _ & _ & ->).
    cbn [rd_n nth]. set (length := BytesToUint24 [b5; b6; b7]) in *.
    intros Hlow. unfold canonical. cbn [nth app firstn skipn].
    assert (byte_of_Z (Z.land (byte_to_Z b16) 224) = b16) as ->.
    { revert Hlow. clear. destruct b16; vm_compute; congruence. }
    assert (Z.to_nat (length + 8) = 18 + Z.to_nat (length - 10))%nat as -> by lia.
    cbn [firstn Nat.add Nat.sub]. reflexivity.
Qed.

Lemma ReadFrom_then_WriteTo_witness :
  let input := encoding small_frame [x78; x9c] ++ [xff] in
  let r := ReadFrom small_frame input in
  WriteTo (rd_frame r) [] = (canonical input (rd_n r), rd_n r, None)
  /\ len (canonical input (rd_n r)) = rd_n r
  /\ canonical input (rd_n r) = take (Z.to_nat (rd_n r)) input.
Proof.
  destruct (ReadFrom_then_WriteTo small_frame
              (encoding small_frame [x78; x9c] ++ [xff]) eq_refl)
    as (H1 & H2 & H3).
  split; [exact H1|]. split; [exact H2|]. apply H3. reflexivity.
Defined.

(** X5: Every frame that [ReadFrom] accepts round-trips: [WriteTo]
    writes it, and [ReadFrom] reads the octets written back into the
    same fields. *)
Theorem decoded_frames_round_trip (G : SynStreamFrame) (input : list byte) :
  rd_err (ReadFrom G input) = None ->
  round_trips (rd_frame (ReadFrom G input)).
Proof.
  intros Hok.
  destruct (decoded_encodable G input Hok) as (hdr & Henc & _ & _).
  set (F := rd_frame (ReadFrom G input)) in *.
  exists (encoding F hdr), (len hdr + 18). split.
  - now rewrite (encodable_WriteTo F hdr []).
  - intros G'. rewrite <- (app_nil_r (encoding F hdr)).
    rewrite (encodable_round_trip F G' hdr [] Henc).
    cbn [rd_err rd_frame]. unfold same_fields. cbn.
    destruct Henc as [Hraw _ _ _ _ _ _ _ _]. auto 7.
Qed.

Lemma decoded_frames_round_trip_witness :
  round_trips (rd_frame (ReadFrom small_frame (encoding other_frame [x01; x02; x03]))).
Proof.
  apply (decoded_frames_round_trip small_frame (encoding other_frame [x01; x02; x03])).
  reflexivity.
Defined.

(** X6: Frames written one after the other to the same writer are read
    back one after the other: the first [ReadFrom] leaves the reader at
    the start of the second frame. *)
Theorem two_frames_in_a_row (F1 F2 G1 G2 : SynStreamFrame) (hdr1 hdr2 : list byte) :
  encodable F1 hdr1 ->
  encodable F2 hdr2 ->
  exists (w1 octets : Writer) (n1 n2 : Z),
    WriteTo F1 [] = (w1, n1, None)
    /\ WriteTo F2 w1 = (octets, n2, None)
    /\ len octets = n1 + n2
    /\ rd_err (ReadFrom G1 octets) = None
    /\ same_fields F1 (rd_frame (ReadFrom G1 octets))
    /\ rd_err (ReadFrom G2 (rd_reader (ReadFrom G1 octets))) = None
    /\ same_fields F2 (rd_frame (ReadFrom G2 (rd_reader (ReadFrom G1 octets))))
    /\ rd_reader (ReadFrom G2 (rd_reader (ReadFrom G1 octets))) = [].
Proof.
  intros E1 E2.
  exists (encoding F1 hdr1), (encoding F1 hdr1 ++ encoding F2 hdr2),
    (len hdr1 + 18), (len hdr2 + 18).
  rewrite (encodable_WriteTo F1 hdr1 [] E1), (encodable_WriteTo F2 hdr2 _ E2).
  rewrite (encodable_round_trip F1 G1 hdr1 _ E1). cbn [rd_err rd_frame rd_reader].
  rewrite <- (app_nil_r (encoding F2 hdr2)).
  rewrite (encodable_round_trip F2 G2 hdr2 [] E2). cbn [rd_err rd_frame rd_reader].
  destruct E1 as [Hraw1 _ _ _ _ _ _ _ _], E2 as [Hraw2 _ _ _ _ _ _ _ _].
  repeat split; auto.
  rewrite app_nil_r, len_app. unfold encoding. rewrite !len_app.
  unfold len. cbn [List.length]. lia.
Qed.

Lemma small_frame_encodable : encodable small_frame [x78; x9c].
Proof.
  constructor; try reflexivity; unfold uint32; cbn; try lia;
    vm_compute; discriminate.
Qed.

Lemma other_frame_encodable : encodable other_frame [x01; x02; x03].
Proof.
  constructor; try reflexivity; unfold uint32; cbn; try lia;
    vm_compute; discriminate.
Qed.

Lemma two_frames_in_a_row_witness :
  exists (w1 octets : Writer) (n1 n2 : Z),
    WriteTo small_frame [] = (w1, n1, None)
    /\ WriteTo other_frame w1 = (octets, n2, None)
    /\ len octets = n1 + n2
    /\ rd_err (ReadFrom small_frame octets) = None
    /\ same_fields small_frame (rd_frame (ReadFrom small_frame octets))
    /\ rd_err (ReadFrom small_frame (rd_reader (ReadFrom small_frame octets))) = None
    /\ same_fields other_frame
         (rd_frame (ReadFrom small_frame (rd_reader (ReadFrom small_frame octets))))
    /\ rd_reader (ReadFrom small_frame (rd_reader (ReadFrom small_frame octets))) = [].
Proof.
  apply (two_frames_in_a_row small_frame other_frame small_frame small_frame
           [x78; x9c] [x01; x02; x03]).
  - exact small_frame_encodable.
  - exact other_frame_encodable.
Defined.

End MoreSynStream.

Section MoreFrames.
Import common frames wire wire2 compression.

Lemma Compress_cases {S : Type} (com : Compressor S) (st : S) (F : SynStreamFrame) :
  (exists hdr, rawHeader F = Some hdr /\ Compress com st F = (st, F, None))
  \/ (rawHeader F = None /\ exists st' data err,
        com st (Header F) = (st', data, Some err)
        /\ Compress com st F = (st', F, Some err))
  \/ (rawHeader F = None /\ exists st' data,
        com st (Header F) = (st', data, None)
        /\ Compress com st F
           = (st', mkSynStreamFrame (Flags F) (StreamID F) (AssocStreamID F)
                     (Priority F) (Slot F) (Header F) data, None)).
Proof.
  unfold Compress. destruct (rawHeader F) as [hdr|] eqn:Hraw.
  - left. eauto.
  - right. destruct (com st (Header F)) as [[st' data] [err|]].
    + left. split; [reflexivity|]. eauto.
    + right. split; [reflexivity|]. eauto.
Qed.

Lemma Decompress_cases {S : Type} (decom : Decompressor S) (st : S)
    (F : SynStreamFrame) :
  (exists h, Header F = Some h /\ Decompress decom st F = (st, F, None))
  \/ (Header F = None /\ exists st' h err,
        decom st (rawHeader F) = (st', h, Some err)
        /\ Decompress decom st F = (st', F, Some err))
  \/ (Header F = None /\ exists st' h,
        decom st (rawHeader F) = (st', h, None)
        /\ Decompress decom st F
           = (st', mkSynStreamFrame (Flags F) (StreamID F) (AssocStreamID F)
                     (Priority F) (Slot F) h None, None)).
Proof.
  unfold Decompress. destruct (Header F) as [h|] eqn:Hh.
  - left. eauto.
  - right. destruct (decom st (rawHeader F)) as [[st' h] [err|]].
    + left. split; [reflexivity|]. eauto.
    + right. split; [reflexivity|]. eauto.
Qed.

(** X7: [Compress] changes nothing but the compressed block of the
    frame; it leaves the frame as it is when it reports an error, and it
    does not call the compressor (whose state stays as it was) when the
    frame has a compressed block already.  So a frame is compressed
    once: a second [Compress] after one that stored a block is a no-op. *)
Theorem Compress_once {S : Type} (com : Compressor S) (st : S) (F : SynStreamFrame) :
  let st1 := fst (fst (Compress com st F)) in
  let F1 := snd (fst (Compress com st F)) in
  let e1 := snd (Compress com st F) in
  (Flags F1 = Flags F /\ StreamID F1 = StreamID F
   /\ AssocStreamID F1 = AssocStreamID F /\ Priority F1 = Priority F
   /\ Slot F1 = Slot F /\ Header F1 = Header F)
  /\ (e1 <> None -> F1 = F)
  /\ (is_Some (rawHeader F) -> Compress com st F = (st, F, None))
  /\ (is_Some (rawHeader F1) -> Compress com st1 F1 = (st1, F1, None)).
Proof.
  cbn zeta.
  destruct (Compress_cases com st F)
    as [(hdr & Hraw & ->)|[(Hraw & st' & data & err & Hc & ->)
                          |(Hraw & st' & data & Hc & ->)]];
    cbn [fst snd Flags StreamID AssocStreamID Priority Slot Header rawHeader].
  - repeat split; try congruence. intros _. unfold Compress. now rewrite Hraw.
  - rewrite Hraw. repeat split; try congruence; intros [x Hx]; discriminate.
  - rewrite Hraw. repeat split; try congruence.
    + intros [x Hx]; discriminate.
    + intros [x ->]. reflexivity.
Qed.

Lemma Compress_once_witness :
  Compress sample_com 0%nat small_frame = (0%nat, small_frame, None)
  /\ (let F := mkSynStreamFrame x00 1 0 x00 x00 (Some ∅) None in
      Compress sample_com 1%nat (snd (fst (Compress sample_com 0%nat F)))
      = (1%nat, snd (fst (Compress sample_com 0%nat F)), None)
      /\ snd (fst (Compress failing_com 0%nat F)) = F).
Proof.
  split; [|split].
  - apply (Compress_once sample_com 0%nat small_frame). vm_compute. eauto.
  - apply (Compress_once sample_com 0%nat
             (mkSynStreamFrame x00 1 0 x00 x00 (Some ∅) None)).
    vm_compute. eauto.
  - apply (Compress_once failing_com 0%nat
             (mkSynStreamFrame x00 1 0 x00 x00 (Some ∅) None)).
    discriminate.
Defined.

(** X8: [Decompress] changes nothing but the header map and the
    compressed block; it leaves the frame as it is when it reports an
    error, does not call the decompressor when the frame has a header
    map already, and on success it stores the map and drops the
    compressed block, so that a second [Decompress] after one that
    stored a map is a no-op. *)
Theorem Decompress_once {S : Type} (decom : Decompressor S) (st : S)
    (F : SynStreamFrame) :
  let st1 := fst (fst (Decompress decom st F)) in
  let F1 := snd (fst (Decompress decom st F)) in
  let e1 := snd (Decompress decom st F) in
  (Flags F1 = Flags F /\ StreamID F1 = StreamID F
   /\ AssocStreamID F1 = AssocStreamID F /\ Priority F1 = Priority F
   /\ Slot F1 = Slot F)
  /\ (e1 <> None -> F1 = F)
  /\ (is_Some (Header F) -> Decompress decom st F = (st, F, None))
  /\ (Header F = None -> e1 = None -> rawHeader F1 = None)
  /\ (is_Some (Header F1) -> Decompress decom st1 F1 = (st1, F1, None)).
Proof.
  cbn zeta.
  destruct (Decompress_cases decom st F)
    as [(h & Hh & ->)|[(Hh & st' & h & err & Hc & ->)
                      |(Hh & st' & h & Hc & ->)]];
    cbn [fst snd Flags StreamID AssocStreamID Priority Slot Header rawHeader].
  - repeat split; try congruence. intros _. unfold Decompress. now rewrite Hh.
  - rewrite Hh. repeat split; try congruence; intros [x Hx]; discriminate.
  - rewrite Hh. repeat split; try congruence.
    + intros [x Hx]; discriminate.
    + intros [x ->]. reflexivity.
Qed.

Lemma Decompress_once_witness :
  (let F := mkSynStreamFrame x00 1 0 x00 x00 (Some ∅) (Some [x78; x9c]) in
   Decompress sample_decom 0%nat F = (0%nat, F, None))
  /\ rawHeader (snd (fst (Decompress sample_decom 0%nat small_frame))) = None
  /\ Decompress sample_decom 1%nat (snd (fst (Decompress sample_decom 0%nat small_frame)))
     = (1%nat, snd (fst (Decompress sample_decom 0%nat small_frame)), None)
  /\ snd (fst (Decompress failing_decom 0%nat small_frame)) = small_frame.
Proof.
  cbn zeta. split; [|split; [|split]].
  - apply (Decompress_once sample_decom 0%nat
             (mkSynStreamFrame x00 1 0 x00 x00 (Some ∅) (Some [x78; x9c]))).
    vm_compute. eauto.
  - apply (Decompress_once sample_decom 0%nat small_frame); reflexivity.
  - apply (Decompress_once sample_decom 0%nat small_frame). vm_compute. eauto.
  - apply (Decompress_once failing_decom 0%nat small_frame). discriminate.
Defined.

(** X9: A frame that has been read and decompressed cannot be written:
    [Decompress] drops the compressed block, and [WriteTo] then writes
    nothing and reports that the headers are not written.  After
    [Compress] has stored a block again the frame is written, with the
    block the compressor gave. *)
Theorem decompressed_frame_not_written {S T : Type}
    (decom : Decompressor S) (ds ds' : S) (com : Compressor T) (cs cs' : T)
    (G : SynStreamFrame) (input : list byte) (h : http.Header)
    (block : list byte) (w : Writer) :
  Header G = None ->
  rd_err (ReadFrom G input) = None ->
  decom ds (rawHeader (rd_frame (ReadFrom G input))) = (ds', Some h, None) ->
  com cs (Some h) = (cs', Some block, None) ->
  len block <= MAX_FRAME_SIZE - 28 ->
  let F := rd_frame (ReadFrom G input) in
  exists F1 F2,
    Decompress decom ds F = (ds', F1, None)
    /\ Header F1 = Some h /\ rawHeader F1 = None
    /\ WriteTo F1 w = (w, 0, Some (errorString "Error: Headers not written."))
    /\ Compress com cs F1 = (cs', F2, None)
    /\ WriteTo F2 w = (w ++ encoding F block, len block + 18, None).
Proof.
  intros HG Hok Hd Hc Hlen. cbn zeta.
  destruct (decoded_encodable G input Hok) as (hdr & Henc & _ & _).
  destruct (ReadFrom_success_inv G input Hok)
    as (b4&b5&b6&b7&b8&b9&b10&b11&b12&b13&b14&b15&b16&b17&rest
        & _ & _ & _ & _ & _ & _ & _ & Hr).
  cbn zeta in Hr. rewrite Hr in *. cbn [rd_frame] in *.
  set (F := mkSynStreamFrame _ _ _ _ _ _ _) in *.
  assert (Header F = None) as HF by exact HG.
  eexists _, _. split; [|split; [|split; [|split; [|split]]]].
  - unfold Decompress. rewrite HF, Hd. reflexivity.
  - reflexivity.
  - reflexivity.
  - reflexivity.
  - unfold Compress. cbn [rawHeader Header]. rewrite Hc. reflexivity.
  - destruct Henc as [Hraw Hs Ha Hv Hz Hva Hfl Hp Hl].
    rewrite (WriteTo_accepts _ block w); auto.
Qed.

Lemma decompressed_frame_not_written_witness :
  let F := rd_frame (ReadFrom small_frame (encoding small_frame [x01; x02; x03])) in
  exists F1 F2,
    Decompress sample_decom 0%nat F = (1%nat, F1, None)
    /\ Header F1 = Some ∅ /\ rawHeader F1 = None
    /\ WriteTo F1 [] = ([], 0, Some (errorString "Error: Headers not written."))
    /\ Compress sample_com 0%nat F1 = (1%nat, F2, None)
    /\ WriteTo F2 [] = ([] ++ encoding F [x78; x9c], len [x78; x9c] + 18, None).
Proof.
  apply (decompressed_frame_not_written sample_decom 0%nat 1%nat
           sample_com 0%nat 1%nat small_frame
           (encoding small_frame [x01; x02; x03]) ∅ [x78; x9c] []).
  - reflexivity.
  - reflexivity.
  - reflexivity.
  - reflexivity.
  - vm_compute. discriminate.
Defined.

(** X10: The SPDY/3.1 frame is the SPDY/3 frame without the slot:
    [WriteTo] writes what the SPDY/3 [WriteTo] writes for slot 0,
    [ReadFrom] accepts and rejects the same inputs with the same count,
    error and remaining input and reads the same fields, and [Compress]
    and [Decompress] act on the header map and the compressed block as
    those of SPDY/3 do. *)
Theorem V3_1_as_V3 {S T : Type} (com : Compressor S) (cs : S)
    (decom : Decompressor T) (ds : T)
    (F : v3_1.SynStreamFrameV3_1) (input : list byte) (w : Writer) :
  v3_1.WriteTo F w = WriteTo (v3_1.to_v3 F) w
  /\ (let r31 := v3_1.ReadFrom F input in
      let r := ReadFrom (v3_1.to_v3 F) input in
      v3_1.rd_err r31 = rd_err r /\ v3_1.rd_n r31 = rd_n r
      /\ v3_1.rd_reader r31 = rd_reader r
      /\ v3_1.to_v3 (v3_1.rd_frame r31) = without_slot (rd_frame r))
  /\ (let c31 := v3_1.Compress com cs F in
      let c := Compress com cs (v3_1.to_v3 F) in
      fst (fst c31) = fst (fst c) /\ snd c31 = snd c
      /\ v3_1.to_v3 (snd (fst c31)) = snd (fst c))
  /\ (let d31 := v3_1.Decompress decom ds F in
      let d := Decompress decom ds (v3_1.to_v3 F) in
      fst (fst d31) = fst (fst d) /\ snd d31 = snd d
      /\ v3_1.to_v3 (snd (fst d31)) = snd (fst d)).
Proof.
  split; [reflexivity|]. split; [|split].
  - cbn zeta. unfold v3_1.ReadFrom, ReadFrom.
    destruct (ReadExactly input 18) as [err|[data reader1]]; [now cbn|].
    destruct (controlFrameCommonProcessing _ _ _); [now cbn|].
    cbn zeta.
    destruct (_ <? 10); [now cbn|].
    destruct (_ >? _); [now cbn|].
    destruct (ReadExactly reader1 _) as [err|[header reader2]]; [now cbn|].
    cbn [v3_1.StreamID v3_1.AssocStreamID StreamID AssocStreamID].
    destruct (negb (Valid _)); [now cbn|].
    destruct (Zero _); [now cbn|].
    destruct (negb (Valid _)); now cbn.
  - cbn zeta. unfold v3_1.Compress, Compress.
    cbn [v3_1.to_v3 rawHeader Header].
    destruct (v3_1.rawHeader F); [now cbn|].
    destruct (com cs (v3_1.Header F)) as [[st' data] [err|]]; now cbn.
  - cbn zeta. unfold v3_1.Decompress, Decompress.
    cbn [v3_1.to_v3 rawHeader Header].
    destruct (v3_1.Header F); [now cbn|].
    destruct (decom ds (v3_1.rawHeader F)) as [[st' h] [err|]]; now cbn.
Qed.

(** X11: [ReadFrom] of SPDY/3.1 does not look at octet 17 of the frame,
    and [WriteTo] writes it as zero: a SPDY/3.1 frame that is read and
    written again has octet 17 cleared, whatever it was. *)
Theorem V3_1_reserved_octet (G : v3_1.SynStreamFrameV3_1)
    (prefix rest : list byte) (b b' : byte) :
  length prefix = 17%nat ->
  v3_1.ReadFrom G (prefix ++ b :: rest) = v3_1.ReadFrom G (prefix ++ b' :: rest)
  /\ (v3_1.rd_err (v3_1.ReadFrom G (prefix ++ b :: rest)) = None ->
      exists octets n,
        v3_1.WriteTo (v3_1.rd_frame (v3_1.ReadFrom G (prefix ++ b :: rest))) []
        = (octets, n, None)
        /\ nth 17 octets xff = x00).
Proof.
  intros Hp.
  destruct prefix as [|p0 [|p1 [|p2 [|p3 [|p4 [|p5 [|p6 [|p7 [|p8 [|p9 [|p10 [|p11 [|p12 [|p13 [|p14 [|p15 [|p16 [|? ?]]]]]]]]]]]]]]]]]];
    try discriminate. clear Hp.
  assert (forall x, ReadExactly ([p0; p1; p2; p3; p4; p5; p6; p7; p8; p9; p10; p11; p12; p13; p14; p15; p16] ++ x :: rest) 18
                    = inr ([p0; p1; p2; p3; p4; p5; p6; p7; p8; p9; p10; p11; p12; p13; p14; p15; p16; x], rest)) as Hread.
  { intros x. apply (ReadExactly_app [p0; p1; p2; p3; p4; p5; p6; p7; p8; p9; p10; p11; p12; p13; p14; p15; p16; x] rest 18). reflexivity. }
  split.
  - unfold v3_1.ReadFrom. rewrite !Hread. reflexivity.
  - unfold v3_1.ReadFrom. rewrite Hread.
    cbn [firstn skipn nth].
    destruct (controlFrameCommonProcessing _ _ _); [discriminate|].
    cbn zeta.
    destruct (_ <? 10); [discriminate|].
    destruct (_ >? _); [discriminate|].
    destruct (ReadExactly rest _) as [err|[header reader2]]; [discriminate|].
    cbn [v3_1.StreamID v3_1.AssocStreamID].
    destruct (Valid _) eqn:Hv; [|discriminate].
    destruct (Zero _) eqn:Hz; [discriminate|].
    destruct (Valid (BytesToUint32 [p12; p13; p14; p15])) eqn:Ha; [|discriminate].
    intros _. cbn [negb v3_1.rd_frame].
    unfold v3_1.WriteTo.
    cbn [v3_1.rawHeader v3_1.StreamID v3_1.AssocStreamID].
    rewrite Hv, Hz, Ha. cbn [negb].
    eexists _, _. split; [reflexivity|]. reflexivity.
Qed.

Lemma V3_1_reserved_octet_witness :
  let input := firstn 17 (encoding small_frame [x78; x9c]) ++ xff :: [x78; x9c] in
  exists octets n,
    v3_1.WriteTo (v3_1.rd_frame (v3_1.ReadFrom
       (v3_1.mkSynStreamFrameV3_1 x00 0 0 x00 None None) input)) []
    = (octets, n, None)
    /\ nth 17 octets xff = x00.
Proof.
  apply (V3_1_reserved_octet (v3_1.mkSynStreamFrameV3_1 x00 0 0 x00 None None)
           (firstn 17 (encoding small_frame [x78; x9c])) [x78; x9c] xff x00).
  - reflexivity.
  - reflexivity.
Defined.

End MoreFrames.

(** ** Further properties of the stream *)

Section MoreStream.
Import common spdy3 spec spec2.

Ltac fields :=
  cbn [stream sent stopped shutdownOnce conn streamID flow requestBody state
       output request handler header priority unidirectional responseCode
       stop ready wroteHeader set_shutdownOnce set_flow set_requestBody
       set_state set_output set_request set_handler set_header
       set_responseCode set_stop set_ready set_wroteHeader with_stream
       world_of].

Lemma progress_refl (w : World) : progress w w.
Proof. constructor; auto. exists []. now rewrite app_nil_r. Qed.

Lemma progress_trans (w1 w2 w3 : World) :
  progress w1 w2 -> progress w2 w3 -> progress w1 w3.
Proof.
  intros [i1 p1 u1 c1 h1 t1 r1 f1 wr1 fl1 o1 (fs & Hfs) s1]
         [i2 p2 u2 c2 h2 t2 r2 f2 wr2 fl2 o2 (gs & Hgs) s2].
  constructor; try congruence; auto.
  - intros Hr. destruct (f2 Hr) as [Hr2|Hc]; [|now right].
    destruct (f1 Hr2) as [Hr1|Hc]; [now left|right; auto].
  - intros Hw. destruct (wr1 Hw) as [Hw2 Hc2]. destruct (wr2 Hw2). split; congruence.
  - exists (fs ++ gs). now rewrite Hgs, Hfs, app_assoc.
Qed.

Lemma advances_ret {A : Type} (a : A) : advances (ret a).
Proof. intros w. apply progress_refl. Qed.

Lemma advances_panic {A : Type} : advances (@panic A).
Proof. intros w. apply progress_refl. Qed.

Lemma advances_get : advances get.
Proof. intros w. apply progress_refl. Qed.

Lemma advances_bind {A B : Type} (m : M A) (k : A -> M B) :
  advances m -> (forall a, advances (k a)) -> advances (bind m k).
Proof.
  intros Hm Hk w. rewrite world_of_bind. specialize (Hm w).
  destruct (m w) as [a w'|w'|w']; cbn [world_of] in Hm; auto.
  eapply progress_trans; [exact Hm|apply Hk].
Qed.

Lemma advances_if {A : Type} (b : bool) (m1 m2 : M A) :
  advances m1 -> advances m2 -> advances (if b then m1 else m2).
Proof. now destruct b. Qed.

Lemma advances_send (f : frames.Frame) : advances (send f).
Proof.
  intros w. unfold send. destruct (output (stream w)); cbn [world_of].
  - constructor; fields; auto. eauto.
  - apply progress_refl.
Qed.

Lemma advances_flow_call {A : Type}
    (method : flowControl -> flowControl * list frames.Frame * A) :
  advances (flow_call method).
Proof.
  intros w. unfold flow_call. destruct (flow (stream w)) as [f|]; cbn [world_of].
  - destruct (method f) as [[f' fs] a]. constructor; fields; eauto.
  - apply progress_refl.
Qed.

(** Updates of the fields that [progress] does not look at. *)
Lemma advances_update (f : ResponseStream -> ResponseStream) :
  (forall s, streamID (f s) = streamID s /\ priority (f s) = priority s
             /\ unidirectional (f s) = unidirectional s /\ conn (f s) = conn s
             /\ ready (f s) = ready s /\ wroteHeader (f s) = wroteHeader s
             /\ responseCode (f s) = responseCode s
             /\ shutdownOnce (f s) = shutdownOnce s
             /\ (is_Some (flow s) -> is_Some (flow (f s)))
             /\ (ClosedHere (state s) = true -> ClosedHere (state (f s)) = true)
             /\ (ClosedThere (state s) = true -> ClosedThere (state (f s)) = true)) ->
  advances (update f).
Proof.
  intros Hf w. destruct (Hf (stream w)) as (?&?&?&?&Hr&Hw&Hc&?&?&?&?).
  unfold update. cbn [world_of]. constructor; fields; auto.
  - now rewrite Hr.
  - rewrite Hr. auto.
  - rewrite Hw, Hc. auto.
  - congruence.
  - exists []. now rewrite app_nil_r.
Qed.

Ltac plain_update :=
  let s0 := fresh "s0" in
  apply advances_update; intros s0; fields;
  repeat split; auto; try (destruct (state s0); auto; fail).

Lemma advances_writeHeader : advances writeHeader.
Proof.
  unfold writeHeader. apply advances_bind; [apply advances_get|]. intros s.
  destruct (header s) as [h|]; [|apply advances_ret].
  apply advances_if; [apply advances_ret|].
  apply advances_bind; [plain_update|]. intros _. apply advances_send.
Qed.

Lemma advances_WriteHeader (code : Z) : advances (WriteHeader code).
Proof.
  intros w. unfold WriteHeader, bind, get, ret, update, panic, send, with_stream.
  destruct (unidirectional (stream w)) eqn:Hu; [apply progress_refl|].
  destruct (wroteHeader (stream w)) eqn:Hw; [apply progress_refl|].
  destruct (header (stream w)) as [h|]; fields.
  - destruct (no_body code); fields;
      (destruct (output (stream w)); cbn [world_of];
       constructor; fields; auto; try congruence;
       try (destruct (state (stream w)); auto; fail);
       try (eexists; reflexivity);
       try (exists []; now rewrite app_nil_r)).
  - cbn [world_of]. constructor; fields; auto; try congruence.
    exists []. now rewrite app_nil_r.
Qed.

Lemma advances_Write_loop (fuel : nat) (data : list byte) (written : Z) :
  advances (Write_loop fuel data written).
Proof.
  revert data written. induction fuel as [|fuel IH]; intros data written; cbn.
  - apply advances_bind; [apply advances_flow_call|intros; apply advances_ret].
  - destruct (len data >? MAX_DATA_SIZE).
    + apply advances_bind; [apply advances_flow_call|].
      intros r. destruct (snd r); [apply advances_ret|apply IH].
    + apply advances_bind; [apply advances_flow_call|intros; apply advances_ret].
Qed.

Lemma advances_Write (data : list byte) : advances (Write data).
Proof.
  unfold Write. apply advances_bind; [apply advances_get|]. intros s.
  apply advances_if; [apply advances_ret|].
  intros w. destruct (closed w || ClosedHere (state s)); [apply advances_ret|].
  revert w. apply advances_bind.
  - apply advances_if; [apply advances_WriteHeader|apply advances_ret].
  - intros _. apply advances_bind; [apply advances_writeHeader|].
    intros _. apply advances_Write_loop.
Qed.

Lemma advances_shutdown : advances shutdown.
Proof.
  unfold shutdown.
  apply advances_bind; [apply advances_writeHeader|]. intros _.
  apply advances_bind; [plain_update|]. intros _.
  apply advances_bind.
  { apply advances_update; intros s0; fields. repeat split; auto.
    intros [f Hf]. rewrite Hf. cbn. eauto. }
  intros _.
  repeat (apply advances_bind; [plain_update|]; intros _).
  plain_update.
Qed.

Lemma advances_shutdownOnce_Do (m : M unit) :
  advances m -> advances (shutdownOnce_Do m).
Proof.
  intros Hm w. unfold shutdownOnce_Do.
  destruct (shutdownOnce (stream w)); [apply progress_refl|].
  specialize (Hm w).
  destruct (m w) as [[] w'|w'|w']; cbn [world_of] in *; [| |exact Hm];
    (eapply progress_trans; [exact Hm|]);
    constructor; fields; auto; exists []; now rewrite app_nil_r.
Qed.

Lemma advances_Close : advances Close.
Proof.
  unfold Close. apply advances_bind; [|intros; apply advances_ret].
  apply advances_shutdownOnce_Do, advances_shutdown.
Qed.

Lemma advances_merge_header (newer : http.Header) : advances (merge_header newer).
Proof.
  unfold merge_header. apply advances_bind; [apply advances_get|]. intros s.
  destruct (header s); [plain_update|].
  apply advances_if; [apply advances_ret|apply advances_panic].
Qed.

Lemma ClosedThere_CloseThere (st : StreamState) : ClosedThere (CloseThere st) = true.
Proof. now destruct st. Qed.

Lemma OpenThere_ClosedThere (st : StreamState) : OpenThere st = negb (ClosedThere st).
Proof. now destruct st. Qed.

Lemma advances_remote_fin (flags : Flags) : advances (remote_fin flags).
Proof.
  intros w. unfold remote_fin, close_ready, bind, update, ret, with_stream.
  destruct (FIN flags); cbn [world_of]; [|apply progress_refl].
  constructor; fields; auto using ClosedThere_CloseThere.
  - intros H. now destruct (state (stream w)).
  - exists []. now rewrite app_nil_r.
Qed.

Lemma advances_ReceiveFrame (frame : option frames.Frame) :
  advances (ReceiveFrame frame).
Proof.
  destruct frame as [[flags id hdr|flags id hdr|id flags data|id delta|id status|name]|];
    cbn [ReceiveFrame]; try apply advances_ret.
  - apply advances_bind; [apply advances_merge_header|]. intros _.
    apply advances_bind; [apply advances_remote_fin|intros; apply advances_ret].
  - apply advances_bind; [apply advances_merge_header|intros; apply advances_ret].
  - apply advances_bind; [apply advances_get|]. intros s.
    destruct (requestBody s); [|apply advances_panic].
    apply advances_bind; [plain_update|]. intros _.
    apply advances_bind; [apply advances_flow_call|]. intros _.
    apply advances_bind; [apply advances_remote_fin|intros; apply advances_ret].
  - apply advances_bind; [apply advances_get|]. intros s.
    destruct (flow s) as [f|]; [|apply advances_panic].
    destruct (flow_UpdateWindow f delta) as [err|ffs].
    + apply advances_bind; [apply advances_send|intros; apply advances_ret].
    + apply advances_bind; [apply advances_flow_call|intros; apply advances_ret].
Qed.

Lemma advances_call (c : Call) : advances (call c).
Proof.
  destruct c; cbn [call].
  - apply advances_bind; [apply advances_Write|intros; apply advances_ret].
  - apply advances_WriteHeader.
  - unfold header_write. apply advances_bind; [apply advances_get|]. intros s.
    destruct (header s); [plain_update|apply advances_panic].
  - unfold header_write. apply advances_bind; [apply advances_get|]. intros s.
    destruct (header s); [plain_update|apply advances_panic].
  - apply advances_bind; [apply advances_get|]. intros s.
    destruct (header s); [plain_update|apply advances_ret].
  - apply advances_bind; [apply advances_Close|intros; apply advances_ret].
Qed.

Lemma advances_ServeHTTP (script : list Call) : advances (ServeHTTP script).
Proof.
  induction script as [|c script IH]; cbn [ServeHTTP].
  - apply advances_ret.
  - apply advances_bind; [apply advances_call|intros; exact IH].
Qed.

Lemma advances_Run_finish : advances Run_finish.
Proof.
  unfold Run_finish.
  apply advances_bind.
  { unfold Run_flush. apply advances_bind; [apply advances_get|]. intros s.
    apply advances_bind; [apply advances_flow_call|]. intros p.
    apply advances_bind.
    - apply advances_if; [apply advances_flow_call|apply advances_ret].
    - intros _. apply advances_bind; [apply advances_flow_call|].
      intros; apply advances_ret. }
  intros _. apply advances_bind.
  { unfold Run_trailer. apply advances_bind; [apply advances_get|]. intros s.
    apply advances_if; [|apply advances_ret].
    apply advances_if.
    - destruct (header s); [|apply advances_panic].
      apply advances_bind; [plain_update|]. intros _. apply advances_send.
    - apply advances_if; [apply advances_send|apply advances_ret]. }
  intros _. plain_update.
Qed.

Lemma advances_Run_serve (serve : http.Handler -> list Call) :
  advances (Run_serve serve).
Proof.
  unfold Run_serve. apply advances_bind.
  { unfold Run_prepare. apply advances_bind; [apply advances_get|]. intros s.
    destruct (requestBody s).
    - destruct (request s) as [r|]; [|apply advances_panic].
      destruct (http.Body r); [apply advances_ret|].
      apply advances_bind; [plain_update|]. intros _. plain_update.
    - apply advances_bind; [plain_update|]. intros _.
      destruct (request s); [plain_update|apply advances_panic]. }
  intros _. apply advances_bind.
  { intros w. unfold wait_ready. destruct (ready (stream w)); apply progress_refl. }
  intros _. unfold Run_handler. apply advances_bind; [apply advances_get|].
  intros s. destruct (handler s); [apply advances_ServeHTTP|apply advances_panic].
Qed.

Lemma advances_Run (serve : http.Handler -> list Call) : advances (Run serve).
Proof.
  intros w. unfold Run.
  pose proof (advances_bind _ (fun _ => Run_finish) (advances_Run_serve serve)
                (fun _ => advances_Run_finish) w) as H.
  destruct ((Run_serve serve;; Run_finish) w); exact H.
Qed.

Lemma advances_run (tr : list Op) : advances (run tr).
Proof.
  induction tr as [|o tr IH]; cbn [run]; [apply advances_ret|].
  apply advances_bind; [|intros; exact IH].
  destruct o as [c|frame|]; cbn [op].
  - apply advances_call.
  - apply advances_bind; [apply advances_ReceiveFrame|intros; apply advances_ret].
  - apply advances_Run_finish.
Qed.

(** *** [Close] runs the shutdown sequence once *)



(** X12: Over any sequence of calls of the handler, frames received and
    runs of the end of [Run], in any order and however each ends
    (returning, panicking or blocking), and over [Run] itself and over
    [Close]: the stream ID, the priority, the connection and the
    unidirectional flag stay what they were; a side of the stream that
    is closed stays closed; [ready], once closed, stays closed, and it
    is closed only if it was before or the remote side is closed; once
    [wroteHeader] is set it stays set and the response code stays what
    it was; the flow controller stays attached; frames are only added to
    the output. *)
Theorem stream_progress (tr : list Op) (serve : http.Handler -> list Call)
    (w : World) :
  progress w (world_of (run tr w))
  /\ progress w (world_of (Run serve w))
  /\ progress w (world_of (Close w)).
Proof.
  split; [apply advances_run|]. split; [apply advances_Run|apply advances_Close].
Qed.

Lemma world_eta (w : World) : mkWorld (stream w) (sent w) (stopped w) = w.
Proof. now destruct w. Qed.

Lemma set_flow_same (s : ResponseStream) (f : flowControl) :
  flow s = Some f -> set_flow (Some f) s = s.
Proof. destruct s. cbn. now intros ->. Qed.

(** [ready] is closed only when the remote side of the stream is. *)
Lemma Run_ready_closed (conn : Conn) (frame : frames.SynStreamFrame)
    (out : option OutputChan) (hd : option http.Handler) (request : http.Request)
    (initial : Z) (stopped : bool) (tr : list Op) (w : World) :
  run tr (new_world conn frame out hd request initial stopped) = Returned tt w ->
  ready (stream w) = true ->
  OpenThere (state (stream w)) = false.
Proof.
  intros Hrun Hready.
  pose proof (advances_run tr (new_world conn frame out hd request initial stopped))
    as [_ _ _ _ _ Hthere _ Hfin _ _ _ _ _].
  rewrite Hrun in *. cbn [world_of] in *.
  rewrite OpenThere_ClosedThere. apply negb_false_iff.
  destruct (Hfin Hready) as [H0|Hc]; [|exact Hc].
  apply Hthere. revert H0. unfold new_world, NewResponseStream. fields.
  now intros ->.
Qed.

(** X13: The step of [Run] that sends the data still held back by flow
    control ("Make sure any queued data has been sent") never sends
    anything: in every world a stream reaches from its creation in which
    [ready] is closed (and [Run] gets to that step only then) the remote
    side is closed, so [Flush] is not called and the step leaves the
    world as it is. *)
Theorem Run_never_flushes (conn : Conn) (frame : frames.SynStreamFrame)
    (out : option OutputChan) (hd : option http.Handler) (request : http.Request)
    (initial : Z) (stopped : bool) (tr : list Op) (w : World) :
  run tr (new_world conn frame out hd request initial stopped) = Returned tt w ->
  ready (stream w) = true ->
  OpenThere (state (stream w)) = false /\ Run_flush w = Returned tt w.
Proof.
  intros Hrun Hready.
  pose proof (Run_ready_closed conn frame out hd request initial stopped tr w
                Hrun Hready) as Ho.
  pose proof (advances_run tr (new_world conn frame out hd request initial stopped))
    as [_ _ _ _ _ _ _ _ _ Hflow _ _ _].
  rewrite Hrun in *. cbn [world_of] in *.
  split; [exact Ho|].
  destruct Hflow as [f Hf]; [unfold new_world; fields; eauto|].
  rewrite (Run_flush_flow w f Hf). unfold flushed.
  rewrite Ho, andb_false_r, app_nil_r, (set_flow_same _ f Hf), world_eta.
  reflexivity.
Qed.

Lemma Run_never_flushes_witness :
  let w := world_of (run [OpCall (CallWrite [x61; x62; x63; x64; x65])]
                         (sample_world 3)) in
  option_map pending (flow (stream w)) = Some [x64; x65]
  /\ OpenThere (state (stream w)) = false /\ Run_flush w = Returned tt w.
Proof.
  split; [vm_compute; reflexivity|].
  apply (Run_never_flushes (mkConn (Some conn_stop)) sample_frame (Some conn_output)
           None (http.mkRequest None) 3 false
           [OpCall (CallWrite [x61; x62; x63; x64; x65])]).
  - vm_compute. reflexivity.
  - vm_compute. reflexivity.
Defined.

(** X14: [WriteHeader] takes effect once: after a call of [WriteHeader]
    that has returned or panicked, a further call returns without doing
    anything; the response code is that of the first call. *)
Theorem WriteHeader_once (w w1 : World) (c1 c2 : Z) :
  WriteHeader c1 w = Returned tt w1 \/ WriteHeader c1 w = Panicked w1 ->
  WriteHeader c2 w1 = Returned tt w1
  /\ (unidirectional (stream w) = false -> wroteHeader (stream w) = false ->
      responseCode (stream w1) = c1).
Proof.
  intros H.
  assert ((unidirectional (stream w1) = true \/ wroteHeader (stream w1) = true)
          /\ (unidirectional (stream w) = false -> wroteHeader (stream w) = false ->
              responseCode (stream w1) = c1)) as [Hign Hcode].
  { revert H. unfold WriteHeader, bind, get, ret, update, panic, send, with_stream.
    destruct (unidirectional (stream w)) eqn:Hu.
    { intros [[= <-]|[=]]. split; [now left|discriminate]. }
    destruct (wroteHeader (stream w)) eqn:Hw.
    { intros [[= <-]|[=]]. split; [now right|discriminate]. }
    destruct (header (stream w)) as [h|]; fields.
    - destruct (no_body c1); fields;
        (destruct (output (stream w));
         intros [[= <-]|[=]]; split; [now right|reflexivity]).
    - intros [[=]|[= <-]]. split; [now right|reflexivity]. }
  split; [now apply WriteHeader_ignored|exact Hcode].
Qed.

Lemma WriteHeader_once_witness :
  let w1 := world_of (WriteHeader 404 (sample_world 65536)) in
  WriteHeader 200 w1 = Returned tt w1 /\ responseCode (stream w1) = 404.
Proof.
  destruct (WriteHeader_once (sample_world 65536)
              (world_of (WriteHeader 404 (sample_world 65536))) 404 200)
    as [H1 H2].
  - left. vm_compute. reflexivity.
  - split; [exact H1|]. apply H2; reflexivity.
Defined.





(** What [shutdown] leaves behind. *)
Lemma shutdown_fields (w0 w1 : World) :
  shutdown w0 = Returned tt w1 ->
  requestBody (stream w1) = None /\ output (stream w1) = None
  /\ request (stream w1) = None /\ handler (stream w1) = None
  /\ header (stream w1) = None /\ stop (stream w1) = None
  /\ state (stream w1) = CLOSED
  /\ flow (stream w1) = option_map flow_Close (flow (stream w0))
  /\ unidirectional (stream w1) = unidirectional (stream w0)
  /\ wroteHeader (stream w1) = wroteHeader (stream w0).
Proof.
  unfold shutdown, writeHeader, send, bind, get, update, ret, with_stream.
  destruct (header (stream w0)) as [h|]; cbn.
  - destruct ((size h =? 0)%nat || unidirectional (stream w0)); cbn.
    + intros [= <-]. cbn. auto 12.
    + destruct (output (stream w0)); cbn; [|discriminate].
      intros [= <-]. cbn. auto 12.
  - intros [= <-]. cbn. auto 12.
Qed.

Lemma Close_fields (w0 w1 : World) :
  shutdownOnce (stream w0) = false ->
  Close w0 = Returned None w1 ->
  shutdownOnce (stream w1) = true
  /\ requestBody (stream w1) = None /\ output (stream w1) = None
  /\ request (stream w1) = None /\ handler (stream w1) = None
  /\ header (stream w1) = None /\ stop (stream w1) = None
  /\ state (stream w1) = CLOSED
  /\ flow (stream w1) = option_map flow_Close (flow (stream w0))
  /\ unidirectional (stream w1) = unidirectional (stream w0)
  /\ wroteHeader (stream w1) = wroteHeader (stream w0).
Proof.
  intros Honce. unfold Close, shutdownOnce_Do, bind, ret. rewrite Honce.
  destruct (shutdown w0) as [[] w'|w'|w'] eqn:E; try discriminate.
  intros [= <-]. fields. split; [reflexivity|]. now apply shutdown_fields in E.
Qed.

(** X17: What the accessors [StreamID], [Priority] and [Conn] return
    never changes: over any sequence of calls of the handler ([Close]
    included), frames received and runs of the end of [Run], and over
    [Run] itself, they return what [NewResponseStream] was given; and
    [State] never returns to a state in which a closed side is open.
    [Header] and [CloseNotify] return [nil] once [Close] has returned. *)
Theorem accessors_over_lifetime (conn : Conn) (frame : frames.SynStreamFrame)
    (out : option OutputChan) (hd : option http.Handler) (request : http.Request)
    (initial : Z) (stopped : bool) (tr : list Op)
    (serve : http.Handler -> list Call) :
  let w0 := new_world conn frame out hd request initial stopped in
  (forall w, w = world_of (run tr w0) \/ w = world_of (Run serve (world_of (run tr w0))) ->
     getters.StreamID (stream w) = frames.StreamID frame
     /\ getters.Priority (stream w) = frames.Priority frame
     /\ getters.Conn (stream w) = Some conn
     /\ (FIN (frames.Flags frame) = true ->
         ClosedThere (getters.State (stream w)) = true))
  /\ (forall w w', w = world_of (run tr w0) ->
       shutdownOnce (stream w) = false -> Close w = Returned None w' ->
       getters.Header (stream w') = None
       /\ getters.CloseNotify (stream w') = None
       /\ getters.State (stream w') = CLOSED
       /\ getters.StreamID (stream w') = frames.StreamID frame).
Proof.
  cbn zeta.
  set (w0 := new_world conn frame out hd request initial stopped).
  assert (forall w, progress w0 w ->
            getters.StreamID (stream w) = frames.StreamID frame
            /\ getters.Priority (stream w) = frames.Priority frame
            /\ getters.Conn (stream w) = Some conn
            /\ (FIN (frames.Flags frame) = true ->
                ClosedThere (getters.State (stream w)) = true)) as Hprog.
  { intros w [Hid Hpr _ Hconn _ Hthere _ _ _ _ _ _ _].
    unfold getters.StreamID, getters.Priority, getters.Conn, getters.State.
    rewrite Hid, Hpr, Hconn. repeat split.
    intros Hfin. apply Hthere. unfold w0, new_world, NewResponseStream. fields.
    now rewrite Hfin. }
  split.
  - intros w [-> | ->]; apply Hprog.
    + apply advances_run.
    + eapply progress_trans; [apply advances_run|apply advances_Run].
  - intros w w' -> Honce Hclose.
    destruct (Close_fields _ w' Honce Hclose)
      as (_ & _ & _ & _ & _ & Hhdr & Hstop & Hst & _).
    unfold getters.Header, getters.CloseNotify, getters.State.
    split; [exact Hhdr|]. split; [exact Hstop|]. split; [exact Hst|].
    pose proof (advances_Close (world_of (run tr w0))) as HC.
    rewrite Hclose in HC. cbn [world_of] in HC.
    apply (Hprog w'). eapply progress_trans; [apply advances_run|exact HC].
Qed.

Lemma accessors_over_lifetime_witness :
  let w := world_of (run [OpCall (CallWrite [x68; x69])] (sample_world 65536)) in
  (getters.StreamID (stream w) = 1
   /\ getters.Conn (stream w) = Some (mkConn (Some conn_stop))
   /\ ClosedThere (getters.State (stream w)) = true)
  /\ (let w' := world_of (Close w) in
      getters.Header (stream w') = None
      /\ getters.CloseNotify (stream w') = None
      /\ getters.State (stream w') = CLOSED).
Proof.
  cbn zeta.
  destruct (accessors_over_lifetime (mkConn (Some conn_stop)) sample_frame
              (Some conn_output) None (http.mkRequest None) 65536 false
              [OpCall (CallWrite [x68; x69])] (fun _ => []))
    as [Hget Hclose].
  split.
  - destruct (Hget (world_of (run [OpCall (CallWrite [x68; x69])]
                                  (sample_world 65536))))
      as (Hid & _ & Hconn & Hthere); [now left|].
    split; [exact Hid|]. split; [exact Hconn|]. apply Hthere. reflexivity.
  - destruct (Hclose (world_of (run [OpCall (CallWrite [x68; x69])]
                                    (sample_world 65536)))
                (world_of (Close (world_of (run [OpCall (CallWrite [x68; x69])]
                                                (sample_world 65536))))))
      as (Hh & Hs & Hst & _); [reflexivity|reflexivity|vm_compute; reflexivity|].
    split; [exact Hh|]. split; [exact Hs|exact Hst].
Defined.

(** X18: Frames that arrive after [Close]: a DATA frame makes
    [ReceiveFrame] panic (the request body buffer is [nil]); so does a
    HEADERS or SYN_REPLY frame that carries a header value (the header
    map is [nil]); and a WINDOW_UPDATE that overflows the send window
    makes [ReceiveFrame] wait for ever, on the [nil] output channel. *)
Theorem frames_after_Close (w0 w : World) :
  shutdownOnce (stream w0) = false ->
  Close w0 = Returned None w ->
  (forall id flags data,
     ReceiveFrame (Some (frames.DATA id flags data)) w = Panicked w)
  /\ (forall flags id hdr name v vs,
        hdr !! name = Some (v :: vs) ->
        ReceiveFrame (Some (frames.HEADERS flags id hdr)) w = Panicked w
        /\ ReceiveFrame (Some (frames.SYN_REPLY flags id hdr)) w = Panicked w)
  /\ (forall id delta f,
        flow (stream w) = Some f ->
        send_window f + delta > 2 ^ 31 - 1 ->
        ReceiveFrame (Some (frames.WINDOW_UPDATE id delta)) w = Blocked w).
Proof.
  intros Honce Hclose.
  destruct (Close_fields w0 w Honce Hclose)
    as (_ & Hbody & Hout & _ & _ & Hhdr & _).
  split; [|split].
  - intros id flags data. cbn [ReceiveFrame]. unfold bind, get, panic.
    now rewrite Hbody.
  - intros flags id hdr name v vs Hval.
    assert (merge_header hdr w = Panicked w) as Hm.
    { unfold merge_header, bind, get, panic, ret. rewrite Hhdr.
      rewrite bool_decide_eq_false_2; [reflexivity|].
      intros Hall. specialize (Hall name _ Hval). discriminate Hall. }
    cbn [ReceiveFrame]. unfold bind. now rewrite Hm.
  - intros id delta f Hf Hover. cbn [ReceiveFrame]. unfold bind at 1, get.
    rewrite Hf. unfold flow_UpdateWindow.
    destruct (Z.gtb_spec (send_window f + delta) (2 ^ 31 - 1)); [|lia].
    unfold bind, send. now rewrite Hout.
Qed.

Lemma frames_after_Close_witness :
  let w := world_of (Close (sample_world (2 ^ 31 - 5))) in
  ReceiveFrame (Some (frames.DATA 1 FLAG_NONE [x61])) w = Panicked w
  /\ ReceiveFrame (Some (frames.HEADERS FLAG_NONE 1 (<["Server" := ["go"]]> ∅))) w
     = Panicked w
  /\ ReceiveFrame (Some (frames.WINDOW_UPDATE 1 10)) w = Blocked w.
Proof.
  cbn zeta.
  destruct (frames_after_Close (sample_world (2 ^ 31 - 5))
              (world_of (Close (sample_world (2 ^ 31 - 5)))))
    as (Hd & Hh & Hw); [reflexivity|reflexivity|].
  split; [apply Hd|]. split.
  - apply (Hh FLAG_NONE 1 (<["Server" := ["go"]]> ∅) "Server" "go" []). apply lookup_insert_eq.
  - apply (Hw 1 10 (flow_Close (newFlowControl 1 (2 ^ 31 - 5)))); [reflexivity|].
    cbn. lia.
Defined.

(** X19: What the handler finds after [Close]: [Write] returns an error
    and sends nothing; a write to the header map panics, a delete on it
    does nothing; [WriteHeader] on a stream that has not written its
    header panics, having sent nothing; a further [Close] does nothing. *)
Theorem handler_after_Close (w0 w : World) :
  shutdownOnce (stream w0) = false ->
  Close w0 = Returned None w ->
  (forall data, exists err, Write data w = Returned (0, Some err) w)
  /\ (forall name value,
        call (CallHeaderSet name value) w = Panicked w
        /\ call (CallHeaderAdd name value) w = Panicked w
        /\ call (CallHeaderDel name) w = Returned tt w)
  /\ (forall code,
        unidirectional (stream w) = false -> wroteHeader (stream w) = false ->
        exists w', WriteHeader code w = Panicked w' /\ sent w' = sent w)
  /\ Close w = Returned None w.
Proof.
  intros Honce Hclose.
  destruct (Close_fields w0 w Honce Hclose)
    as (Hfired & _ & _ & _ & Hhandler & Hhdr & _).
  split; [|split; [|split]].
  - intros data. unfold Write, bind, get, ret.
    destruct (unidirectional (stream w)); [eauto|].
    assert (closed w = true) as ->; [|cbn; eauto].
    unfold closed. rewrite Hhandler. now destruct (conn (stream w)).
  - intros name value. cbn [call]. unfold header_write, bind, get, panic, ret.
    now rewrite Hhdr.
  - intros code Hu Hw.
    unfold WriteHeader, bind, get, ret, update, panic, with_stream.
    rewrite Hu, Hw. fields. rewrite Hhdr. eexists. split; reflexivity.
  - now apply Close_fired.
Qed.

Lemma handler_after_Close_witness :
  let w := world_of (Close (sample_world 65536)) in
  (exists err, Write [x61] w = Returned (0, Some err) w)
  /\ call (CallHeaderSet "Server" "go") w = Panicked w
  /\ (exists w', WriteHeader 200 w = Panicked w' /\ sent w' = sent w)
  /\ Close w = Returned None w.
Proof.
  cbn zeta.
  destruct (handler_after_Close (sample_world 65536)
              (world_of (Close (sample_world 65536))))
    as (Hw & Hs & Hwh & Hc); [reflexivity|reflexivity|].
  split; [apply Hw|]. split; [apply Hs|]. split; [|exact Hc].
  apply Hwh; reflexivity.
Defined.

(** X20: [Run] after [Close] returns [nil] without invoking the handler
    and without sending a frame: preparing the request panics (the
    request is [nil]) once a new request body buffer has been made, and
    the panic is recovered. *)
Theorem Run_after_Close (w0 w : World) (serve : http.Handler -> list Call) :
  shutdownOnce (stream w0) = false ->
  Close w0 = Returned None w ->
  Run serve w
  = Returned None (with_stream w (set_requestBody (Some []) (stream w))).
Proof.
  intros Honce Hclose.
  destruct (Close_fields w0 w Honce Hclose) as (_ & Hbody & _ & Hreq & _).
  unfold Run, Run_serve, Run_prepare, bind, get, update, panic, with_stream.
  rewrite Hbody. fields. rewrite Hreq. reflexivity.
Qed.

Lemma Run_after_Close_witness :
  let w := world_of (Close (sample_world 65536)) in
  Run (fun _ => [CallWrite [x61]]) w
  = Returned None (with_stream w (set_requestBody (Some []) (stream w))).
Proof.
  apply (Run_after_Close (sample_world 65536)); reflexivity.
Defined.

(** A DATA frame on a stream with a request body buffer and a flow
    controller. *)
Lemma ReceiveFrame_DATA (w : World) (id : StreamID) (flags : Flags)
    (data body : list byte) (f : flowControl) :
  requestBody (stream w) = Some body ->
  flow (stream w) = Some f ->
  exists w',
    ReceiveFrame (Some (frames.DATA id flags data)) w = Returned None w'
    /\ requestBody (stream w') = Some (body ++ data)
    /\ is_Some (flow (stream w'))
    /\ ready (stream w') = ready (stream w) || FIN flags
    /\ state (stream w') = (if FIN flags then CloseThere (state (stream w))
                            else state (stream w)).
Proof.
  intros Hb Hf. cbn [ReceiveFrame].
  unfold remote_fin, close_ready, flow_call, bind, get, update, ret, with_stream.
  rewrite Hb. fields. rewrite Hf.
  destruct (flow_Receive f data) as [f' fs].
  destruct (FIN flags); eexists; (split; [reflexivity|]); fields;
    rewrite ?orb_true_r, ?orb_false_r; eauto.
Qed.

(** X21: The request body is what the DATA frames carry, in the order in
    which they arrive, whatever stream ID they name and whether or not
    the remote side is closed already; [ready] is closed, and the remote
    side of the stream with it, when one of them carries FIN; the local
    side is not touched. *)
Theorem request_body_in_order (w : World) (fs : list frames.Frame)
    (body : list byte) (f : flowControl) :
  requestBody (stream w) = Some body ->
  flow (stream w) = Some f ->
  Forall (fun fr => is_DATA fr = true) fs ->
  exists w',
    deliver (map Some fs) w = Returned tt w'
    /\ requestBody (stream w') = Some (body ++ concat (map payload fs))
    /\ ready (stream w') = ready (stream w) || existsb carries_FIN fs
    /\ (existsb carries_FIN fs = false -> state (stream w') = state (stream w))
    /\ (existsb carries_FIN fs = true -> ClosedThere (state (stream w')) = true)
    /\ ClosedHere (state (stream w')) = ClosedHere (state (stream w)).
Proof.
  intros Hb Hf Hall. revert w body f Hb Hf.
  induction Hall as [|fr fs Hfr _ IH]; intros w body f Hb Hf.
  - exists w. cbn. rewrite app_nil_r, orb_false_r.
    split; [reflexivity|]. repeat split; auto; discriminate.
  - destruct fr as [| |id flags data| | |]; try discriminate Hfr.
    destruct (ReceiveFrame_DATA w id flags data body f Hb Hf)
      as (w1 & E1 & Hb1 & [f1 Hf1] & Hr1 & Hs1).
    destruct (IH w1 _ f1 Hb1 Hf1) as (w2 & E2 & Hb2 & Hr2 & Hsame & Hfin & Hhere).
    exists w2. unfold deliver in *. cbn [map run op].
    unfold bind at 1 2. rewrite E1. unfold ret.
    split; [exact E2|].
    cbn [map concat payload existsb]. unfold carries_FIN at 1 3 5.
    cbn [frames.frame_flags].
    split; [now rewrite Hb2, app_assoc|].
    split; [now rewrite Hr2, Hr1, orb_assoc|].
    split; [|split].
    + intros Hno. apply orb_false_iff in Hno as [Hno1 Hno2].
      rewrite (Hsame Hno2), Hs1, Hno1. reflexivity.
    + intros Hyes.
      destruct (existsb carries_FIN fs) eqn:Hrest; [now apply Hfin|].
      rewrite orb_false_r in Hyes. rewrite (Hsame eq_refl), Hs1, Hyes.
      apply ClosedThere_CloseThere.
    + rewrite Hhere, Hs1. destruct (FIN flags); [|reflexivity].
      apply ClosedHere_CloseThere.
Qed.

Lemma request_body_in_order_witness :
  (exists w',
     deliver [Some (frames.DATA 1 FLAG_NONE [x61; x62]);
              Some (frames.DATA 7 FLAG_FIN [x63]);
              Some (frames.DATA 1 FLAG_NONE [x64])] (sample_world 65536)
     = Returned tt w'
     /\ requestBody (stream w') = Some [x61; x62; x63; x64]
     /\ ready (stream w') = true
     /\ ClosedThere (state (stream w')) = true)
  /\ (exists w',
        deliver [Some (frames.DATA 1 FLAG_NONE [x61])] (sample_world 65536)
        = Returned tt w'
        /\ state (stream w') = state (stream (sample_world 65536))).
Proof.
  split.
  - destruct (request_body_in_order (sample_world 65536)
                [frames.DATA 1 FLAG_NONE [x61; x62]; frames.DATA 7 FLAG_FIN [x63];
                 frames.DATA 1 FLAG_NONE [x64]] [] (newFlowControl 1 65536))
      as (w' & E & Hb & Hr & _ & Hc & _).
    + reflexivity.
    + reflexivity.
    + repeat constructor.
    + exists w'. split; [exact E|]. split; [exact Hb|].
      split; [exact Hr|]. apply Hc. reflexivity.
  - destruct (request_body_in_order (sample_world 65536)
                [frames.DATA 1 FLAG_NONE [x61]] [] (newFlowControl 1 65536))
      as (w' & E & _ & _ & Hsame & _ & _).
    + reflexivity.
    + reflexivity.
    + repeat constructor.
    + exists w'. split; [exact E|]. apply Hsame. reflexivity.
Defined.

(** *** [Run] from the first frame to the last *)

Lemma keeps_ret {A B : Type} (field : ResponseStream -> B) (a : A) :
  keeps field (ret a).
Proof. intros w. reflexivity. Qed.

Lemma keeps_panic {A B : Type} (field : ResponseStream -> B) :
  keeps field (@panic A).
Proof. intros w. reflexivity. Qed.

Lemma keeps_get {B : Type} (field : ResponseStream -> B) : keeps field get.
Proof. intros w. reflexivity. Qed.

Lemma keeps_bind {A A' B : Type} (field : ResponseStream -> B)
    (m : M A) (k : A -> M A') :
  keeps field m -> (forall a, keeps field (k a)) -> keeps field (bind m k).
Proof.
  intros Hm Hk w. rewrite world_of_bind. specialize (Hm w).
  destruct (m w) as [a w'|w'|w']; cbn [world_of] in Hm; auto.
  now rewrite Hk.
Qed.

Lemma keeps_send {B : Type} (field : ResponseStream -> B) (f : frames.Frame) :
  keeps field (send f).
Proof. intros w. unfold send. now destruct (output (stream w)). Qed.

Lemma keeps_update {B : Type} (field : ResponseStream -> B)
    (f : ResponseStream -> ResponseStream) :
  (forall s, field (f s) = field s) -> keeps field (update f).
Proof. intros Hf w. apply Hf. Qed.

Lemma keeps_flow_call {A B : Type} (field : ResponseStream -> B)
    (method : flowControl -> flowControl * list frames.Frame * A) :
  (forall s v, field (set_flow v s) = field s) -> keeps field (flow_call method).
Proof.
  intros Hf w. unfold flow_call. destruct (flow (stream w)) as [f|]; [|reflexivity].
  destruct (method f) as [[f' fs] a]. apply Hf.
Qed.

(** [ReceiveFrame] does not touch the handler or the request. *)
Lemma keeps_ReceiveFrame {B : Type} (field : ResponseStream -> B)
    (frame : option frames.Frame) :
  (forall s v, field (set_flow v s) = field s) ->
  (forall s v, field (set_header v s) = field s) ->
  (forall s v, field (set_requestBody v s) = field s) ->
  (forall s v, field (set_state v s) = field s) ->
  (forall s v, field (set_ready v s) = field s) ->
  keeps field (ReceiveFrame frame).
Proof.
  intros Hflow Hheader Hbody Hstate Hready.
  assert (forall hdr, keeps field (merge_header hdr)) as Hmerge.
  { intros hdr. unfold merge_header. apply keeps_bind; [apply keeps_get|].
    intros s. destruct (header s); [now apply keeps_update|].
    destruct (bool_decide _); [apply keeps_ret|apply keeps_panic]. }
  assert (forall flags, keeps field (remote_fin flags)) as Hfin.
  { intros flags. unfold remote_fin, close_ready.
    destruct (FIN flags); [|apply keeps_ret].
    apply keeps_bind; [now apply keeps_update|]. intros _.
    apply keeps_update. intros s. apply Hstate. }
  destruct frame as [[flags id hdr|flags id hdr|id flags data|id delta|id status|name]|];
    cbn [ReceiveFrame]; try apply keeps_ret.
  - apply keeps_bind; [apply Hmerge|]. intros _.
    apply keeps_bind; [apply Hfin|intros; apply keeps_ret].
  - apply keeps_bind; [apply Hmerge|intros; apply keeps_ret].
  - apply keeps_bind; [apply keeps_get|]. intros s.
    destruct (requestBody s); [|apply keeps_panic].
    apply keeps_bind; [now apply keeps_update|]. intros _.
    apply keeps_bind; [now apply keeps_flow_call|]. intros _.
    apply keeps_bind; [apply Hfin|intros; apply keeps_ret].
  - apply keeps_bind; [apply keeps_get|]. intros s.
    destruct (flow s) as [f|]; [|apply keeps_panic].
    destruct (flow_UpdateWindow f delta) as [err|ffs].
    + apply keeps_bind; [apply keeps_send|intros; apply keeps_ret].
    + apply keeps_bind; [now apply keeps_flow_call|intros; apply keeps_ret].
Qed.

Lemma ReceiveFrame_handler (frame : option frames.Frame) (w w' : World)
    (e : option error) :
  ReceiveFrame frame w = Returned e w' ->
  handler (stream w') = handler (stream w)
  /\ request (stream w') = request (stream w).
Proof.
  intros E.
  pose proof (keeps_ReceiveFrame handler frame) as Hh.
  pose proof (keeps_ReceiveFrame request frame) as Hr.
  specialize (Hh ltac:(reflexivity) ltac:(reflexivity) ltac:(reflexivity)
                 ltac:(reflexivity) ltac:(reflexivity) w).
  specialize (Hr ltac:(reflexivity) ltac:(reflexivity) ltac:(reflexivity)
                 ltac:(reflexivity) ltac:(reflexivity) w).
  rewrite E in Hh, Hr. auto.
Qed.

(** Frames delivered to a stream that is being served. *)
Lemma deliver_Inv (arrived : list (option frames.Frame)) (w : World) :
  Inv false w ->
  exists w1, deliver arrived w = Returned tt w1
             /\ Inv false w1
             /\ steady w w1
             /\ wroteHeader (stream w1) = wroteHeader (stream w)
             /\ handler (stream w1) = handler (stream w)
             /\ request (stream w1) = request (stream w).
Proof.
  unfold deliver. revert w.
  induction arrived as [|frame arrived IH]; intros w HI.
  - exists w. split; [reflexivity|]. split; [exact HI|].
    split; [apply steady_refl|]. auto.
  - pose proof HI as [(f & Hf & _) Hh Hch Hb _ _ _].
    destruct (ReceiveFrame_steady frame w f Hf)
      as (e & w1 & f' & E & S & W & _ & _); [destruct Hh, Hch, Hb; eauto..|].
    destruct (Inv_receive false frame w HI) as (e' & w1' & E' & I1 & _).
    rewrite E in E'. injection E' as <- <-.
    destruct (ReceiveFrame_handler frame w w1 e E) as [Hhd Hrq].
    destruct (IH w1 I1) as (w2 & E2 & I2 & S2 & W2 & Hhd2 & Hrq2).
    exists w2. cbn [map run op]. unfold bind at 1 2. rewrite E. unfold ret.
    split; [exact E2|]. split; [exact I2|].
    split; [eauto using steady_trans|]. repeat split; congruence.
Qed.

(** [Write] on a stream that is being served leaves the state alone. *)
Lemma Write_state (data : list byte) (w : World) :
  Inv false w ->
  exists r w', Write data w = Returned r w'
               /\ state (stream w') = state (stream w).
Proof.
  intros HI.
  pose proof HI as [(f & Hf & Hp) (h & Hh) (ch & Hch) (b & Hb) Hcount Hserv _].
  destruct (unidirectional (stream w)) eqn:Hu.
  { rewrite (Write_unidirectional data w Hu). eauto. }
  destruct (closed w || ClosedHere (state (stream w))) eqn:Hcl.
  { rewrite (Write_closed data w Hu Hcl). eauto. }
  assert (exists w1, (if negb (wroteHeader (stream w))
                      then WriteHeader http.StatusOK else ret tt) w
                     = Returned tt w1
                     /\ steady w w1
                     /\ state (stream w1) = state (stream w)) as (w1 & E1 & S1 & St1).
  { destruct (wroteHeader (stream w)) eqn:Hw; cbn [negb].
    - exists w. split; [reflexivity|]. split; [apply steady_refl|]. auto.
    - rewrite (WriteHeader_first w _ h ch Hu Hw Hh Hch).
      change (no_body http.StatusOK) with false. cbv iota.
      eexists. split; [reflexivity|].
      split; [apply (steady_intro w); cbn; eauto; repeat constructor|]. auto. }
  destruct (steady_alive w w1 S1) as (A1 & A2 & A3 & A4); [eauto..|].
  destruct (writeHeader_steady w1) as (w2 & E2 & S2 & W2 & F2 & St2);
    [assumption..|].
  destruct (steady_alive w1 w2 S2) as (B1 & B2 & B3 & B4); [assumption..|].
  destruct (Write_loop_steady (length data) data 0 w2)
    as (r & w3 & E3 & S3 & W3 & St3); [assumption..|].
  exists r, w3. rewrite (Write_accepted data w Hu Hcl).
  unfold bind at 1. rewrite E1. unfold bind at 1. rewrite E2, E3.
  split; [reflexivity|congruence].
Qed.

(** A call of the handler: if it closes the local side, the frame with
    FIN is the last frame it sends. *)
Lemma call_last (c : Call) (w : World) :
  Inv false w ->
  (ClosedHere (state (stream w)) = true -> ends_with_FIN (sent w)) ->
  is_close c = false ->
  exists w', call c w = Returned tt w'
             /\ Inv false w'
             /\ (ClosedHere (state (stream w')) = true -> ends_with_FIN (sent w'))
             /\ unidirectional (stream w') = unidirectional (stream w)
             /\ (unidirectional (stream w) = true -> sent w' = sent w).
Proof.
  intros HI HL Hc.
  destruct (Inv_call c w HI Hc) as (w' & E & HI' & Hu' & Hsame).
  exists w'. split; [exact E|]. split; [exact HI'|].
  pose proof HI as [_ (h & Hh) (ch & Hch) _ _ _ _].
  destruct c as [data|code|name value|name value|name|]; try discriminate;
    cbn [call] in E.
  - (* Write *)
    destruct (Write_state data w HI) as (r & w2 & E2 & St).
    unfold bind in E. rewrite E2 in E. injection E as <-.
    split; [|split; [exact Hu'|]].
    + rewrite St. intros Hcl. rewrite (Hsame Hcl). auto.
    + intros Hu. rewrite (Write_unidirectional data w Hu) in E2.
      now injection E2 as <- <-.
  - (* WriteHeader *)
    destruct (unidirectional (stream w)) eqn:Hu.
    { rewrite WriteHeader_ignored in E by now left. injection E as <-. auto. }
    split; [|split; [exact Hu'|discriminate]].
    destruct (wroteHeader (stream w)) eqn:Hw.
    { rewrite WriteHeader_ignored in E by now right. injection E as <-. auto. }
    rewrite (WriteHeader_first w code h ch Hu Hw Hh Hch) in E. injection E as <-.
    fields. destruct (no_body code).
    + intros _. eexists. eexists. split; reflexivity.
    + intros Hcl. destruct (Inv_not_written w HI Hw) as [Hopen _]. congruence.
  - (* Header().Set *)
    unfold header_write, bind, get, update, with_stream in E. rewrite Hh in E.
    injection E as <-. fields. auto.
  - (* Header().Add *)
    unfold header_write, bind, get, update, with_stream in E. rewrite Hh in E.
    injection E as <-. fields. auto.
  - (* Header().Del *)
    unfold bind, get, update, with_stream in E. rewrite Hh in E.
    injection E as <-. fields. auto.
Qed.

Lemma ServeHTTP_last (script : list Call) (w : World) :
  Inv false w ->
  (ClosedHere (state (stream w)) = true -> ends_with_FIN (sent w)) ->
  no_Close script = true ->
  exists w', ServeHTTP script w = Returned tt w'
             /\ Inv false w'
             /\ (ClosedHere (state (stream w')) = true -> ends_with_FIN (sent w'))
             /\ unidirectional (stream w') = unidirectional (stream w)
             /\ (unidirectional (stream w) = true -> sent w' = sent w).
Proof.
  revert w. induction script as [|c script IH]; intros w HI HL Hno.
  - exists w. split; [reflexivity|]. auto.
  - cbn in Hno. apply andb_true_iff in Hno as [Hc Hno].
    apply negb_true_iff in Hc.
    destruct (call_last c w HI HL Hc) as (w1 & E1 & I1 & L1 & U1 & S1).
    destruct (IH w1 I1 L1 Hno) as (w2 & E2 & I2 & L2 & U2 & S2).
    exists w2. cbn [ServeHTTP]. unfold bind. rewrite E1.
    split; [exact E2|]. split; [exact I2|]. split; [exact L2|].
    split; [congruence|]. intros Hu. rewrite S2, S1; congruence.
Qed.

(** The end of [Run]: the frame with FIN is the last one sent. *)
Lemma Run_finish_last (w : World) :
  Inv false w ->
  (ClosedHere (state (stream w)) = true -> ends_with_FIN (sent w)) ->
  OpenThere (state (stream w)) = false ->
  exists w', Run_finish w = Returned tt w'
             /\ state (stream w') = CLOSED
             /\ (unidirectional (stream w) = true -> sent w' = sent w)
             /\ (unidirectional (stream w) = false ->
                 count_fin (sent w') = 1%nat /\ ends_with_FIN (sent w')).
Proof.
  intros HI HL Hthere.
  destruct (Inv_finish w HI) as (w' & E & _ & _ & Hsame & Hone).
  exists w'. split; [exact E|].
  pose proof HI as [(f & Hf & _) (h & Hh) (ch & Hch) _ _ _ _].
  revert E. unfold Run_finish. unfold bind at 1. rewrite (Run_flush_flow w f Hf).
  unfold flushed. rewrite Hthere, andb_false_r, app_nil_r.
  rewrite (set_flow_same _ f Hf), world_eta.
  assert (CloseHere (state (stream w)) = CLOSED) as Hclosed
    by (revert Hthere; now destruct (state (stream w))).
  destruct (unidirectional (stream w)) eqn:Hu.
  { unfold bind at 1. rewrite Run_trailer_none by now left.
    unfold update, with_stream. intros [= <-]. fields.
    split; [exact Hclosed|]. split; [reflexivity|discriminate]. }
  destruct (OpenHere (state (stream w))) eqn:Ho.
  2:{ assert (ClosedHere (state (stream w)) = true) as Hc
        by (rewrite OpenHere_ClosedHere in Ho; now apply negb_false_iff).
      unfold bind at 1. rewrite Run_trailer_none by now right.
      unfold update, with_stream. intros [= <-]. fields.
      split; [exact Hclosed|]. split; [discriminate|]. intros _.
      split; [|now apply HL].
      specialize (Hone eq_refl). revert Hone. intros Hone.
      pose proof HI as [_ _ _ _ Hcount _ _]. now rewrite Hcount, Hc, Hu. }
  destruct (wroteHeader (stream w)) eqn:Hw.
  - unfold bind at 1. rewrite (Run_trailer_data _ ch) by assumption.
    unfold update, with_stream. intros [= <-]. fields.
    split; [exact Hclosed|]. split; [discriminate|]. intros _.
    split; [|eexists; eexists; split; reflexivity].
    pose proof HI as [_ _ _ _ Hcount _ _].
    rewrite count_fin_app, Hcount, <- (negb_involutive (ClosedHere _)),
      <- OpenHere_ClosedHere, Ho. reflexivity.
  - unfold bind at 1. rewrite (Run_trailer_reply _ h ch) by assumption.
    unfold update, with_stream. intros [= <-]. fields.
    split; [exact Hclosed|]. split; [discriminate|]. intros _.
    split; [|eexists; eexists; split; reflexivity].
    pose proof HI as [_ _ _ _ Hcount _ _].
    rewrite count_fin_app, Hcount, <- (negb_involutive (ClosedHere _)),
      <- OpenHere_ClosedHere, Ho. reflexivity.
Qed.

(** X22: [Run] on a stream the connection has created, after the frames
    [arrived] have been delivered to it, with a handler that does not
    call [Close].  If no frame with FIN has come (neither the SYN_STREAM
    nor a later frame), [Run] waits, having sent nothing and not having
    invoked the handler.  Otherwise [Run] returns [nil] and leaves the
    stream CLOSED; on a unidirectional stream it has sent nothing; on
    any other stream it has sent exactly one frame with FIN, and that
    frame is the last one it has sent. *)
Theorem Run_completes (conn : Conn) (frame : frames.SynStreamFrame)
    (ch : OutputChan) (hd : option http.Handler) (request : http.Request)
    (initial : Z) (stopped : bool) (arrived : list (option frames.Frame))
    (serve : http.Handler -> list Call) :
  no_Close (serve (handler_of hd)) = true ->
  exists w1 : World,
    deliver arrived (new_world conn frame (Some ch) hd request initial stopped)
    = Returned tt w1
    /\ (ready (stream w1) = false -> Run serve w1 = Blocked w1)
    /\ (ready (stream w1) = true ->
        exists w : World,
          Run serve w1 = Returned None w
          /\ state (stream w) = CLOSED
          /\ (UNIDIRECTIONAL (frames.Flags frame) = true -> sent w = sent w1)
          /\ (UNIDIRECTIONAL (frames.Flags frame) = false ->
              count_fin (sent w) = 1%nat /\ ends_with_FIN (sent w))).
Proof.
  intros Hno.
  set (w0 := new_world conn frame (Some ch) hd request initial stopped).
  pose proof (Inv_new_world conn frame ch hd request initial stopped) as H0.
  fold w0 in H0.
  destruct (deliver_Inv arrived w0 H0) as (w1 & E1 & I1 & S1 & W1 & Hhd & Hrq).
  exists w1. split; [exact E1|].
  pose proof I1 as [_ _ _ (b & Hb) _ _ _].
  assert (Run_prepare w1 = Returned tt w1) as Hprep.
  { unfold Run_prepare, bind, get, ret. rewrite Hb, Hrq. reflexivity. }
  assert (unidirectional (stream w1) = UNIDIRECTIONAL (frames.Flags frame)) as Huni
    by (rewrite (st_uni _ _ S1); reflexivity).
  split.
  - intros Hnot. unfold Run, Run_serve, wait_ready. unfold bind at 1 2.
    rewrite Hprep. unfold bind. now rewrite Hnot.
  - intros Hready.
    assert (OpenThere (state (stream w1)) = false) as Hthere.
    { unfold deliver in E1.
      apply (Run_ready_closed conn frame (Some ch) hd request initial stopped
               (map OpReceive arrived) w1 E1 Hready). }
    assert (ClosedHere (state (stream w1)) = false) as Hhere.
    { rewrite (st_here _ _ S1). unfold w0, new_world, NewResponseStream. fields.
      now destruct (FIN (frames.Flags frame)). }
    destruct (ServeHTTP_last (serve (handler_of hd)) w1 I1)
      as (w2 & E2 & I2 & L2 & U2 & Q2); [congruence|exact Hno|].
    assert (OpenThere (state (stream w2)) = false) as Hthere2.
    { pose proof (advances_ServeHTTP (serve (handler_of hd)) w1)
        as [_ _ _ _ _ Ht _ _ _ _ _ _ _].
      rewrite E2 in Ht. cbn [world_of] in Ht.
      rewrite OpenThere_ClosedThere in *. apply negb_false_iff.
      apply Ht. now apply negb_false_iff. }
    destruct (Run_finish_last w2 I2 L2 Hthere2) as (w3 & E3 & Hst & Hu3 & Hn3).
    exists w3.
    assert (Run serve w1 = Returned None w3) as ->.
    { unfold Run, Run_serve, wait_ready, Run_handler. unfold bind at 1 2.
      rewrite Hprep. unfold bind at 1 2. rewrite Hready.
      unfold get. rewrite Hhd.
      assert (handler (stream w0) = Some (handler_of hd)) as ->
        by now destruct hd.
      rewrite E2, E3. reflexivity. }
    split; [reflexivity|]. split; [exact Hst|]. rewrite <- Huni, <- U2.
    split.
    + intros Hu. rewrite Hu3 by exact Hu. apply Q2. congruence.
    + exact Hn3.
Qed.

Lemma Run_completes_witness :
  (exists w1 : World,
     deliver [Some (frames.DATA 1 FLAG_FIN [x61])]
       (new_world (mkConn (Some conn_stop)) small_syn (Some conn_output) None
                  (http.mkRequest None) 65536 false)
     = Returned tt w1
     /\ exists w : World,
          Run (fun _ => [CallHeaderSet "Server" "go"; CallWrite [x68; x69]]) w1
          = Returned None w
          /\ state (stream w) = CLOSED
          /\ count_fin (sent w) = 1%nat /\ ends_with_FIN (sent w))
  /\ (exists w1 : World,
        deliver []
          (new_world (mkConn (Some conn_stop)) small_syn (Some conn_output) None
                     (http.mkRequest None) 65536 false)
        = Returned tt w1
        /\ Run (fun _ => [CallWrite [x68; x69]]) w1 = Blocked w1)
  /\ (exists w1 w : World,
        deliver [] sample_push_world = Returned tt w1
        /\ Run (fun _ => [CallWrite [x68; x69]]) w1 = Returned None w
        /\ sent w = sent w1).
Proof.
  split; [|split].
  - destruct (Run_completes (mkConn (Some conn_stop)) small_syn conn_output None
                (http.mkRequest None) 65536 false
                [Some (frames.DATA 1 FLAG_FIN [x61])]
                (fun _ => [CallHeaderSet "Server" "go"; CallWrite [x68; x69]]))
      as (w1 & E1 & _ & Hrun); [reflexivity|].
    exists w1. split; [exact E1|].
    destruct Hrun as (w & E & Hst & _ & Hfin).
    + revert E1. vm_compute. intros [= <-]. reflexivity.
    + exists w. split; [exact E|]. split; [exact Hst|]. apply Hfin. reflexivity.
  - destruct (Run_completes (mkConn (Some conn_stop)) small_syn conn_output None
                (http.mkRequest None) 65536 false []
                (fun _ => [CallWrite [x68; x69]]))
      as (w1 & E1 & Hwait & _); [reflexivity|].
    exists w1. split; [exact E1|]. apply Hwait.
    revert E1. vm_compute. intros [= <-]. reflexivity.
  - destruct (Run_completes (mkConn (Some conn_stop))
                (frames.mkSynStreamFrame x03 2 1 x00 x00 None (Some []))
                conn_output None (http.mkRequest None) 65536 false []
                (fun _ => [CallWrite [x68; x69]]))
      as (w1 & E1 & _ & Hrun); [reflexivity|].
    destruct Hrun as (w & E & _ & Hquiet & _).
    + revert E1. vm_compute. intros [= <-]. reflexivity.
    + exists w1, w. split; [exact E1|]. split; [exact E|].
      apply Hquiet. reflexivity.
Defined.

(** *** Headers set after the reply *)





(** *** A handler that calls [Close] *)

Lemma call_shut (c : Call) (w : World) :
  shut w ->
  exists w', (call c w = Returned tt w' \/ call c w = Panicked w')
             /\ shut w' /\ sent w' = sent w.
Proof.
  intros [Honce Hhandler Hhdr Hstate Hflow].
  destruct c as [data|code|name value|name value|name|]; cbn [call].
  - exists w. split; [left|split; [now constructor|reflexivity]].
    unfold Write, bind, get, ret.
    destruct (unidirectional (stream w)); [reflexivity|].
    assert (closed w = true) as ->; [|reflexivity].
    unfold closed. rewrite Hhandler. now destruct (conn (stream w)).
  - unfold WriteHeader, bind, get, ret, update, panic, with_stream.
    destruct (unidirectional (stream w)).
    { exists w. split; [now left|split; [now constructor|reflexivity]]. }
    destruct (wroteHeader (stream w)).
    { exists w. split; [now left|split; [now constructor|reflexivity]]. }
    fields. rewrite Hhdr. eexists. split; [now right|].
    split; [constructor; fields; assumption|reflexivity].
  - exists w. split; [right|split; [now constructor|reflexivity]].
    unfold header_write, bind, get, panic. now rewrite Hhdr.
  - exists w. split; [right|split; [now constructor|reflexivity]].
    unfold header_write, bind, get, panic. now rewrite Hhdr.
  - exists w. split; [left|split; [now constructor|reflexivity]].
    unfold bind, get, ret. now rewrite Hhdr.
  - exists w. split; [left|split; [now constructor|reflexivity]].
    unfold bind. now rewrite (Close_fired w Honce).
Qed.

Lemma ServeHTTP_shut (script : list Call) (w : World) :
  shut w ->
  exists w', (ServeHTTP script w = Returned tt w' \/ ServeHTTP script w = Panicked w')
             /\ shut w' /\ sent w' = sent w.
Proof.
  revert w. induction script as [|c script IH]; intros w Hs.
  - exists w. split; [now left|]. split; [exact Hs|reflexivity].
  - destruct (call_shut c w Hs) as (w1 & [E1|E1] & S1 & Q1);
      cbn [ServeHTTP]; unfold bind; rewrite E1.
    + destruct (IH w1 S1) as (w2 & E2 & S2 & Q2).
      exists w2. split; [exact E2|]. split; [exact S2|congruence].
    + exists w1. split; [now right|]. split; [exact S1|exact Q1].
Qed.

Lemma Run_finish_shut (w : World) :
  shut w ->
  exists w', Run_finish w = Returned tt w'
             /\ state (stream w') = CLOSED /\ sent w' = sent w.
Proof.
  intros [Honce Hhandler Hhdr Hstate [f Hf]].
  unfold Run_finish. unfold bind at 1. rewrite (Run_flush_flow w f Hf).
  unfold flushed. rewrite Hstate. cbn [OpenThere]. rewrite andb_false_r, app_nil_r.
  rewrite (set_flow_same _ f Hf), world_eta.
  unfold bind at 1. rewrite Run_trailer_none by (right; now rewrite Hstate).
  unfold update, with_stream. eexists. split; [reflexivity|]. fields.
  rewrite Hstate. split; reflexivity.
Qed.

(** X24: A handler that calls [Close] before it has written anything
    ends the stream without a word to the peer: whatever the handler
    does afterwards (writes that are refused, calls that panic), [Run]
    returns [nil] with the stream CLOSED and no frame sent: no
    SYN_REPLY, and no frame with FIN. *)
Theorem Close_in_handler_is_silent (conn : Conn) (frame : frames.SynStreamFrame)
    (ch : OutputChan) (hd : option http.Handler) (request : http.Request)
    (initial : Z) (stopped : bool) (serve : http.Handler -> list Call)
    (rest : list Call) :
  FIN (frames.Flags frame) = true ->
  serve (handler_of hd) = CallClose :: rest ->
  exists w : World,
    Run serve (new_world conn frame (Some ch) hd request initial stopped)
    = Returned None w
    /\ sent w = []
    /\ count_fin (sent w) = 0%nat
    /\ state (stream w) = CLOSED.
Proof.
  intros Hfin Hserve.
  set (w0 := new_world conn frame (Some ch) hd request initial stopped).
  assert (shutdown w0 = Returned tt (after_shutdown w0)) as Hshut
    by now apply (shutdown_returns w0 ch).
  set (wc := with_stream (after_shutdown w0)
               (set_shutdownOnce true (stream (after_shutdown w0)))).
  assert (Close w0 = Returned None wc) as Hclose.
  { unfold Close, shutdownOnce_Do, bind, ret.
    change (shutdownOnce (stream w0)) with false. cbv iota. now rewrite Hshut. }
  assert (shut wc) as Hs by (constructor; cbn; eauto).
  assert (sent wc = []) as Hsent by reflexivity.
  destruct (ServeHTTP_shut rest wc Hs) as (w2 & E2 & S2 & Q2).
  assert (Run_serve serve w0 = ServeHTTP rest wc) as Hrun.
  { unfold Run_serve, Run_prepare, wait_ready, Run_handler, bind, get, ret.
    change (requestBody (stream w0)) with (Some (@nil byte)).
    change (spdy3.request (stream w0))
      with (Some (http.mkRequest (Some http.ReadCloser_requestBody))).
    cbv iota beta. cbn [http.Body].
    change (ready (stream w0)) with (FIN (frames.Flags frame)). rewrite Hfin.
    assert (handler (stream w0) = Some (handler_of hd)) as -> by now destruct hd.
    rewrite Hserve. cbn [ServeHTTP call]. unfold bind, ret. rewrite Hclose.
    reflexivity. }
  unfold Run. unfold bind. rewrite Hrun.
  destruct E2 as [-> | ->].
  - destruct (Run_finish_shut w2 S2) as (w3 & E3 & St3 & Q3). rewrite E3.
    exists w3. split; [reflexivity|].
    assert (sent w3 = []) as -> by congruence. auto.
  - exists w2. split; [reflexivity|].
    assert (sent w2 = []) as -> by congruence.
    destruct S2 as [_ _ _ Hst _]. auto.
Qed.

Lemma Close_in_handler_is_silent_witness :
  exists w : World,
    Run (fun _ => [CallClose; CallWriteHeader 200; CallWrite [x68; x69]])
        (sample_world 65536)
    = Returned None w
    /\ sent w = []
    /\ count_fin (sent w) = 0%nat
    /\ state (stream w) = CLOSED.
Proof.
  apply (Close_in_handler_is_silent (mkConn (Some conn_stop)) sample_frame
           conn_output None (http.mkRequest None) 65536 false
           (fun _ => [CallClose; CallWriteHeader 200; CallWrite [x68; x69]])
           [CallWriteHeader 200; CallWrite [x68; x69]]).
  - reflexivity.
  - reflexivity.
Defined.

(** *** Headers that arrive *)

Lemma UpdateHeader_fresh (older newer : http.Header) (k : string) :
  older !! k = None ->
  UpdateHeader older newer !! k =
    match newer !! k with
    | Some (v :: vs) => Some (v :: vs)
    | _ => None
    end.
Proof.
  intros Hfresh. unfold UpdateHeader.
  apply (map_fold_weak_ind
           (fun (r m : http.Header) =>
              r !! k = match m !! k with
                       | Some (v :: vs) => Some (v :: vs)
                       | _ => None
                       end)).
  - now rewrite lookup_empty.
  - intros name values m r Hnew IH.
    rewrite AddAll_lookup.
    destruct (decide (k = name)) as [->|Hne].
    + rewrite lookup_insert_eq. rewrite Hnew in IH. rewrite IH.
      now destruct values.
    + rewrite lookup_insert_ne by congruence. exact IH.
Qed.

(** X25: The headers of a HEADERS frame that arrives are merged into
    the pending response headers: a header of the frame under a name for
    which no response header is pending is carried back to the peer, with
    its values, by the next SYN_REPLY the stream sends. *)
Theorem received_headers_sent_back (w : World) (h hdr : http.Header)
    (ch : OutputChan) (flags : Flags) (id : StreamID) (code : Z)
    (name v : string) (vs : list string) :
  unidirectional (stream w) = false ->
  wroteHeader (stream w) = false ->
  header (stream w) = Some h ->
  output (stream w) = Some ch ->
  h !! name = None ->
  hdr !! name = Some (v :: vs) ->
  name <> ":status" -> name <> ":version" ->
  exists (w1 w2 : World) (reply : http.Header),
    ReceiveFrame (Some (frames.HEADERS flags id hdr)) w = Returned None w1
    /\ sent w1 = sent w
    /\ WriteHeader code w1 = Returned tt w2
    /\ sent w2 = sent w ++ [frames.SYN_REPLY (if no_body code then FLAG_FIN
                                              else FLAG_NONE)
                                             (streamID (stream w)) reply]
    /\ reply !! name = Some (v :: vs).
Proof.
  intros Hu Hw Hh Hout Hfresh Hval Hs Hv.
  cbn [ReceiveFrame]. unfold merge_header, bind, get, update, ret, with_stream.
  rewrite Hh. eexists. eexists. eexists. split; [reflexivity|].
  split; [reflexivity|].
  rewrite (WriteHeader_first _ code (UpdateHeader h hdr) ch); fields; auto.
  split; [reflexivity|]. split; [reflexivity|].
  apply (proj2 (proj2 (reply_header (Itoa code) (UpdateHeader h hdr)))); auto.
  now rewrite (UpdateHeader_fresh h hdr name Hfresh), Hval.
Qed.

Lemma received_headers_sent_back_witness :
  let w := world_of (run [OpCall (CallHeaderSet "Server" "go")] (sample_world 65536)) in
  exists (w1 w2 : World) (reply : http.Header),
    ReceiveFrame (Some (frames.HEADERS FLAG_NONE 1 (<["Cookie" := ["k=v"]]> ∅))) w
    = Returned None w1
    /\ WriteHeader 200 w1 = Returned tt w2
    /\ sent w2 = [frames.SYN_REPLY FLAG_NONE 1 reply]
    /\ reply !! "Cookie" = Some ["k=v"].
Proof.
  cbn zeta.
  destruct (received_headers_sent_back
              (world_of (run [OpCall (CallHeaderSet "Server" "go")]
                             (sample_world 65536)))
              (<["Server" := ["go"]]> ∅)
              (<["Cookie" := ["k=v"]]> ∅) conn_output FLAG_NONE 1 200
              "Cookie" "k=v" [])
    as (w1 & w2 & reply & E1 & _ & E2 & Q2 & Hr).
  - reflexivity.
  - reflexivity.
  - reflexivity.
  - reflexivity.
  - reflexivity.
  - apply lookup_insert_eq.
  - discriminate.
  - discriminate.
  - exists w1, w2, reply. split; [exact E1|]. split; [exact E2|].
    split; [exact Q2|exact Hr].
Defined.

End MoreStream.
